(** * Annotation aggregation and consensus scoring

    A shallow embedding of [lib/app/analytics/common.py]:
    [aggregate_image_annotations_as_df], [instance_consensus] and
    [image_consensus], together with the properties of the aggregation and
    consensus engine that the specification states about them.

    Conventions of the embedding.
    - Python floats are idealised as rationals ([Q]); [float("-inf")] is a
      separate constructor.  Division keeps Python's behaviour on a zero
      divisor: it raises [ZeroDivisionError].
    - Decoded JSON is the inductive [json]; a JSON object is an association
      list in file order.  Python's [None] and JSON's [null] are both [JNull].
    - An exception is a value of [exn]; code that can raise returns a
      [result].  Loops that mutate local state are folds over an explicit
      state record.
    - A pandas table is the list of its rows.  The conversions
      [pd.to_datetime] and [astype] are left to the library: the cells
      are kept as they are read.
    - The geometry library is a class of operations; those that can fail
      inside the library return a [result].
    - The file system is the export directory, with a field for what a
      folder name reaches outside of it.
    - [classes/classes.json] is taken as decoded to its schema (names and
      colors are strings); annotation files are untyped JSON.  Where Python
      fails on a value of the wrong type the embedding raises [TypeError]
      ([AttributeError] for [.get] on a non-object). *)

From Stdlib Require Import QArith Qminmax Qround ZArith String List Bool Lia.
From stdpp Require Import gmap strings list fin_maps.
Import ListNotations.
Set Warnings "-register-all".
Local Open Scope string_scope.
Local Open Scope list_scope.

(** ** Python values, exceptions *)

Inductive json : Type :=
| JNull
| JBool (b : bool)
| JNum (q : Q)
| JStr (s : string)
| JArr (items : list json)
| JObj (fields : list (string * json)).

Inductive exn : Type :=
| AppException (msg : string)
| KeyError (key : json)
| TypeError
| AttributeError
| IndexError
| IsADirectoryError
| ZeroDivisionError
| NotImplementedError
| UnboundLocalError
| ValueError.

Inductive result (A : Type) : Type :=
| Ok (a : A)
| Raise (e : exn).
Arguments Ok {A} a.
Arguments Raise {A} e.

Definition result_bind {A B} (m : result A) (k : A -> result B) : result B :=
  match m with
  | Ok a => k a
  | Raise e => Raise e
  end.

Declare Scope py_scope.
Delimit Scope py_scope with py.
Notation "'let!' x ':=' m 'in' k" := (result_bind m (fun x => k))
  (at level 10, x name, m at level 100, k at level 200, only parsing) : py_scope.

(** State and exceptions: a statement run from state [s] either raises or
    ends in a new state with a value. *)
Definition M (S A : Type) : Type := S -> result (A * S).

Definition st_ret {S A} (a : A) : M S A := fun s => Ok (a, s).
Definition st_bind {S A B} (m : M S A) (k : A -> M S B) : M S B :=
  fun s => match m s with
           | Ok (a, s') => k a s'
           | Raise e => Raise e
           end.
Definition st_lift {S A} (r : result A) : M S A :=
  fun s => match r with Ok a => Ok (a, s) | Raise e => Raise e end.
Definition st_get {S} : M S S := fun s => Ok (s, s).
Definition st_modify {S} (f : S -> S) : M S unit := fun s => Ok (tt, f s).

Notation "'let*' x ':=' m 'in' k" := (st_bind m (fun x => k))
  (at level 10, x name, m at level 100, k at level 200, only parsing) : py_scope.
Notation "'do*' m 'in' k" := (st_bind m (fun _ => k))
  (at level 10, m at level 100, k at level 200, only parsing) : py_scope.

Local Open Scope py_scope.

(** [for x in xs: body], the body run for its effect. *)
Fixpoint st_for {S A} (xs : list A) (body : A -> M S unit) : M S unit :=
  match xs with
  | [] => st_ret tt
  | x :: xs' => do* body x in st_for xs' body
  end.

(** [enumerate(xs)], counting from [i]. *)
Fixpoint enumerate_from {A} (i : nat) (xs : list A) : list (nat * A) :=
  match xs with
  | [] => []
  | x :: xs' => (i, x) :: enumerate_from (S i) xs'
  end.
Definition enumerate {A} (xs : list A) : list (nat * A) := enumerate_from 0 xs.

(** [d[key]] on a decoded JSON value. *)
Fixpoint assoc_get {A} (key : string) (fields : list (string * A)) : option A :=
  match fields with
  | [] => None
  | (k, v) :: rest => if String.eqb k key then Some v else assoc_get key rest
  end.

Definition getitem (d : json) (key : string) : result json :=
  match d with
  | JObj fields =>
      match assoc_get key fields with
      | Some v => Ok v
      | None => Raise (KeyError (JStr key))
      end
  | _ => Raise TypeError
  end.

(** [d.get(key, dflt)] *)
Definition get_default (d : json) (key : string) (dflt : json) : result json :=
  match d with
  | JObj fields =>
      match assoc_get key fields with
      | Some v => Ok v
      | None => Ok dflt
      end
  | _ => Raise AttributeError
  end.

(** [d.get(key)] *)
Definition get (d : json) (key : string) : result json := get_default d key JNull.

Definition as_num (v : json) : result Q :=
  match v with
  | JNum q => Ok q
  | _ => Raise TypeError
  end.

(** Python's truth value of a decoded JSON value. *)
Definition truthy (v : json) : bool :=
  match v with
  | JNull => false
  | JBool b => b
  | JNum q => negb (Qeq_bool q 0)
  | JStr s => negb (String.eqb s "")
  | JArr items => match items with [] => false | _ => true end
  | JObj fields => match fields with [] => false | _ => true end
  end.

(** [x / y] on floats. *)
Definition py_div (x y : Q) : result Q :=
  if Qeq_bool y 0 then Raise ZeroDivisionError else Ok (x / y)%Q.

(** ** The geometry library

    [shapely] is not part of the repository; the consensus code uses it
    through the operations below.  Three of them can raise inside the
    library: [Polygon] refuses a ring of one or two points, and
    [intersection] and [union] fail on some invalid polygons. *)

Class Shapely : Type := {
  geom : Type;
  box : Q -> Q -> Q -> Q -> geom;          (* box(minx, miny, maxx, maxy) *)
  Polygon : list (Q * Q) -> result geom;
  Point : Q -> Q -> geom;
  geom_type : geom -> string;               (* .type *)
  is_valid : geom -> bool;                  (* .is_valid *)
  geom_area : geom -> Q;                    (* .area *)
  distance : geom -> geom -> Q;             (* .distance(other) *)
  geom_intersection : geom -> geom -> result geom; (* .intersection(other) *)
  geom_union : geom -> geom -> result geom         (* .union(other) *)
}.

(** What the properties below use of the library's geometry: a valid
    polygon meets and joins itself in a region of its own area, and a point
    is at distance zero from itself. *)
Class ShapelyLaws (Sh : Shapely) : Prop := {
  area_intersection_self : forall a : geom,
    geom_type a = "Polygon" -> is_valid a = true ->
    exists i, geom_intersection a a = Ok i /\ (geom_area i == geom_area a)%Q;
  area_union_self : forall a : geom,
    geom_type a = "Polygon" -> is_valid a = true ->
    exists u, geom_union a a = Ok u /\ (geom_area u == geom_area a)%Q;
  distance_self : forall p : geom,
    geom_type p = "Point" -> (distance p p == 0)%Q
}.

(** ** Data of the matcher

    [G] is the type of the library's geometries. *)

(** One row of the table passed to [image_consensus]: the columns the
    function reads. *)
Record df_row : Type := {
  df_imageName : string;
  df_folderName : option string;
  df_meta : json;
  df_className : string;
  df_creatorEmail : json;
  df_attributes : json
}.

(** The tuple [(inst, row["className"], row["creatorEmail"], row["attributes"])]. *)
Record inst_data (G : Type) : Type := {
  inst : G;
  inst_class : string;
  inst_creator : json;
  inst_attributes : json
}.
Arguments inst {G} _.
Arguments inst_class {G} _.
Arguments inst_creator {G} _.
Arguments inst_attributes {G} _.

(** An entry of [max_instances]: [(proj, *inst_data)]. *)
Definition match_data (G : Type) : Type := option string * inst_data G.

(** One row of [image_data]; the source keeps one list per column and
    appends to all of them together. *)
Record result_row : Type := {
  creatorEmail : json;
  imageName : string;
  instanceId : nat;
  area : Q;
  className : string;
  attributes : json;
  folderName : option string;
  score : Q
}.

(** [projects_shaply_objs]: a dict in insertion order. *)
Definition projects (G : Type) : Type :=
  list (option string * list (inst_data G)).

(** The mutable locals of the matching loop.  [scorer_calls] and [groups]
    are history only: every invocation of [instance_consensus] with the
    instance tuples its arguments were taken from, and every
    [max_instances] list once complete.  No branch reads them. *)
Record state (G : Type) : Type := {
  visited_instances : gmap (option string) (list bool);
  instance_id : nat;
  image_data : list result_row;
  scorer_calls : list (inst_data G * inst_data G);
  groups : list (list (match_data G))
}.
Arguments visited_instances {G} _.
Arguments instance_id {G} _.
Arguments image_data {G} _.
Arguments scorer_calls {G} _.
Arguments groups {G} _.

Section Consensus.
Context {Sh : Shapely}.
Local Abbreviation inst_data := (inst_data geom) (only parsing).
Local Abbreviation match_data := (match_data geom) (only parsing).
Local Abbreviation projects := (projects geom) (only parsing).
Local Abbreviation state := (state geom) (only parsing).

(** [instance_consensus(inst_1, inst_2)] *)
Definition instance_consensus (inst_1 inst_2 : geom) : result Q :=
  if String.eqb (geom_type inst_1) (geom_type inst_2)
     && String.eqb (geom_type inst_2) "Polygon" then
    let! intersect := geom_intersection inst_1 inst_2 in
    let! union := geom_union inst_1 inst_2 in
    py_div (geom_area intersect) (geom_area union)
  else if String.eqb (geom_type inst_1) (geom_type inst_2)
          && String.eqb (geom_type inst_2) "Point" then
    Ok (-1 * distance inst_1 inst_2)%Q
  else Raise NotImplementedError.

(** [shapely_format]: consecutive pairs of [inst_coords], a trailing odd
    element dropped. *)
Fixpoint shapely_format {A} (inst_coords : list A) : list (A * A) :=
  match inst_coords with
  | x :: y :: rest => (x, y) :: shapely_format rest
  | _ => []
  end.

(** The coordinate pairs as numbers, as [Polygon(...)] takes them. *)
Fixpoint as_points (pairs : list (json * json)) : result (list (Q * Q)) :=
  match pairs with
  | [] => Ok []
  | (x, y) :: rest =>
      let! qx := as_num x in
      let! qy := as_num y in
      let! qs := as_points rest in
      Ok ((qx, qy) :: qs)
  end.

(** The geometry built from [row["meta"]]; with an [annot_type] other than
    the three below [inst] is never bound. *)
Definition make_inst (annot_type : string) (data : json) : result geom :=
  if String.eqb annot_type "bbox" then
    let! inst_coords := getitem data "points" in
    let! x1 := result_bind (getitem inst_coords "x1") as_num in
    let! x2 := result_bind (getitem inst_coords "x2") as_num in
    let! y1 := result_bind (getitem inst_coords "y1") as_num in
    let! y2 := result_bind (getitem inst_coords "y2") as_num in
    Ok (box (Qmin x1 x2) (Qmin y1 y2) (Qmax x1 x2) (Qmax y1 y2))
  else if String.eqb annot_type "polygon" then
    let! inst_coords := getitem data "points" in
    match inst_coords with
    | JArr items =>
        let! coords := as_points (shapely_format items) in
        Polygon coords
    | _ => Raise TypeError
    end
  else if String.eqb annot_type "point" then
    let! x := result_bind (getitem data "x") as_num in
    let! y := result_bind (getitem data "y") as_num in
    Ok (Point x y)
  else Raise UnboundLocalError.

Definition dict_mem {V} (k : option string) (d : list (option string * V)) : bool :=
  existsb (fun kv => bool_decide (fst kv = k)) d.

Definition dict_append (k : option string) (v : inst_data) (d : projects) : projects :=
  map (fun kv => if bool_decide (fst kv = k) then (fst kv, snd kv ++ [v]) else kv) d.

Fixpoint generate_shapely_objs (annot_type : string) (image_df : list df_row)
    (projects_shaply_objs : projects) : result projects :=
  match image_df with
  | [] => Ok projects_shaply_objs
  | row :: rest =>
      let objs :=
        if dict_mem (df_folderName row) projects_shaply_objs
        then projects_shaply_objs
        else projects_shaply_objs ++ [(df_folderName row, [])] in
      let! inst := make_inst annot_type (df_meta row) in
      generate_shapely_objs annot_type rest
        (if is_valid inst
         then dict_append (df_folderName row)
                {| inst := inst; inst_class := df_className row;
                   inst_creator := df_creatorEmail row;
                   inst_attributes := df_attributes row |} objs
         else objs)
  end.

Definition folder_key (proj : option string) : json :=
  match proj with Some name => JStr name | None => JNull end.

(** [visited_instances[proj][id] == True] *)
Definition visited (proj : option string) (id : nat) : M state bool :=
  fun s =>
    match visited_instances s !! proj with
    | None => Raise (KeyError (folder_key proj))
    | Some flags =>
        match flags !! id with
        | None => Raise IndexError
        | Some b => Ok (b, s)
        end
    end.

(** [visited_instances[proj][id] = True] *)
Definition mark_visited (proj : option string) (id : nat) : M state unit :=
  fun s =>
    match visited_instances s !! proj with
    | None => Raise (KeyError (folder_key proj))
    | Some flags =>
        if decide (id < length flags)%nat then
          Ok (tt, {| visited_instances := <[proj := <[id := true]> flags]> (visited_instances s);
                     instance_id := instance_id s;
                     image_data := image_data s;
                     scorer_calls := scorer_calls s;
                     groups := groups s |})
        else Raise IndexError
    end.

(** A call [instance_consensus(a[0], b[0])] from the matcher. *)
Definition call_scorer (a b : inst_data) : M state Q :=
  fun s =>
    let s' := {| visited_instances := visited_instances s;
                 instance_id := instance_id s;
                 image_data := image_data s;
                 scorer_calls := scorer_calls s ++ [(a, b)];
                 groups := groups s |} in
    match instance_consensus (inst a) (inst b) with
    | Ok q => Ok (q, s')
    | Raise e => Raise e
    end.

(** [max_score]: a float, possibly [float("-inf")]. *)
Inductive bound : Type := NegInf | Fin (q : Q).

Definition Qlt_bool (x y : Q) : bool := negb (Qle_bool y x).

(** [score > max_score] *)
Definition exceeds (score : Q) (max_score : bound) : bool :=
  match max_score with
  | NegInf => true
  | Fin q => Qlt_bool q score
  end.

(** The loop over [enumerate(other_proj_instances)].  [max_inst_id] and
    [max_inst_data] are assigned together; [best] is the pair, [None] while
    [max_inst_data is None]. *)
Fixpoint search (curr_inst_data : inst_data) (other_proj : option string)
    (candidates : list (nat * inst_data))
    (max_score : bound) (best : option (nat * inst_data))
  : M state (option (nat * inst_data)) :=
  match candidates with
  | [] => st_ret best
  | (other_id, other_inst_data) :: rest =>
      let* v := visited other_proj other_id in
      if v then search curr_inst_data other_proj rest max_score best
      else
        let* score := call_scorer curr_inst_data other_inst_data in
        if exceeds score max_score
           && String.eqb (inst_class other_inst_data) (inst_class curr_inst_data)
        then search curr_inst_data other_proj rest (Fin score)
                    (Some (other_id, other_inst_data))
        else search curr_inst_data other_proj rest max_score best
  end.

(** The loop over [projects_shaply_objs.items()] that fills [max_instances]. *)
Fixpoint find_matches (annot_type : string) (curr_proj : option string)
    (curr_id : nat) (curr_inst_data : inst_data)
    (others : projects) (max_instances : list match_data)
  : M state (list match_data) :=
  match others with
  | [] => st_ret max_instances
  | (other_proj, other_proj_instances) :: rest =>
      if bool_decide (curr_proj = other_proj) then
        do* mark_visited curr_proj curr_id in
        find_matches annot_type curr_proj curr_id curr_inst_data rest
          (max_instances ++ [(curr_proj, curr_inst_data)])
      else
        let max_score :=
          if String.eqb annot_type "polygon" || String.eqb annot_type "bbox"
          then Fin 0 else NegInf in
        let* best := search curr_inst_data other_proj (enumerate other_proj_instances)
                  max_score None in
        match best with
        | Some (max_inst_id, max_inst_data) =>
            do* mark_visited other_proj max_inst_id in
            find_matches annot_type curr_proj curr_id curr_inst_data rest
              (max_instances ++ [(other_proj, max_inst_data)])
        | None =>
            find_matches annot_type curr_proj curr_id curr_inst_data rest
              max_instances
        end
  end.

Definition append_row (r : result_row) : M state unit :=
  st_modify (fun s =>
    {| visited_instances := visited_instances s;
       instance_id := instance_id s;
       image_data := image_data s ++ [r];
       scorer_calls := scorer_calls s;
       groups := groups s |}).

Definition record_group (max_instances : list match_data) : M state unit :=
  st_modify (fun s =>
    {| visited_instances := visited_instances s;
       instance_id := instance_id s;
       image_data := image_data s;
       scorer_calls := scorer_calls s;
       groups := groups s ++ [max_instances] |}).

Definition next_instance_id : M state unit :=
  st_modify (fun s =>
    {| visited_instances := visited_instances s;
       instance_id := S (instance_id s);
       image_data := image_data s;
       scorer_calls := scorer_calls s;
       groups := groups s |}).

(** The inner loop of the scoring branch: [proj_cons] summed over the
    entries of [max_instances] from another folder. *)
Fixpoint sum_proj_cons (curr_match_data : match_data)
    (max_instances : list match_data) (proj_cons : Q) : M state Q :=
  match max_instances with
  | [] => st_ret proj_cons
  | other_match_data :: rest =>
      if bool_decide (fst curr_match_data <> fst other_match_data) then
        let* score := call_scorer (snd curr_match_data) (snd other_match_data) in
        sum_proj_cons curr_match_data rest
          (proj_cons + (if Qle_bool score 0 then 1 else score))%Q
      else sum_proj_cons curr_match_data rest proj_cons
  end.

Definition make_row (image_name : string) (id : nat) (m : match_data) (sc : Q)
  : result_row :=
  {| creatorEmail := inst_creator (snd m);
     imageName := image_name;
     instanceId := id;
     area := geom_area (inst (snd m));
     className := inst_class (snd m);
     attributes := inst_attributes (snd m);
     folderName := fst m;
     score := sc |}.

(** The body of the loop over [max_instances] in the scoring branch. *)
Definition score_match (all_projects : list (option string))
    (image_name : string) (max_instances : list match_data)
    (curr_match_data : match_data) : M state unit :=
  let* proj_cons := sum_proj_cons curr_match_data max_instances 0 in
  let* s := st_get in
  let* sc := st_lift (py_div proj_cons
                        (inject_Z (Z.of_nat (length all_projects) - 1))) in
  append_row (make_row image_name (instance_id s) curr_match_data sc).

(** The [if len(max_instances) == 1: ... else: ...] that appends the rows
    of one group. *)
Definition score_matches (all_projects : list (option string))
    (image_name : string) (max_instances : list match_data) : M state unit :=
  match max_instances with
  | [only] =>
      let* s := st_get in
      append_row (make_row image_name (instance_id s) only 0)
  | _ =>
      st_for max_instances (score_match all_projects image_name max_instances)
  end.

(** The body of the loop over [enumerate(curr_proj_instances)]. *)
Definition match_instance (annot_type : string)
    (all_projects : list (option string)) (image_name : string)
    (projects_shaply_objs : projects) (curr_proj : option string)
    (curr : nat * inst_data) : M state unit :=
  let* v := visited curr_proj (fst curr) in
  if v then st_ret tt
  else
    let* max_instances := find_matches annot_type curr_proj (fst curr) (snd curr)
                       projects_shaply_objs [] in
    do* record_group max_instances in
    do* score_matches all_projects image_name max_instances in
    next_instance_id.

Definition match_instances (annot_type : string)
    (all_projects : list (option string)) (image_name : string)
    (projects_shaply_objs : projects) : M state unit :=
  st_for projects_shaply_objs (fun curr =>
    st_for (enumerate (snd curr))
      (match_instance annot_type all_projects image_name
         projects_shaply_objs (fst curr))).

Definition initial_state (projects_shaply_objs : projects) : state :=
  {| visited_instances :=
       list_to_map
         (map (fun kv => (fst kv, replicate (length (snd kv)) false))
              projects_shaply_objs);
     instance_id := 0;
     image_data := [];
     scorer_calls := [];
     groups := [] |}.

(** [image_consensus(df, image_name, annot_type)], with the final state of
    its locals. *)
Definition image_consensus_run (df : list df_row) (image_name annot_type : string)
  : result state :=
  let image_df := filter (fun row => df_imageName row = image_name) df in
  let all_projects := remove_dups (map df_folderName df) in
  let! projects_shaply_objs := generate_shapely_objs annot_type image_df [] in
  let! out := match_instances annot_type all_projects image_name projects_shaply_objs
           (initial_state projects_shaply_objs) in
  Ok (snd out).

Definition image_consensus (df : list df_row) (image_name annot_type : string)
  : result (list result_row) :=
  let! s := image_consensus_run df image_name annot_type in
  Ok (image_data s).

End Consensus.

(** ** A reference geometry: axis-aligned boxes and points

    Enough of the geometry library to run the consensus code on [bbox] and
    [point] annotations: boxes meet in a box, the union of two boxes is a
    region known by its area, and the distance of two points is Euclidean,
    truncated to six decimals.  [Polygon] outlines are outside this
    fragment: a ring of one or two points is refused, as the library
    does, and any other outline comes out invalid. *)

Inductive planar : Type :=
| PBox (minx miny maxx maxy : Q)
| PPoint (x y : Q)
| PRegion (a : Q)
| PEmpty
| POutline (coords : list (Q * Q)).

Definition planar_type (g : planar) : string :=
  match g with
  | PBox _ _ _ _ => "Polygon"
  | PPoint _ _ => "Point"
  | PRegion _ => "MultiPolygon"
  | PEmpty => "GeometryCollection"
  | POutline _ => "Polygon"
  end.

Definition planar_valid (g : planar) : bool :=
  match g with
  | PBox minx miny maxx maxy => Qlt_bool minx maxx && Qlt_bool miny maxy
  | POutline _ => false
  | _ => true
  end.

Definition planar_area (g : planar) : Q :=
  match g with
  | PBox minx miny maxx maxy => (maxx - minx) * (maxy - miny)
  | PRegion a => a
  | _ => 0
  end.

Definition planar_intersection (a b : planar) : planar :=
  match a, b with
  | PBox ax0 ay0 ax1 ay1, PBox bx0 by0 bx1 by1 =>
      let x0 := Qmax ax0 bx0 in
      let y0 := Qmax ay0 by0 in
      let x1 := Qmin ax1 bx1 in
      let y1 := Qmin ay1 by1 in
      if Qle_bool x0 x1 && Qle_bool y0 y1 then PBox x0 y0 x1 y1 else PEmpty
  | _, _ => PEmpty
  end.

Definition planar_union (a b : planar) : planar :=
  PRegion (planar_area a + planar_area b - planar_area (planar_intersection a b)).

Definition Qsqrt6 (q : Q) : Q :=
  Z.sqrt (Qfloor (q * 1000000000000)) # 1000000.

Definition planar_distance (a b : planar) : Q :=
  match a, b with
  | PPoint ax ay, PPoint bx by_ =>
      Qsqrt6 ((ax - bx) * (ax - bx) + (ay - by_) * (ay - by_))
  | _, _ => 0
  end.

#[export] Instance planar_shapely : Shapely := {|
  geom := planar;
  box := PBox;
  Polygon := fun coords =>
    match coords with
    | [_] | [_; _] => Raise ValueError
    | _ => Ok (POutline coords)
    end;
  Point := PPoint;
  geom_type := planar_type;
  is_valid := planar_valid;
  geom_area := planar_area;
  distance := planar_distance;
  geom_intersection := fun a b => Ok (planar_intersection a b);
  geom_union := fun a b => Ok (planar_union a b)
|}.

(** ** Strings and paths *)

(** [sub in s] *)
Fixpoint contains (sub s : string) : bool :=
  String.prefix sub s
  || match s with
     | EmptyString => false
     | String _ s' => contains sub s'
     end.

(** [s.endswith(suffix)] *)
Definition ends_with (suffix s : string) : bool :=
  (String.length suffix <=? String.length s)%nat
  && String.eqb
       (String.substring (String.length s - String.length suffix)
          (String.length suffix) s)
       suffix.

(** [s.split(sep)] for a non-empty [sep]: [cur] is the part being read and
    [skip] counts the characters of a separator still to pass over. *)
Fixpoint split_from (sep s : string) (skip : nat) (cur : string) : list string :=
  match s with
  | EmptyString => [cur]
  | String c s' =>
      match skip with
      | S k => split_from sep s' k cur
      | O =>
          if String.prefix sep s
          then cur :: split_from sep s' (String.length sep - 1) ""
          else split_from sep s' 0 (cur ++ String c "")
      end
  end.
Definition split (sep s : string) : list string := split_from sep s 0 "".

(** The export directory.  [classes/classes.json] is kept apart (its name
    matches neither annotation suffix, so the walk never uses it); every
    other file holds decoded JSON.  [elsewhere] is what surrounds the
    export: the directory that a folder name leads to when the name is
    absolute or climbs above the root, given by the parts of its path and
    its listing, [None] when the name leads to no directory. *)
Inductive entry : Type :=
| File (name : string) (content : json)
| Dir (name : string) (children : list entry).

Definition entry_name (e : entry) : string :=
  match e with File name _ => name | Dir name _ => name end.

Record attribute_group : Type := {
  group_name : string;
  group_attributes : list string
}.

Record annotation_class : Type := {
  class_name : string;
  class_color : string;
  class_attribute_groups : list attribute_group
}.

Record export_root : Type := {
  root_path : string;
  classes_file : option (list annotation_class);   (* None: not a file *)
  entries : list entry;
  elsewhere : string -> option (list string * list entry)
}.

(** A path below the root: the directories from the root down to the
    parent, and the entry itself. *)
Record path : Type := {
  parent : list string;
  target : entry
}.

(** The children of the directory at [here] whose name ends in [suffix]. *)
Definition matching (suffix : string) (here : list string) (children : list entry)
  : list path :=
  map (fun e => {| parent := here; target := e |})
      (List.filter (fun e => ends_with suffix (entry_name e)) children).

(** [dir.rglob(pattern)] for a pattern [*suffix]: the matching children of
    the directory, then the matches below each subdirectory.  [rglob_below]
    is the walk below one entry of the directory at [here]. *)
Fixpoint rglob_below (suffix : string) (here : list string) (e : entry)
  : list path :=
  match e with
  | File _ _ => []
  | Dir name sub =>
      matching suffix (here ++ [name]) sub
      ++ (fix below (es : list entry) : list path :=
            match es with
            | [] => []
            | e' :: rest => rglob_below suffix (here ++ [name]) e' ++ below rest
            end) sub
  end.

Definition rglob (suffix : string) (here : list string) (children : list entry)
  : list path :=
  matching suffix here children
  ++ flat_map (rglob_below suffix here) children.

(** [entry.suffix == ".json"] *)
Definition suffix_is_json (name : string) : bool :=
  ends_with ".json" name && (5 <? String.length name)%nat.

Definition find_dir (name : string) (es : list entry) : option (list entry) :=
  match List.filter (fun e => match e with
                              | Dir n _ => String.eqb n name
                              | File _ _ => false
                              end) es with
  | Dir _ sub :: _ => Some sub
  | _ => None
  end.

(** ** Aggregation of an export into a table *)

Definition base_columns : list string :=
  [ "imageName"; "imageHeight"; "imageWidth"; "imageStatus"; "imagePinned";
    "instanceId"; "className"; "attributeGroupName"; "attributeName"; "type";
    "error"; "locked"; "visible"; "trackingId"; "probability"; "pointLabels";
    "meta"; "classColor"; "groupId"; "createdAt"; "creatorRole";
    "creationType"; "creatorEmail"; "updatedAt"; "updatorRole";
    "updatorEmail"; "folderName"; "imageAnnotator"; "imageQA" ].

(** The keys of [annotation_data]. *)
Definition columns (include_comments include_tags : bool) : list string :=
  base_columns
  ++ (if include_comments then ["commentResolved"] else [])
  ++ (if include_tags then ["tag"] else []).

(** One row of the table: a value for every column. *)
Definition table_row (cols : list string) (annotation_dict : gmap string json)
  : gmap string json :=
  list_to_map (map (fun key => (key, default JNull (annotation_dict !! key))) cols).

(** The cell of a row under a column. *)
Definition cell (key : string) (row : gmap string json) : json :=
  default JNull (row !! key).

(** A [logger.warning(fmt, arg)] call. *)
Record warning : Type := { warning_fmt : string; warning_arg : json }.

(** [annotation_data] (row by row), the warnings logged so far, and the
    counter [annotation_instance_id] of the file being read. *)
Record agg_state : Type := {
  annotation_data : list (gmap string json);
  warnings : list warning;
  annotation_instance_id : nat
}.

Definition warn (fmt : string) (arg : json) : M agg_state unit :=
  st_modify (fun s =>
    {| annotation_data := annotation_data s;
       warnings := warnings s ++ [{| warning_fmt := fmt; warning_arg := arg |}];
       annotation_instance_id := annotation_instance_id s |}).

(** The value of [annotation_instance_id]. *)
Definition read_instance_id : M agg_state nat :=
  fun s => Ok (annotation_instance_id s, s).

Definition set_instance_id (n : nat) : M agg_state unit :=
  st_modify (fun s =>
    {| annotation_data := annotation_data s;
       warnings := warnings s;
       annotation_instance_id := n |}).

(** [key in d] and [d[key]] for a dict with string keys: a list or an
    object is unhashable, any other non-string is not a key. *)
Definition dict_lookup {V} (key : json) (d : gmap string V) : result (option V) :=
  match key with
  | JStr s => Ok (d !! s)
  | JArr _ | JObj _ => Raise TypeError
  | _ => Ok None
  end.

(** [value in names] for a list of strings. *)
Definition list_mem (value : json) (names : list string) : bool :=
  match value with
  | JStr s => existsb (String.eqb s) names
  | _ => false
  end.

(** [for x in value] over a decoded JSON array. *)
Definition as_list (value : json) : result (list json) :=
  match value with
  | JArr items => Ok items
  | _ => Raise TypeError
  end.

(** The geometry payload of an instance, by the [if]/[elif] chain on its
    type; [None] for any other type. *)
Definition make_meta (annotation_type annotation : json) : result json :=
  if list_mem annotation_type ["bbox"; "polygon"; "polyline"; "cuboid"] then
    let! points := getitem annotation "points" in
    Ok (JObj [("points", points)])
  else if list_mem annotation_type ["point"] then
    let! x := getitem annotation "x" in
    let! y := getitem annotation "y" in
    Ok (JObj [("x", x); ("y", y)])
  else if list_mem annotation_type ["ellipse"] then
    let! cx := getitem annotation "cx" in
    let! cy := getitem annotation "cy" in
    let! rx := getitem annotation "rx" in
    let! ry := getitem annotation "ry" in
    let! angle := getitem annotation "angle" in
    Ok (JObj [("cx", cx); ("cy", cy); ("rx", rx); ("ry", ry); ("angle", angle)])
  else if list_mem annotation_type ["mask"] then
    let! parts := getitem annotation "parts" in
    Ok (JObj [("parts", parts)])
  else if list_mem annotation_type ["template"] then
    let! connections := getitem annotation "connections" in
    let! points := getitem annotation "points" in
    Ok (JObj [("connections", connections); ("points", points)])
  else Ok JNull.

(** [__get_image_metadata(image_name, annotations)] *)
Definition get_image_metadata (image_name : string) (annotations : json)
  : result (gmap string json) :=
  let! metadata := getitem annotations "metadata" in
  let! height := get metadata "height" in
  let! width := get metadata "width" in
  let! status := get metadata "status" in
  let! pinned := get metadata "pinned" in
  let! annotator := get metadata "annotatorEmail" in
  let! qa := get metadata "qaEmail" in
  Ok (list_to_map
        [ ("imageName", JStr image_name); ("imageHeight", height);
          ("imageWidth", width); ("imageStatus", status);
          ("imagePinned", pinned); ("imageAnnotator", annotator);
          ("imageQA", qa) ]).

(** [.get("email")] and [.get("role")] of an actor block, [None] for both
    when the block is falsy. *)
Definition actor (block : json) : result (json * json) :=
  if truthy block then
    let! email := get block "email" in
    let! role := get block "role" in
    Ok (email, role)
  else Ok (JNull, JNull).

(** [__get_user_metadata(annotation)].  The two timestamps are kept as
    they are read: what [pd.to_datetime] makes of them, and the error it
    raises on a value it cannot parse, are left to the library. *)
Definition get_user_metadata (annotation : json) : result (gmap string json) :=
  let! annotation_created_at := get annotation "createdAt" in
  let! annotation_created_by := get annotation "createdBy" in
  let! creator := actor annotation_created_by in
  let! annotation_creation_type := get annotation "creationType" in
  let! annotation_updated_at := get annotation "updatedAt" in
  let! annotation_updated_by := get annotation "updatedBy" in
  let! updator := actor annotation_updated_by in
  Ok (list_to_map
        [ ("createdAt", annotation_created_at); ("creatorRole", snd creator);
          ("creatorEmail", fst creator);
          ("creationType", annotation_creation_type);
          ("updatedAt", annotation_updated_at); ("updatorRole", snd updator);
          ("updatorEmail", fst updator) ]).

(** [folder_name]: [None] for a file whose parent is the root, else the
    name of the parent directory. *)
Definition folder_name_of (annotation_path : path) : json :=
  match last (parent annotation_path) with
  | None => JNull
  | Some name => JStr name
  end.

Section Aggregate.

(** The locals of [aggregate_image_annotations_as_df] that its nested
    helpers and loop bodies read. *)
Variable cols : list string.
Variable class_name_to_color : gmap string string.
Variable class_group_name_to_values : gmap string (gmap string (list string)).

(** [__append_annotation(annotation_dict)] *)
Definition append_annotation (annotation_dict : gmap string json) : M agg_state unit :=
  st_modify (fun s =>
    {| annotation_data := annotation_data s ++ [table_row cols annotation_dict];
       warnings := warnings s;
       annotation_instance_id := annotation_instance_id s |}).

(** The loop over [annotation_json["comments"]]. *)
Definition add_comment (image_metadata : gmap string json) (annotation : json)
  : M agg_state unit :=
  let* comment_resolved := st_lift (getitem annotation "resolved") in
  let* x := st_lift (getitem annotation "x") in
  let* y := st_lift (getitem annotation "y") in
  let* correspondence := st_lift (getitem annotation "correspondence") in
  let comment_meta := JObj [("x", x); ("y", y); ("comments", correspondence)] in
  let annotation_dict : gmap string json :=
    list_to_map [ ("type", JStr "comment"); ("meta", comment_meta);
                  ("commentResolved", comment_resolved) ] in
  let* user_metadata := st_lift (get_user_metadata annotation) in
  append_annotation (image_metadata ∪ (user_metadata ∪ annotation_dict)).

(** The loop over [annotation_json["tags"]]. *)
Definition add_tag (image_metadata : gmap string json) (annotation : json)
  : M agg_state unit :=
  let annotation_dict : gmap string json :=
    list_to_map [("type", JStr "tag"); ("tag", annotation)] in
  append_annotation (image_metadata ∪ annotation_dict).

(** The fields every row of one instance shares. *)
Record instance_fields : Type := {
  f_image_name : string;
  f_instance_id : nat;
  f_class_name : string;
  f_type : json;
  f_locked : json;
  f_visible : json;
  f_tracking_id : json;
  f_meta : json;
  f_error : json;
  f_probability : json;
  f_point_labels : json;
  f_class_color : string;
  f_group_id : json;
  f_folder_name : json
}.

(** The [annotation_dict] literal of an instance row without attribute. *)
Definition instance_dict (f : instance_fields) : gmap string json :=
  list_to_map
    [ ("imageName", JStr (f_image_name f));
      ("instanceId", JNum (inject_Z (Z.of_nat (f_instance_id f))));
      ("className", JStr (f_class_name f)); ("type", f_type f);
      ("locked", f_locked f); ("visible", f_visible f);
      ("trackingId", f_tracking_id f); ("meta", f_meta f);
      ("error", f_error f); ("probability", f_probability f);
      ("pointLabels", f_point_labels f);
      ("classColor", JStr (f_class_color f)); ("groupId", f_group_id f);
      ("folderName", f_folder_name f) ].

(** The [annotation_dict] literal of an instance row for one attribute. *)
Definition attribute_dict (f : instance_fields) (attribute_group attribute_name : json)
  : gmap string json :=
  <["attributeGroupName" := attribute_group]>
    (<["attributeName" := attribute_name]> (instance_dict f)).

(** The loop over [attributes]; the value is [num_added]. *)
Fixpoint add_attributes (f : instance_fields)
    (user_metadata image_metadata : gmap string json)
    (attributes : list json) (num_added : nat) : M agg_state nat :=
  match attributes with
  | [] => st_ret num_added
  | attribute :: rest =>
      let* attribute_group := st_lift (get attribute "groupName") in
      let* attribute_name := st_lift (get attribute "name") in
      let* groups_of_class :=
        st_lift (match class_group_name_to_values !! f_class_name f with
                 | Some groups_of_class => Ok groups_of_class
                 | None => Raise (KeyError (JStr (f_class_name f)))
                 end) in
      let* values := st_lift (dict_lookup attribute_group groups_of_class) in
      match values with
      | None =>
          do* warn "Annotation class group %s not in classes json. Skipping."
                attribute_group in
          add_attributes f user_metadata image_metadata rest num_added
      | Some names =>
          if list_mem attribute_name names then
            do* append_annotation
                  (image_metadata
                   ∪ (user_metadata
                      ∪ attribute_dict f attribute_group attribute_name)) in
            add_attributes f user_metadata image_metadata rest (S num_added)
          else
            do* warn "Annotation class group value %s not in classes json. Skipping."
                  attribute_name in
            add_attributes f user_metadata image_metadata rest num_added
      end
  end.

(** The body of the loop over [annotation_json["instances"]]. *)
Definition add_instance (image_name : string) (image_metadata : gmap string json)
    (annotation_path : path) (annotation : json) : M agg_state unit :=
  let* annotation_type := st_lift (get_default annotation "type" (JStr "mask")) in
  let* annotation_class_name := st_lift (get annotation "className") in
  let* found := st_lift (dict_lookup annotation_class_name class_name_to_color) in
  match annotation_class_name, found with
  | JStr name, Some annotation_class_color =>
      let* annotation_group_id := st_lift (get annotation "groupId") in
      let* annotation_locked := st_lift (get annotation "locked") in
      let* annotation_visible := st_lift (get annotation "visible") in
      let* annotation_tracking_id := st_lift (get annotation "trackingId") in
      let* annotation_meta := st_lift (make_meta annotation_type annotation) in
      let* annotation_error := st_lift (get annotation "error") in
      let* annotation_probability := st_lift (get annotation "probability") in
      let* annotation_point_labels := st_lift (get annotation "pointLabels") in
      let* attributes := st_lift (get annotation "attributes") in
      let* user_metadata := st_lift (get_user_metadata annotation) in
      let* current_id := read_instance_id in
      let f :=
        {| f_image_name := image_name;
           f_instance_id := current_id;
           f_class_name := name;
           f_type := annotation_type;
           f_locked := annotation_locked;
           f_visible := annotation_visible;
           f_tracking_id := annotation_tracking_id;
           f_meta := annotation_meta;
           f_error := annotation_error;
           f_probability := annotation_probability;
           f_point_labels := annotation_point_labels;
           f_class_color := annotation_class_color;
           f_group_id := annotation_group_id;
           f_folder_name := folder_name_of annotation_path |} in
      let* num_added :=
        (if truthy attributes then
           let* items := st_lift (as_list attributes) in
           add_attributes f user_metadata image_metadata items 0
         else
           do* append_annotation
                 (image_metadata ∪ (user_metadata ∪ instance_dict f)) in
           st_ret 1%nat) in
      if (0 <? num_added)%nat
      then set_instance_id (S current_id)
      else st_ret tt
  | _, _ =>
      warn "Annotation class %s not found in classes json. Skipping."
        annotation_class_name
  end.

(** The body of the loop over [annotations_paths]. *)
Definition add_file (type_postfix : string) (include_comments include_tags : bool)
    (annotation_path : path) : M agg_state unit :=
  match target annotation_path with
  | Dir _ _ => st_lift (Raise IsADirectoryError)
  | File name annotation_json =>
      match split type_postfix name with
      | [image_name; _] =>
          let* image_metadata :=
            st_lift (get_image_metadata image_name annotation_json) in
          do* set_instance_id 0 in
          do* (if include_comments then
                 let* comments := st_lift (result_bind (getitem annotation_json "comments") as_list) in
                 st_for comments (add_comment image_metadata)
               else st_ret tt) in
          do* (if include_tags then
                 let* tags := st_lift (result_bind (getitem annotation_json "tags") as_list) in
                 st_for tags (add_tag image_metadata)
               else st_ret tt) in
          let* instances := st_lift (result_bind (getitem annotation_json "instances") as_list) in
          st_for instances (add_instance image_name image_metadata annotation_path)
      | _ => st_ret tt
      end
  end.

(** The rows added for one class when classes without annotations are
    included; [df] is the table as it stood after the walk. *)
Definition add_class_wo_annotations (df : list (gmap string json))
    (class_meta : annotation_class) : M agg_state unit :=
  let annotation_class_name := class_name class_meta in
  let annotation_class_color := class_color class_meta in
  let of_class (row : gmap string json) : bool :=
    list_mem (cell "className" row) [annotation_class_name] in
  if negb (existsb of_class df) then
    append_annotation
      (list_to_map [ ("className", JStr annotation_class_name);
                     ("classColor", JStr annotation_class_color) ])
  else
    let class_df := List.filter of_class df in
    st_for (class_attribute_groups class_meta) (fun attribute_group =>
      let attribute_group_name := group_name attribute_group in
      let attribute_group_df :=
        List.filter (fun row => list_mem (cell "attributeGroupName" row)
                                  [attribute_group_name]) class_df in
      st_for (group_attributes attribute_group) (fun attribute_name =>
        if negb (existsb (fun row => list_mem (cell "attributeName" row)
                                       [attribute_name]) attribute_group_df)
        then
          append_annotation
            (list_to_map [ ("className", JStr annotation_class_name);
                           ("classColor", JStr annotation_class_color);
                           ("attributeGroupName", JStr attribute_group_name);
                           ("attributeName", JStr attribute_name) ])
        else st_ret tt)).

End Aggregate.

(** [class_name_to_color], as the loop over [classes_json] fills it. *)
Definition build_class_name_to_color (classes_json : list annotation_class)
  : gmap string string :=
  fold_left (fun m c => <[class_name c := class_color c]> m) classes_json ∅.

(** [class_group_name_to_values], as the same loop fills it. *)
Definition build_class_group_name_to_values (classes_json : list annotation_class)
  : gmap string (gmap string (list string)) :=
  fold_left
    (fun m c =>
       <[class_name c :=
           fold_left (fun groups_of_class g =>
                        <[group_name g := group_attributes g]> groups_of_class)
                     (class_attribute_groups c) ∅]> m)
    classes_json ∅.

(** The parts of a relative path as [pathlib] keeps them: the pieces
    between slashes, without the empty ones and without ["."]. *)
Definition path_parts (name : string) : list string :=
  List.filter (fun part => negb (String.eqb part "") && negb (String.eqb part "."))
    (split "/" name).

(** Where the parts of a path lead. *)
Inductive walked : Type :=
| Reached (here : list string) (children : list entry)
| NoDirectory
| LeftExport.

(** The directory that the parts of a path lead to.  [children] lists the
    directory reached so far, [here] holds the parts walked and [above]
    the listings of the directories above it, nearest first.  A part
    [".."] steps up and stays in the path as a part; a step up from the
    root leaves the export. *)
Fixpoint walk (parts here : list string) (children : list entry)
    (above : list (list entry)) : walked :=
  match parts with
  | [] => Reached here children
  | part :: rest =>
      if String.eqb part ".." then
        match above with
        | up :: above' => walk rest (here ++ [".."]) up above'
        | [] => LeftExport
        end
      else
        match find_dir part children with
        | Some sub => walk rest (here ++ [part]) sub (children :: above)
        | None => NoDirectory
        end
  end.

(** The directory [Path(project_root) / folder_name], with the parts of
    its path below the root; [None] when there is no such directory.  An
    absolute name replaces the root. *)
Definition resolve (project_root : export_root) (folder_name : string)
  : option (list string * list entry) :=
  if String.prefix "/" folder_name then elsewhere project_root folder_name
  else
    match walk (path_parts folder_name) [] (entries project_root) [] with
    | Reached here children => Some (here, children)
    | NoDirectory => None
    | LeftExport => elsewhere project_root folder_name
    end.

(** [annotations_paths] *)
Definition find_annotations_paths (project_root : export_root)
    (folder_names : option (list string)) : list path :=
  match folder_names with
  | None =>
      flat_map
        (fun e =>
           match e with
           | File name _ =>
               if suffix_is_json name then [{| parent := []; target := e |}] else []
           | Dir name sub =>
               if negb (String.eqb name "classes") then rglob ".json" [name] sub
               else []
           end)
        (entries project_root)
  | Some names =>
      flat_map
        (fun folder_name =>
           match resolve project_root folder_name with
           | Some (here, children) => rglob ".json" here children
           | None => []
           end)
        names
  end.

(** The guard on legacy document and video exports. *)
Definition legacy_export (project_root : export_root) : bool :=
  match matching ".json" [] (entries project_root) with
  | first :: _ =>
      negb (contains "___pixel.json" (entry_name (target first)))
      && negb (contains "___objects.json" (entry_name (target first)))
  | [] => false
  end.

Definition find_type_postfix (project_root : export_root) : string :=
  match rglob "___objects.json" [] (entries project_root) with
  | _ :: _ => "___objects.json"
  | [] => "___pixel.json"
  end.

Section AggregateTop.

(** [lib.core.DEPRICATED_DOCUMENT_VIDEO_MESSAGE] *)
Variable DEPRICATED_DOCUMENT_VIDEO_MESSAGE : string.

(** [aggregate_image_annotations_as_df], with the warnings it logs.  The
    table is the rows as they were appended: the closing conversion of the
    [probability] column, [df.astype], is left to the library. *)
Definition aggregate_run (project_root : export_root)
    (include_classes_wo_annotations include_comments include_tags : bool)
    (folder_names : option (list string)) : result agg_state :=
  if legacy_export project_root then
    Raise (AppException DEPRICATED_DOCUMENT_VIDEO_MESSAGE)
  else
    match classes_file project_root with
    | None =>
        Raise (AppException
                 ("SuperAnnotate classes file " ++ root_path project_root
                  ++ "/classes/classes.json"
                  ++ " not found. Please provide correct project export root"))
    | Some classes_json =>
        let cols := columns include_comments include_tags in
        let class_name_to_color := build_class_name_to_color classes_json in
        let class_group_name_to_values :=
          build_class_group_name_to_values classes_json in
        let annotations_paths := find_annotations_paths project_root folder_names in
        let type_postfix := find_type_postfix project_root in
        let run : M agg_state unit :=
          do* (match annotations_paths with
               | [] => warn "Could not find annotations in %s."
                         (JStr (root_path project_root))
               | _ => st_ret tt
               end) in
          do* st_for annotations_paths
                (add_file cols class_name_to_color class_group_name_to_values
                   type_postfix include_comments include_tags) in
          let* s := st_get in
          if include_classes_wo_annotations then
            st_for classes_json (add_class_wo_annotations cols (annotation_data s))
          else st_ret tt in
        let! out := run {| annotation_data := []; warnings := [];
                           annotation_instance_id := 0 |} in
        Ok (snd out)
    end.

Definition aggregate_image_annotations_as_df (project_root : export_root)
    (include_classes_wo_annotations include_comments include_tags : bool)
    (folder_names : option (list string)) : result (list (gmap string json)) :=
  let! s := aggregate_run project_root include_classes_wo_annotations
              include_comments include_tags folder_names in
  Ok (annotation_data s).

End AggregateTop.

(** ** Vocabulary of the properties *)

Definition is_ok {A} (r : result A) : bool :=
  match r with Ok _ => true | Raise _ => false end.

Definition result_map {A B} (f : A -> B) (r : result A) : result B :=
  match r with Ok a => Ok (f a) | Raise e => Raise e end.

(** A pairwise score as it enters a mean: a score of at most zero counts
    as [1.0]. *)
Definition clamp (s : Q) : Q := if Qle_bool s 0 then 1%Q else s.

Definition Qsum (qs : list Q) : Q := fold_right Qplus 0%Q qs.

Section ConsensusVocabulary.
Context {Sh : Shapely}.
Local Abbreviation inst_data := (inst_data geom) (only parsing).
Local Abbreviation match_data := (match_data geom) (only parsing).
Local Abbreviation projects := (projects geom) (only parsing).
Local Abbreviation state := (state geom) (only parsing).

(** The members of a group that come from another folder than [m]. *)
Definition others (m : match_data) (g : list match_data) : list match_data :=
  filter (fun o => fst m <> fst o) g.

(** [scores] are the pairwise scores of [m] against [os], in order. *)
Definition pairwise_scores (m : match_data) (os : list match_data) (scores : list Q)
  : Prop :=
  Forall2 (fun o sc => instance_consensus (inst (snd m)) (inst (snd o)) = Ok sc)
          os scores.

(** The mean as the source takes it: the clamped scores summed, divided by
    the number of folders of the whole table less one. *)
Definition mean_over_all_folders (n_folders : nat) (scores : list Q) : Q :=
  (Qsum (map clamp scores) / inject_Z (Z.of_nat n_folders - 1))%Q.

(** The mean over the other folders represented in the group. *)
Definition mean_over_group_folders (scores : list Q) : Q :=
  (Qsum (map clamp scores) / inject_Z (Z.of_nat (length scores)))%Q.

(** [len(all_projects)] *)
Definition n_folders (df : list df_row) : nat :=
  length (remove_dups (map df_folderName df)).

(** The rows appended for the group [g] under instance id [id]. *)
Definition scored_rows (n : nat) (image_name : string) (id : nat)
    (g : list match_data) (rows : list result_row) : Prop :=
  match g with
  | [only] => rows = [make_row image_name id only 0]
  | _ =>
      Forall2 (fun m r => exists scores sc,
                 pairwise_scores m (others m g) scores
                 /\ (sc == mean_over_all_folders n scores)%Q
                 /\ r = make_row image_name id m sc)
              g rows
  end.

(** Every member of [g] is an instance of [objs] listed under the member's
    folder, of the class of one [seed]. *)
Definition group_of (objs : projects) (g : list match_data) : Prop :=
  exists seed : inst_data,
    Forall (fun m => inst_class (snd m) = inst_class seed
                     /\ exists insts, (fst m, insts) ∈ objs /\ snd m ∈ insts) g.

(** The part of the state that the search for matches leaves alone. *)
Definition same_output (s s' : state) : Prop :=
  image_data s' = image_data s /\ groups s' = groups s
  /\ instance_id s' = instance_id s.

(** What holds of the output after any number of matching rounds: the
    rows are those of the groups found, group by group, and every group is
    made of instances of [objs]. *)
Definition matched (objs : projects) (n : nat) (image_name : string) (s : state)
  : Prop :=
  (exists rowss,
     image_data s = concat rowss
     /\ Forall2 (fun g rows => exists id, scored_rows n image_name id g rows)
                (groups s) rowss)
  /\ Forall (group_of objs) (groups s).

(** Every instance tuple of [objs] was built from a row of [image_df] of
    the same folder, class, creator and attributes. *)
Definition from_table (image_df : list df_row) (objs : projects) : Prop :=
  forall k insts d,
    (k, insts) ∈ objs -> d ∈ insts ->
    exists row, row ∈ image_df /\ df_folderName row = k
                /\ df_className row = inst_class d
                /\ df_creatorEmail row = inst_creator d
                /\ df_attributes row = inst_attributes d.

End ConsensusVocabulary.

(** ** Sample inputs *)

Definition bbox_meta (x1 y1 x2 y2 : Q) : json :=
  JObj [("points",
         JObj [("x1", JNum x1); ("x2", JNum x2); ("y1", JNum y1); ("y2", JNum y2)])].

Definition sample_row (folder class_ image_name : string) (meta : json) : df_row :=
  {| df_imageName := image_name;
     df_folderName := Some folder;
     df_meta := meta;
     df_className := class_;
     df_creatorEmail := JStr (folder ++ "@example.com");
     df_attributes := JNull |}.

(** One image annotated in three folders: the same box of class [car] in
    [A] and [B], a box of class [dog] in [C]. *)
Definition three_folders : list df_row :=
  [ sample_row "A" "car" "img" (bbox_meta 0 0 2 2);
    sample_row "B" "car" "img" (bbox_meta 0 0 2 2);
    sample_row "C" "dog" "img" (bbox_meta 0 0 2 2) ].

Definition member_of (folder class_ : string) (g : planar)
  : match_data (@geom planar_shapely) :=
  (Some folder,
   {| inst := g; inst_class := class_;
      inst_creator := JStr (folder ++ "@example.com");
      inst_attributes := JNull |}).

(** ** Vocabulary of the aggregation properties *)

(** [attribute.get(key)] for an attribute that is an object. *)
Definition attribute_field (key : string) (attribute : json) : json :=
  match attribute with
  | JObj fields => default JNull (assoc_get key fields)
  | _ => JNull
  end.

(** An attribute validates against the groups of its class: its group is
    one of them and its name is listed under that group. *)
Definition validates (groups_of_class : gmap string (list string)) (attribute : json)
  : bool :=
  match attribute_field "groupName" attribute with
  | JStr g =>
      match groups_of_class !! g with
      | Some names => list_mem (attribute_field "name" attribute) names
      | None => false
      end
  | _ => false
  end.

(** An attribute as the export format has it: an object whose group name,
    if any, is a scalar. *)
Definition attribute_ok (attribute : json) : Prop :=
  match attribute with
  | JObj fields =>
      match assoc_get "groupName" fields with
      | Some (JArr _) | Some (JObj _) => False
      | _ => True
      end
  | _ => False
  end.

(** The instance names no class of the classes file: the key is absent,
    null, or a name the table does not hold. *)
Definition class_unknown (class_name_to_color : gmap string string)
    (fields : list (string * json)) : Prop :=
  match assoc_get "className" fields with
  | None | Some JNull => True
  | Some (JStr name) => class_name_to_color !! name = None
  | _ => False
  end.

(** From [s] to [s'] the table grew by [rows], and nothing else of the
    table changed. *)
Definition appended (rows : list (gmap string json)) (s s' : agg_state) : Prop :=
  annotation_data s' = annotation_data s ++ rows.

(** The keys of the dict [__get_image_metadata] returns. *)
Definition image_metadata_keys : list string :=
  [ "imageName"; "imageHeight"; "imageWidth"; "imageStatus"; "imagePinned";
    "imageAnnotator"; "imageQA" ].

(** The keys of the dict [__get_user_metadata] returns. *)
Definition user_metadata_keys : list string :=
  [ "createdAt"; "creatorRole"; "creatorEmail"; "creationType"; "updatedAt";
    "updatorRole"; "updatorEmail" ].

(** An export without a classes file. *)
Definition export_without_classes : export_root :=
  {| root_path := "/export";
     classes_file := None;
     entries := [File "img___objects.json" (JObj [("metadata", JObj []); ("instances", JArr [])])];
     elsewhere := fun _ => None |}.

(** A classes file that knows the class [car], with one attribute group. *)
Definition car_classes : list annotation_class :=
  [ {| class_name := "car"; class_color := "#ff0000";
       class_attribute_groups :=
         [ {| group_name := "color"; group_attributes := ["red"; "blue"] |} ] |} ].

Definition car_box : json :=
  JObj [ ("type", JStr "bbox"); ("className", JStr "car");
         ("points", JObj [("x1", JNum 0); ("y1", JNum 0);
                          ("x2", JNum 2); ("y2", JNum 2)]) ].

Definition pedestrian_box : json :=
  JObj [ ("type", JStr "bbox"); ("className", JStr "pedestrian");
         ("points", JObj [("x1", JNum 0); ("y1", JNum 0);
                          ("x2", JNum 1); ("y2", JNum 1)]) ].

(** An instance without a [type] key, with [parts]. *)
Definition untyped_mask : json :=
  JObj [ ("className", JStr "car"); ("parts", JArr [JObj [("color", JStr "#000001")]]) ].

(** An instance without a [type] key and without [parts]. *)
Definition untyped_bare : json := JObj [ ("className", JStr "car") ].

(** An instance without a [type] key and without [parts], of a class that
    [car_classes] omits. *)
Definition untyped_pedestrian : json := JObj [ ("className", JStr "pedestrian") ].

(** An instance with one attribute of the classes file and one unknown. *)
Definition car_with_attributes : json :=
  JObj [ ("type", JStr "bbox"); ("className", JStr "car");
         ("points", JObj [("x1", JNum 0); ("y1", JNum 0);
                          ("x2", JNum 2); ("y2", JNum 2)]);
         ("attributes",
          JArr [ JObj [("groupName", JStr "color"); ("name", JStr "red")];
                 JObj [("groupName", JStr "color"); ("name", JStr "green")] ]) ].

Definition annotation_file (name : string) (instances : list json) : entry :=
  File name (JObj [ ("metadata", JObj [("height", JNum 10); ("width", JNum 20)]);
                    ("instances", JArr instances) ]).

(** An annotation file with a comment, a tag and an instance. *)
Definition remarked_file : entry :=
  File "img___objects.json"
    (JObj [ ("metadata", JObj [("height", JNum 10); ("width", JNum 20)]);
            ("comments",
             JArr [ JObj [ ("resolved", JBool false); ("x", JNum 1);
                           ("y", JNum 1); ("correspondence", JArr []) ] ]);
            ("tags", JArr [JStr "night"]);
            ("instances", JArr [car_box]) ]).

(** An export whose only annotation file lies two directories below the
    root, in [A/sub]. *)
Definition nested_export : export_root :=
  {| root_path := "/export";
     classes_file := Some car_classes;
     entries := [ Dir "A" [ Dir "sub" [ annotation_file "img___objects.json" [car_box] ] ] ];
     elsewhere := fun _ => None |}.

(** An export with a file at the root that names a class the classes file
    omits. *)
Definition stale_classes_export : export_root :=
  {| root_path := "/export";
     classes_file := Some car_classes;
     entries := [ annotation_file "img___objects.json" [car_box; pedestrian_box] ];
     elsewhere := fun _ => None |}.

Definition empty_state : agg_state :=
  {| annotation_data := []; warnings := []; annotation_instance_id := 0 |}.

(** The metadata block of an image without metadata, and what
    [__get_image_metadata] makes of it. *)
Definition bare_annotations : json := JObj [("metadata", JObj [])].

Definition bare_image_metadata : gmap string json :=
  list_to_map
    [ ("imageName", JStr "img"); ("imageHeight", JNull); ("imageWidth", JNull);
      ("imageStatus", JNull); ("imagePinned", JNull); ("imageAnnotator", JNull);
      ("imageQA", JNull) ].

Definition pixel_path : path :=
  {| parent := []; target := File "img___pixel.json" bare_annotations |}.

(** The cells of a row of a comment or of a tag: no instance id and no
    folder. *)
Definition remark_cells (row : gmap string json) : Prop :=
  (cell "type" row = JStr "comment" \/ cell "type" row = JStr "tag")
  /\ cell "instanceId" row = JNull
  /\ cell "folderName" row = JNull.

(** The cells of a row of an instance of the file at [annotation_path]:
    an instance id and the folder of the file. *)
Definition instance_cells (annotation_path : path) (row : gmap string json) : Prop :=
  (exists id : nat, cell "instanceId" row = JNum (inject_Z (Z.of_nat id)))
  /\ cell "folderName" row = folder_name_of annotation_path.

(** What [__get_user_metadata] makes of an instance without actor blocks. *)
Definition bare_user_metadata : gmap string json :=
  list_to_map
    [ ("createdAt", JNull); ("creatorRole", JNull); ("creatorEmail", JNull);
      ("creationType", JNull); ("updatedAt", JNull); ("updatorRole", JNull);
      ("updatorEmail", JNull) ].

(** The attribute groups of the class [car] of [car_classes]. *)
Definition car_groups : gmap string (list string) :=
  <["color" := ["red"; "blue"]]> ∅.

Definition car_points : json :=
  JObj [("x1", JNum 0); ("y1", JNum 0); ("x2", JNum 2); ("y2", JNum 2)].

Definition car_attributes : list json :=
  [ JObj [("groupName", JStr "color"); ("name", JStr "red")];
    JObj [("groupName", JStr "color"); ("name", JStr "green")] ].

(** The fields read off an instance object of the class [name], whose
    payload is [meta], as the [id]-th instance of its file. *)
Definition fields_read (image_name : string) (id : nat) (name color : string)
    (meta : json) (annotation_path : path) (fields : list (string * json))
  : instance_fields :=
  {| f_image_name := image_name;
     f_instance_id := id;
     f_class_name := name;
     f_type := default (JStr "mask") (assoc_get "type" fields);
     f_locked := default JNull (assoc_get "locked" fields);
     f_visible := default JNull (assoc_get "visible" fields);
     f_tracking_id := default JNull (assoc_get "trackingId" fields);
     f_meta := meta;
     f_error := default JNull (assoc_get "error" fields);
     f_probability := default JNull (assoc_get "probability" fields);
     f_point_labels := default JNull (assoc_get "pointLabels" fields);
     f_class_color := color;
     f_group_id := default JNull (assoc_get "groupId" fields);
     f_folder_name := folder_name_of annotation_path |}.

(** Two states with the same table and the same instance counter; the
    warnings may differ. *)
Definition same_table (s1 s2 : agg_state) : Prop :=
  annotation_data s1 = annotation_data s2
  /\ annotation_instance_id s1 = annotation_instance_id s2.

(** Two runs that raise the same exception, or return the same value in
    states with the same table. *)
Definition same_outcome {A} (r1 r2 : result (A * agg_state)) : Prop :=
  match r1, r2 with
  | Ok (a1, t1), Ok (a2, t2) => a1 = a2 /\ same_table t1 t2
  | Raise e1, Raise e2 => e1 = e2
  | _, _ => False
  end.

(** A statement whose outcome does not depend on the warnings logged
    before it. *)
Definition insensitive {A} (m : M agg_state A) : Prop :=
  forall s1 s2, same_table s1 s2 -> same_outcome (m s1) (m s2).

(** ** Vocabulary of the further properties *)

(** A statement run from a state of [P] returns in a state of [Q], or
    raises an exception of [E]. *)
Definition triple {S A} (P : S -> Prop) (m : M S A) (Q : A -> S -> Prop)
    (E : exn -> Prop) : Prop :=
  forall s, P s ->
    match m s with
    | Ok (a, s') => Q a s'
    | Raise e => E e
    end.

(** The elements of [xs] whose flag is set. *)
Fixpoint select {A} (flags : list bool) (xs : list A) : list A :=
  match flags, xs with
  | b :: flags', x :: xs' =>
      if b then x :: select flags' xs' else select flags' xs'
  | _, _ => []
  end.

Section MatcherVocabulary.
Context {Sh : Shapely}.
Local Abbreviation inst_data := (inst_data geom) (only parsing).
Local Abbreviation match_data := (match_data geom) (only parsing).
Local Abbreviation projects := (projects geom) (only parsing).
Local Abbreviation state := (state geom) (only parsing).

(** The visited flag of the [id]-th instance of folder [proj]. *)
Definition flag (s : state) (proj : option string) (id : nat) : option bool :=
  match visited_instances s !! proj with
  | Some flags => flags !! id
  | None => None
  end.

(** [visited_instances] has a list of flags for every folder of [objs], as
    long as the folder's list of instances. *)
Definition visited_shape (objs : projects) (s : state) : Prop :=
  forall k insts,
    (k, insts) ∈ objs ->
    exists flags, visited_instances s !! k = Some flags
                  /\ length flags = length insts.

(** The instances of [objs] whose flag is set, each with its folder. *)
Definition visited_members (objs : projects) (s : state) : list match_data :=
  concat (map (fun kv => map (pair (fst kv))
                           (select (default [] (visited_instances s !! fst kv))
                                   (snd kv)))
              objs).

(** All instances of [objs], each with its folder. *)
Definition members_of (objs : projects) : list match_data :=
  concat (map (fun kv => map (pair (fst kv)) (snd kv)) objs).

(** [e] is raised by the scorer on two instances of [objs], of different
    folders. *)
Definition scorer_raises (objs : projects) (e : exn) : Prop :=
  exists a b : match_data,
    a ∈ members_of objs /\ b ∈ members_of objs /\ fst a <> fst b
    /\ instance_consensus (inst (snd a)) (inst (snd b)) = Raise e.


(** Flags once set stay set. *)
Definition flags_kept (s s' : state) : Prop :=
  forall k i, flag s k i = Some true -> flag s' k i = Some true.

(** [max_score <= max_score']. *)
Definition bound_le (m m' : bound) : Prop :=
  match m, m' with
  | NegInf, _ => True
  | Fin _, NegInf => False
  | Fin q, Fin q' => (q <= q')%Q
  end.

End MatcherVocabulary.

Section MatcherVocabulary2.
Context {Sh : Shapely}.
Local Abbreviation inst_data := (inst_data geom) (only parsing).
Local Abbreviation match_data := (match_data geom) (only parsing).
Local Abbreviation projects := (projects geom) (only parsing).
Local Abbreviation state := (state geom) (only parsing).

(** The value [max_score] starts from in every folder searched. *)
Definition threshold (annot_type : string) : bound :=
  if String.eqb annot_type "polygon" || String.eqb annot_type "bbox"
  then Fin 0 else NegInf.

(** A candidate the search may take: not visited, of the class of the
    current instance. *)
Definition eligible (s : state) (curr : inst_data) (other_proj : option string)
    (c : nat * inst_data) : Prop :=
  flag s other_proj (fst c) = Some false
  /\ inst_class (snd c) = inst_class curr.

(** A member of the group seeded by [curr] of folder [curr_proj]: the seed,
    or an instance of another folder of [objs], of the seed's class, whose
    score against the seed exceeds the threshold. *)
Definition member (objs : projects) (annot_type : string)
    (curr_proj : option string) (curr : inst_data) (m : match_data) : Prop :=
  m = (curr_proj, curr)
  \/ (fst m <> curr_proj
      /\ inst_class (snd m) = inst_class curr
      /\ (exists insts id, (fst m, insts) ∈ objs /\ insts !! id = Some (snd m))
      /\ exists sc, instance_consensus (inst curr) (inst (snd m)) = Ok sc
                    /\ exceeds sc (threshold annot_type) = true).

(** A group as the matcher builds it: its members come from pairwise
    different folders, and it is seeded by one of them. *)
Definition seeded_group (objs : projects) (annot_type : string)
    (g : list match_data) : Prop :=
  NoDup (map fst g)
  /\ exists seed insts id,
       seed ∈ g /\ (fst seed, insts) ∈ objs /\ insts !! id = Some (snd seed)
       /\ Forall (member objs annot_type (fst seed) (snd seed)) g.

(** The rows of the output are those of the groups, group by group, the
    rows of the [i]-th group under instance id [i]. *)
Definition layout (n : nat) (image_name : string) (s : state) : Prop :=
  exists rowss,
    image_data s = concat rowss
    /\ Forall2 (fun ig rows => scored_rows n image_name (fst ig) (snd ig) rows)
               (enumerate (groups s)) rowss.

(** What the matching loop keeps. *)
Definition matcher_inv (objs : projects) (annot_type : string) (n : nat)
    (image_name : string) (s : state) : Prop :=
  visited_shape objs s
  /\ visited_members objs s ≡ₚ concat (groups s)
  /\ instance_id s = length (groups s)
  /\ layout n image_name s
  /\ Forall (seeded_group objs annot_type) (groups s).

(** The flags of the folders in [done] are all set. *)
Definition folders_done (done : projects) (s : state) : Prop :=
  forall k insts i d,
    (k, insts) ∈ done -> insts !! i = Some d -> flag s k i = Some true.

End MatcherVocabulary2.

Section TableVocabulary.
Context {Sh : Shapely}.
Local Abbreviation inst_data := (inst_data geom) (only parsing).
Local Abbreviation match_data := (match_data geom) (only parsing).
Local Abbreviation projects := (projects geom) (only parsing).
Local Abbreviation state := (state geom) (only parsing).

(** The instance a row of the table stands for, if its geometry can be
    built and is valid. *)
Definition valid_member (annot_type : string) (row : df_row) : option match_data :=
  match make_inst annot_type (df_meta row) with
  | Ok g =>
      if is_valid g
      then Some (df_folderName row,
                 {| inst := g; inst_class := df_className row;
                    inst_creator := df_creatorEmail row;
                    inst_attributes := df_attributes row |})
      else None
  | Raise _ => None
  end.

Definition valid_members (annot_type : string) (rows : list df_row)
  : list match_data :=
  omap (valid_member annot_type) rows.

(** The rows of the table that belong to an image. *)
Definition rows_of (image_name : string) (df : list df_row) : list df_row :=
  filter (fun row => df_imageName row = image_name) df.

(** What a row of the result says of the instance it stands for. *)
Definition stands_for (r : result_row) (m : match_data) : Prop :=
  folderName r = fst m
  /\ className r = inst_class (snd m)
  /\ creatorEmail r = inst_creator (snd m)
  /\ attributes r = inst_attributes (snd m)
  /\ area r = geom_area (inst (snd m)).

End TableVocabulary.

(** The coordinates of a list of points, flat, as the export has them. *)
Definition flat_coords {A} (pairs : list (A * A)) : list A :=
  concat (map (fun p => [fst p; snd p]) pairs).

(** ** Further sample inputs *)

Definition point_meta (x y : Q) : json :=
  JObj [("x", JNum x); ("y", JNum y)].

(** One image with a point in each of three folders, two of one class. *)
Definition three_points : list df_row :=
  [ sample_row "A" "eye" "img" (point_meta 0 0);
    sample_row "B" "eye" "img" (point_meta 30 40);
    sample_row "C" "nose" "img" (point_meta 1 1) ].

(** One image annotated twice in a single folder. *)
Definition one_folder : list df_row :=
  [ sample_row "A" "car" "img" (bbox_meta 0 0 2 2);
    sample_row "A" "car" "img" (bbox_meta 1 1 3 3) ].

(** A folder of one box and a folder of two: the first overlaps the seed
    less than the second. *)
Definition seed_box : inst_data (@geom planar_shapely) :=
  snd (member_of "A" "car" (PBox 0 0 2 2)).

Definition candidate_boxes : list (inst_data (@geom planar_shapely)) :=
  [ snd (member_of "B" "car" (PBox 1 1 3 3));
    snd (member_of "B" "car" (PBox 0 0 2 3)) ].

Definition two_folder_objs : projects (@geom planar_shapely) :=
  [ (Some "A", [seed_box]); (Some "B", candidate_boxes) ].

(** ** Vocabulary of the further aggregation properties *)

(** [p] is an entry of the directory [children] at [here], or of a
    directory below it. *)
Inductive below : list string -> list entry -> path -> Prop :=
| below_child here children e :
    e ∈ children -> below here children {| parent := here; target := e |}
| below_deeper here children name sub p :
    Dir name sub ∈ children -> below (here ++ [name]) sub p ->
    below here children p.

(** Induction over a directory tree. *)
Fixpoint entry_induction (P : entry -> Prop)
    (on_file : forall name content, P (File name content))
    (on_dir : forall name sub, Forall P sub -> P (Dir name sub))
    (e : entry) : P e :=
  match e with
  | File name content => on_file name content
  | Dir name sub =>
      on_dir name sub
        ((fix all (es : list entry) : Forall P es :=
            match es with
            | [] => @List.Forall_nil entry P
            | e' :: rest =>
                @List.Forall_cons entry P e' rest
                  (entry_induction P on_file on_dir e') (all rest)
            end) sub)
  end.

(** The last class of a given name in the classes file. *)
Definition last_class (name : string) (classes_json : list annotation_class)
  : option annotation_class :=
  last (filter (fun c => class_name c = name) classes_json).

(** The last attribute group of a given name in a class. *)
Definition last_group (name : string) (c : annotation_class)
  : option attribute_group :=
  last (filter (fun g => group_name g = name) (class_attribute_groups c)).

(** The row of a class without annotations: its name and color, every
    other cell empty. *)
Definition class_only_row (cols : list string) (c : annotation_class)
  : gmap string json :=
  table_row cols
    (list_to_map [ ("className", JStr (class_name c));
                   ("classColor", JStr (class_color c)) ]).

(** The warning of an export without annotation files. *)
Definition no_annotations_warning (project_root : export_root) : warning :=
  {| warning_fmt := "Could not find annotations in %s.";
     warning_arg := JStr (root_path project_root) |}.

Section RowVocabulary.
Variable cols : list string.
Variable class_name_to_color : gmap string string.
Variable class_group_name_to_values : gmap string (gmap string (list string)).

(** The attribute [nm] of group [g] is listed for the class in the
    classes file. *)
Definition validated (name : string) (g nm : json) : Prop :=
  exists groups_of_class names,
    class_group_name_to_values !! name = Some groups_of_class
    /\ dict_lookup g groups_of_class = Ok (Some names)
    /\ list_mem nm names = true.

(** A row of the instance [annotation] of a file, emitted under the
    instance id [id]: the instance is of a class of the classes file, and
    the row is the plain row of the instance or the row of one of its
    attributes, listed for the class. *)
Definition instance_row (image_metadata : gmap string json)
    (image_name : string) (annotation_path : path) (annotation : json)
    (id : nat) (row : gmap string json) : Prop :=
  exists user_metadata f d,
    row = table_row cols (image_metadata ∪ (user_metadata ∪ d))
    /\ get_user_metadata annotation = Ok user_metadata
    /\ f_image_name f = image_name
    /\ f_instance_id f = id
    /\ get annotation "className" = Ok (JStr (f_class_name f))
    /\ class_name_to_color !! f_class_name f = Some (f_class_color f)
    /\ f_folder_name f = folder_name_of annotation_path
    /\ (d = instance_dict f
        \/ exists g nm, d = attribute_dict f g nm
                        /\ validated (f_class_name f) g nm).

(** A row of a comment or of a tag of a file. *)
Definition remark_row (image_metadata : gmap string json)
    (row : gmap string json) : Prop :=
  exists d, row = table_row cols (image_metadata ∪ d)
            /\ d !! "instanceId" = None /\ d !! "className" = None
            /\ d !! "classColor" = None.

(** The rows of the instances of a file, instance by instance: the rows
    of the [i]-th block carry the instance id [first + i]. *)
Definition instance_blocks (image_metadata : gmap string json)
    (image_name : string) (annotation_path : path) (instances : list json)
    (first : nat) (blocks : list (list (gmap string json))) : Prop :=
  forall i block,
    blocks !! i = Some block ->
    block <> []
    /\ exists annotation,
         annotation ∈ instances
         /\ Forall (instance_row image_metadata image_name annotation_path
                      annotation (first + i)) block.

End RowVocabulary.

(** A row validates against the classes file: it names no class, or it
    carries the name and the color of a class of the file and, when it
    names an attribute, one that the file lists under that group of the
    class. *)
Definition row_in_classes (classes_json : list annotation_class)
    (row : gmap string json) : Prop :=
  cell "className" row = JNull
  \/ exists c,
       c ∈ classes_json
       /\ cell "className" row = JStr (class_name c)
       /\ cell "classColor" row = JStr (class_color c)
       /\ ((cell "attributeGroupName" row = JNull
            /\ cell "attributeName" row = JNull)
           \/ exists g a,
                g ∈ class_attribute_groups c /\ a ∈ group_attributes g
                /\ cell "attributeGroupName" row = JStr (group_name g)
                /\ cell "attributeName" row = JStr a).

(** An export with classes and no annotation file. *)
Definition empty_export : export_root :=
  {| root_path := "/export";
     classes_file := Some car_classes;
     entries := [];
     elsewhere := fun _ => None |}.

(** An export with a directory named like an annotation file. *)
Definition json_directory_export : export_root :=
  {| root_path := "/export";
     classes_file := Some car_classes;
     entries := [ Dir "A" [ Dir "img___objects.json" [] ] ];
     elsewhere := fun _ => None |}.

Definition json_directory_path : path :=
  {| parent := ["A"]; target := Dir "img___objects.json" [] |}.

(** A file whose first instance is of an unknown class, whose second has
    no attribute and whose third has one listed attribute of two. *)
Definition skipping_path : path :=
  {| parent := ["A"];
     target := annotation_file "img___objects.json"
                 [pedestrian_box; car_box; car_with_attributes] |}.

(** The file of [stale_classes_export], directly under the root. *)
Definition root_path_of_stale : path :=
  {| parent := [];
     target := annotation_file "img___objects.json" [car_box; pedestrian_box] |}.

Definition nested_path : path :=
  {| parent := ["A"; "sub"];
     target := annotation_file "img___objects.json" [car_box] |}.

(** ** The classes file rebuilt from a table

    The last loop of [df_to_annotations], over the rows of the table.  It
    reads four cells of a row; a row whose class cell is [None] is passed
    over before any other cell is read, so a row is taken as [None] or as
    the cells of a row that names a class, whose color is then a string as
    the classes file has it. *)

Record class_part : Type := {
  part_className : string;
  part_classColor : string;
  part_attributeGroupName : option string;
  part_attributeName : option string
}.

(** A [for ... else] search that appends [new] when no element matches. *)
Definition find_or_append {A} (p : A -> bool) (new : A) (l : list A) : list A :=
  if existsb p l then l else l ++ [new].

(** The element the search stopped at, changed in place. *)
Fixpoint update_first {A} (p : A -> bool) (f : A -> A) (l : list A) : list A :=
  match l with
  | [] => []
  | x :: rest => if p x then f x :: rest else x :: update_first p f rest
  end.

(** The search for [row["attributeName"]] in a group. *)
Definition add_attribute_name (attribute_name : string) (g : attribute_group)
  : attribute_group :=
  {| group_name := group_name g;
     group_attributes :=
       find_or_append (fun a => String.eqb a attribute_name) attribute_name
         (group_attributes g) |}.

(** The search for [row["attributeGroupName"]] in a class, then for the
    attribute in the group. *)
Definition add_group_attribute (attribute_group_name attribute_name : string)
    (c : annotation_class) : annotation_class :=
  let is_group g := String.eqb (group_name g) attribute_group_name in
  {| class_name := class_name c;
     class_color := class_color c;
     class_attribute_groups :=
       update_first is_group (add_attribute_name attribute_name)
         (find_or_append is_group
            {| group_name := attribute_group_name; group_attributes := [] |}
            (class_attribute_groups c)) |}.

(** The body of the loop over [df.iterrows()]. *)
Definition rebuild_row (annotation_classes : list annotation_class)
    (row : option class_part) : list annotation_class :=
  match row with
  | None => annotation_classes
  | Some r =>
      let is_class c := String.eqb (class_name c) (part_className r) in
      let classes :=
        find_or_append is_class
          {| class_name := part_className r;
             class_color := part_classColor r;
             class_attribute_groups := [] |}
          annotation_classes in
      match part_attributeGroupName r, part_attributeName r with
      | Some g, Some a => update_first is_class (add_group_attribute g a) classes
      | _, _ => classes
      end
  end.

(** [annotation_classes] after the loop. *)
Definition rebuild_classes (rows : list (option class_part))
  : list annotation_class :=
  fold_left rebuild_row rows [].

(** The cells of a row of the aggregated table that the loop reads; in
    the tables of the aggregation a class cell always comes with a color
    cell, and a row without them is one the loop passes over. *)
Definition class_part_of (row : gmap string json) : option class_part :=
  match cell "className" row, cell "classColor" row with
  | JStr name, JStr color =>
      Some {| part_className := name;
              part_classColor := color;
              part_attributeGroupName :=
                match cell "attributeGroupName" row with
                | JStr g => Some g
                | _ => None
                end;
              part_attributeName :=
                match cell "attributeName" row with
                | JStr a => Some a
                | _ => None
                end |}
  | _, _ => None
  end.

(** The classes file lists a class of the name. *)
Definition has_class (classes_json : list annotation_class) (name : string)
  : Prop :=
  exists c, c ∈ classes_json /\ class_name c = name.

(** The classes file lists the attribute under the group of a class of
    the name. *)
Definition has_attribute (classes_json : list annotation_class)
    (name g a : string) : Prop :=
  exists c grp,
    c ∈ classes_json /\ class_name c = name
    /\ grp ∈ class_attribute_groups c /\ group_name grp = g
    /\ a ∈ group_attributes grp.

(** No name occurs twice: among the classes, among the groups of a class,
    among the attributes of a group. *)
Definition names_unique (classes_json : list annotation_class) : Prop :=
  NoDup (map class_name classes_json)
  /\ Forall (fun c =>
       NoDup (map group_name (class_attribute_groups c))
       /\ Forall (fun g => NoDup (group_attributes g))
                 (class_attribute_groups c))
     classes_json.

(** The class lists the attribute under the group. *)
Definition attr_in (c : annotation_class) (g a : string) : Prop :=
  exists grp, grp ∈ class_attribute_groups c /\ group_name grp = g
              /\ a ∈ group_attributes grp.

Definition class_wf (c : annotation_class) : Prop :=
  NoDup (map group_name (class_attribute_groups c))
  /\ Forall (fun g => NoDup (group_attributes g)) (class_attribute_groups c).

(** The row names the class, and the attribute of the group. *)
Definition names_class (row : option class_part) (name : string) : Prop :=
  exists r, row = Some r /\ part_className r = name.

Definition names_attribute (row : option class_part) (name g a : string) : Prop :=
  exists r, row = Some r /\ part_className r = name
            /\ part_attributeGroupName r = Some g
            /\ part_attributeName r = Some a.

(** A table of three rows that name classes and one that does not. *)
Definition sample_parts : list (option class_part) :=
  [ Some {| part_className := "car"; part_classColor := "#ff0000";
            part_attributeGroupName := Some "color";
            part_attributeName := Some "red" |};
    None;
    Some {| part_className := "car"; part_classColor := "#00ff00";
            part_attributeGroupName := Some "color";
            part_attributeName := Some "blue" |};
    Some {| part_className := "dog"; part_classColor := "#0000ff";
            part_attributeGroupName := None;
            part_attributeName := None |} ].


(** * Properties *)

(** ** Running statements *)

Lemma result_bind_ok {A B} (m : result A) (k : A -> result B) b :
  result_bind m k = Ok b -> exists a, m = Ok a /\ k a = Ok b.
Proof. destruct m as [a|e]; simpl; [eauto | discriminate]. Qed.

Lemma st_bind_ok {S A B} (m : M S A) (k : A -> M S B) s b s' :
  st_bind m k s = Ok (b, s') ->
  exists a s1, m s = Ok (a, s1) /\ k a s1 = Ok (b, s').
Proof.
  unfold st_bind. destruct (m s) as [[a s1]|e]; [eauto | discriminate].
Qed.

Lemma st_lift_ok {S A} (r : result A) (s : S) a s' :
  st_lift r s = Ok (a, s') -> r = Ok a /\ s' = s.
Proof. unfold st_lift. destruct r; intros H; inversion H; auto. Qed.

Lemma st_ret_ok {S A} (a : A) (s : S) b s' :
  st_ret a s = Ok (b, s') -> b = a /\ s' = s.
Proof. unfold st_ret. intros H; inversion H; auto. Qed.

Lemma ok_exists {A} (r : result A) : is_ok r = true -> exists a, r = Ok a.
Proof. destruct r; [eauto | discriminate]. Qed.

(** A loop keeps what each run of its body keeps. *)
Lemma st_for_inv {S A} (I : S -> Prop) (xs : list A) (body : A -> M S unit) :
  (forall x s s', x ∈ xs -> I s -> body x s = Ok (tt, s') -> I s') ->
  forall s s', I s -> st_for xs body s = Ok (tt, s') -> I s'.
Proof.
  induction xs as [|x xs IH]; intros Hbody s s' Hs Hrun; simpl in Hrun.
  - apply st_ret_ok in Hrun as [_ ->]. exact Hs.
  - apply st_bind_ok in Hrun as ([] & s1 & H1 & H2).
    apply (IH (fun y t t' Hy => Hbody y t t' (list_elem_of_further _ _ _ Hy)) s1 s').
    + eapply Hbody; eauto. apply list_elem_of_here.
    + exact H2.
Qed.

Lemma enumerate_from_elem {A} (xs : list A) i j x :
  (j, x) ∈ enumerate_from i xs -> x ∈ xs.
Proof.
  revert i. induction xs as [|y xs IH]; simpl; intros i H.
  - inversion H.
  - apply elem_of_cons in H as [H|H].
    + inversion H; subst. apply list_elem_of_here.
    + apply list_elem_of_further. eauto.
Qed.

(** ** The consensus matcher *)

Section ConsensusProperties.
Context {Sh : Shapely}.
Local Abbreviation inst_data := (inst_data geom) (only parsing).
Local Abbreviation match_data := (match_data geom) (only parsing).
Local Abbreviation projects := (projects geom) (only parsing).
Local Abbreviation state := (state geom) (only parsing).


Lemma same_output_refl s : same_output s s.
Proof. repeat split. Qed.

Lemma same_output_trans s1 s2 s3 :
  same_output s1 s2 -> same_output s2 s3 -> same_output s1 s3.
Proof. unfold same_output. intros (?&?&?) (?&?&?). repeat split; congruence. Qed.

Lemma visited_ok proj id s b s' : visited proj id s = Ok (b, s') -> s' = s.
Proof.
  unfold visited. destruct (visited_instances s !! proj) as [flags|]; [|discriminate].
  destruct (flags !! id); [|discriminate]. intros H; inversion H; auto.
Qed.

Lemma mark_visited_ok proj id s u s' :
  mark_visited proj id s = Ok (u, s') -> same_output s s'.
Proof.
  unfold mark_visited. destruct (visited_instances s !! proj) as [flags|]; [|discriminate].
  destruct (decide _); [|discriminate]. intros H; inversion H; subst.
  repeat split.
Qed.

Lemma call_scorer_ok a b s q s' :
  call_scorer a b s = Ok (q, s') ->
  instance_consensus (inst a) (inst b) = Ok q /\ same_output s s'.
Proof.
  unfold call_scorer. destruct (instance_consensus _ _) as [q'|]; [|discriminate].
  intros H; inversion H; subst. repeat split.
Qed.

#[local] Hint Resolve same_output_refl : core.

(** The best candidate, if the search changed it, is one of the candidates
    and has the class of the current instance. *)
Lemma search_ok curr other_proj cands :
  forall max_score best s best' s',
    search curr other_proj cands max_score best s = Ok (best', s') ->
    same_output s s'
    /\ (best' = best
        \/ exists id d, best' = Some (id, d) /\ (id, d) ∈ cands
                        /\ inst_class d = inst_class curr).
Proof.
  induction cands as [|[other_id other] rest IH]; intros max_score best s best' s' H;
    simpl in H.
  - apply st_ret_ok in H as [-> ->]. auto.
  - apply st_bind_ok in H as (v & s1 & Hv & H).
    apply visited_ok in Hv as ->.
    destruct v.
    + apply IH in H as [Hs [->|(id & d & -> & Hin & Hc)]]; split; auto.
      right. exists id, d. repeat split; auto. by apply list_elem_of_further.
    + apply st_bind_ok in H as (sc & s2 & Hsc & H).
      apply call_scorer_ok in Hsc as [_ Hs2].
      destruct (exceeds sc max_score && String.eqb (inst_class other) (inst_class curr))
        eqn:Hcond.
      * apply andb_true_iff in Hcond as [_ Hcls]. apply String.eqb_eq in Hcls.
        apply IH in H as [Hs [->|(id & d & -> & Hin & Hc)]];
          (split; [eapply same_output_trans; eauto|]); right.
        -- exists other_id, other. repeat split; auto. apply list_elem_of_here.
        -- exists id, d. repeat split; auto. by apply list_elem_of_further.
      * apply IH in H as [Hs [->|(id & d & -> & Hin & Hc)]];
          (split; [eapply same_output_trans; eauto|]); auto.
        right. exists id, d. repeat split; auto. by apply list_elem_of_further.
Qed.

(** The calls of the scorer in the search of one folder: one for every
    candidate whose flag is not set, in the order of the candidates and
    whatever the class of the candidate. *)
Lemma search_calls curr other_proj cands :
  forall max_score best s best' s',
    search curr other_proj cands max_score best s = Ok (best', s') ->
    visited_instances s' = visited_instances s
    /\ scorer_calls s'
       = scorer_calls s
         ++ map (fun c => (curr, snd c))
              (filter (fun c => flag s other_proj (fst c) = Some false) cands).
Proof.
  induction cands as [|[other_id other] rest IH]; intros max_score best s best' s' H;
    simpl in H.
  - apply st_ret_ok in H as [_ ->]. by rewrite app_nil_r.
  - apply st_bind_ok in H as (v & s1 & Hv & H).
    assert (Hflag : flag s other_proj other_id = Some v /\ s1 = s).
    { unfold visited in Hv. unfold flag.
      destruct (visited_instances s !! other_proj) as [flags|]; [|discriminate].
      destruct (flags !! other_id); [|discriminate]. by inversion Hv. }
    destruct Hflag as [Hflag ->]. rewrite filter_cons. cbn [fst].
    destruct v.
    + rewrite decide_False by (rewrite Hflag; discriminate). eauto.
    + rewrite decide_True by exact Hflag.
      apply st_bind_ok in H as (sc & s2 & Hsc & H).
      assert (Hs2 : visited_instances s2 = visited_instances s
                    /\ scorer_calls s2 = scorer_calls s ++ [(curr, other)]).
      { unfold call_scorer in Hsc.
        destruct (instance_consensus _ _); [|discriminate].
        by inversion Hsc. }
      destruct Hs2 as [Hv2 Hc2].
      assert (Hrest : visited_instances s' = visited_instances s2
                      /\ scorer_calls s'
                         = scorer_calls s2
                           ++ map (fun c => (curr, snd c))
                                (filter (fun c => flag s2 other_proj (fst c)
                                                  = Some false) rest)).
      { destruct (exceeds sc max_score
                  && String.eqb (inst_class other) (inst_class curr)); eauto. }
      destruct Hrest as [Hv' Hc']. split; [congruence|].
      rewrite Hc', Hc2. unfold flag. rewrite Hv2.
      by rewrite <- app_assoc.
Qed.

(** What [max_instances] gains: the current instance itself, or an
    instance of its class from one of the folders walked. *)
Lemma find_matches_ok annot_type curr_proj curr_id curr rest_projs :
  forall acc s g s',
    find_matches annot_type curr_proj curr_id curr rest_projs acc s = Ok (g, s') ->
    same_output s s'
    /\ exists added, g = acc ++ added
       /\ Forall (fun m => m = (curr_proj, curr)
                   \/ (inst_class (snd m) = inst_class curr
                       /\ exists insts, (fst m, insts) ∈ rest_projs
                                        /\ snd m ∈ insts)) added.
Proof.
  induction rest_projs as [|[other_proj other_insts] rest IH]; intros acc s g s' H;
    simpl in H.
  - apply st_ret_ok in H as [-> ->]. split; auto. exists []. by rewrite app_nil_r.
  - assert (Hweak : forall added : list match_data,
      Forall (fun m => m = (curr_proj, curr)
                \/ (inst_class (snd m) = inst_class curr
                    /\ exists insts, (fst m, insts) ∈ rest /\ snd m ∈ insts)) added ->
      Forall (fun m => m = (curr_proj, curr)
                \/ (inst_class (snd m) = inst_class curr
                    /\ exists insts, (fst m, insts) ∈ (other_proj, other_insts) :: rest
                                     /\ snd m ∈ insts)) added).
    { intros added Hadded. eapply Forall_impl; [exact Hadded|]. intros m [->|(Hc & insts & Hin & Hm)]; auto.
      right. split; auto. exists insts. split; auto. by apply list_elem_of_further. }
    case_bool_decide.
    + apply st_bind_ok in H as ([] & s1 & Hm & H).
      apply mark_visited_ok in Hm.
      apply IH in H as (Hs & added & -> & Hall).
      split; [eapply same_output_trans; eauto|].
      exists ((curr_proj, curr) :: added). split; [by rewrite <- app_assoc|].
      constructor; auto.
    + apply st_bind_ok in H as (best & s1 & Hsearch & H).
      apply search_ok in Hsearch as [Hs1 Hbest].
      destruct best as [[max_inst_id max_inst_data]|].
      * destruct Hbest as [?|(id & d & Heq & Hin & Hc)]; [discriminate|].
        inversion Heq; subst id d.
        apply st_bind_ok in H as ([] & s2 & Hm & H).
        apply mark_visited_ok in Hm.
        apply IH in H as (Hs & added & -> & Hall).
        split; [eapply same_output_trans; [|eauto]; eapply same_output_trans; eauto|].
        exists ((other_proj, max_inst_data) :: added). split; [by rewrite <- app_assoc|].
        constructor; auto.
        right. split; auto. exists other_insts. split; [apply list_elem_of_here|].
        eapply enumerate_from_elem; eauto.
      * apply IH in H as (Hs & added & -> & Hall).
        split; [eapply same_output_trans; eauto|]. eauto.
Qed.

Lemma fold_clamp_sum (scores : list Q) (acc : Q) :
  (fold_right Qplus 0 (map clamp scores) + acc
   == acc + Qsum (map clamp scores))%Q.
Proof. unfold Qsum. apply Qplus_comm. Qed.

(** [proj_cons] ends as its initial value plus the clamped scores against
    the members from other folders. *)
Lemma sum_proj_cons_ok m l :
  forall acc s q s',
    sum_proj_cons m l acc s = Ok (q, s') ->
    same_output s s'
    /\ exists scores, pairwise_scores m (others m l) scores
                      /\ (q == acc + Qsum (map clamp scores))%Q.
Proof.
  induction l as [|o l IH]; intros acc s q s' H; simpl in H.
  - apply st_ret_ok in H as [-> ->]. split; auto.
    exists []. split; [constructor|]. simpl. ring.
  - unfold others. rewrite filter_cons. case_bool_decide as Hne.
    + rewrite decide_True by exact Hne.
      apply st_bind_ok in H as (sc & s1 & Hsc & H).
      apply call_scorer_ok in Hsc as [Hsc Hs1].
      apply IH in H as (Hs & scores & Hscores & Hq).
      split; [eapply same_output_trans; eauto|].
      exists (sc :: scores). split; [by constructor|].
      rewrite Hq. simpl. unfold clamp at 2. ring.
    + rewrite decide_False by tauto.
      apply IH in H. exact H.
Qed.

Lemma py_div_ok x y q : py_div x y = Ok q -> q = (x / y)%Q /\ ~ (y == 0)%Q.
Proof.
  unfold py_div. destruct (Qeq_bool y 0) eqn:E; [discriminate|].
  intros H; inversion H; subst. split; auto.
  intros Hy. apply Qeq_bool_iff in Hy. congruence.
Qed.

(** One pass of the scoring loop appends one row, scored as the source
    takes the mean. *)
Lemma score_match_ok all_projects image_name g m s u s' :
  score_match all_projects image_name g m s = Ok (u, s') ->
  groups s' = groups s /\ instance_id s' = instance_id s
  /\ exists scores sc,
       pairwise_scores m (others m g) scores
       /\ (sc == mean_over_all_folders (length all_projects) scores)%Q
       /\ image_data s' = image_data s
                          ++ [make_row image_name (instance_id s) m sc].
Proof.
  unfold score_match. intros H.
  apply st_bind_ok in H as (q & s1 & Hq & H).
  apply sum_proj_cons_ok in Hq as ((Hd & Hg & Hi) & scores & Hscores & Hq).
  apply st_bind_ok in H as (s1' & s1'' & Hget & H).
  inversion Hget; subst s1' s1''.
  apply st_bind_ok in H as (sc & s2 & Hdiv & H).
  apply st_lift_ok in Hdiv as [Hdiv ->].
  apply py_div_ok in Hdiv as [-> _].
  inversion H; subst; simpl.
  repeat split; auto.
  exists scores, (q / inject_Z (Z.of_nat (length all_projects) - 1))%Q.
  repeat split; auto.
  - unfold mean_over_all_folders. rewrite Hq, Qplus_0_l. reflexivity.
  - by rewrite Hd, Hi.
Qed.

Lemma score_loop_ok all_projects image_name g l :
  forall s s',
    st_for l (score_match all_projects image_name g) s = Ok (tt, s') ->
    groups s' = groups s /\ instance_id s' = instance_id s
    /\ exists rows,
         image_data s' = image_data s ++ rows
         /\ Forall2 (fun m r => exists scores sc,
                       pairwise_scores m (others m g) scores
                       /\ (sc == mean_over_all_folders (length all_projects) scores)%Q
                       /\ r = make_row image_name (instance_id s) m sc)
                    l rows.
Proof.
  induction l as [|m l IH]; intros s s' H; simpl in H.
  - apply st_ret_ok in H as [_ ->]. repeat split. exists [].
    split; [by rewrite app_nil_r | constructor].
  - apply st_bind_ok in H as (u & s1 & Hm & H).
    apply score_match_ok in Hm as (Hg1 & Hi1 & scores & sc & Hsc & Hmean & Hd1).
    apply IH in H as (Hg & Hi & rows & Hd & Hrows).
    repeat split; [congruence | congruence |].
    exists (make_row image_name (instance_id s) m sc :: rows). split.
    + rewrite Hd, Hd1, <- app_assoc. reflexivity.
    + constructor; [by exists scores, sc|].
      rewrite Hi1 in Hrows. exact Hrows.
Qed.

(** The rows appended for a group are its scored rows. *)
Lemma score_matches_ok all_projects image_name g s s' :
  score_matches all_projects image_name g s = Ok (tt, s') ->
  groups s' = groups s /\ instance_id s' = instance_id s
  /\ exists rows,
       image_data s' = image_data s ++ rows
       /\ scored_rows (length all_projects) image_name (instance_id s) g rows.
Proof.
  unfold score_matches, scored_rows.
  destruct g as [|m1 [|m2 g]]; intros H.
  - by apply score_loop_ok in H.
  - apply st_bind_ok in H as (s0 & s0' & Hget & H). inversion Hget; subst s0 s0'.
    inversion H; subst; simpl. repeat split. eauto.
  - by apply score_loop_ok in H.
Qed.


Lemma match_instance_ok annot_type all_projects image_name objs curr_proj insts curr s s' :
  (curr_proj, insts) ∈ objs -> curr ∈ enumerate insts ->
  matched objs (length all_projects) image_name s ->
  match_instance annot_type all_projects image_name objs curr_proj curr s = Ok (tt, s') ->
  matched objs (length all_projects) image_name s'.
Proof.
  intros Hproj Hcurr [(rowss & Hdata & Hrows) Hgroups] H. unfold match_instance in H.
  apply st_bind_ok in H as (v & s1 & Hv & H). apply visited_ok in Hv as ->.
  destruct v.
  { apply st_ret_ok in H as [_ ->]. split; eauto. }
  apply st_bind_ok in H as (g & s1 & Hfind & H).
  apply find_matches_ok in Hfind as ((Hd1 & Hg1 & Hi1) & added & Hg & Hadded).
  simpl in Hg. subst g.
  apply st_bind_ok in H as ([] & s2 & Hrec & H).
  inversion Hrec; subst s2; clear Hrec.
  apply st_bind_ok in H as ([] & s3 & Hscore & H).
  apply score_matches_ok in Hscore as (Hg3 & Hi3 & rows & Hd3 & Hscored).
  simpl in Hg3, Hi3, Hd3, Hscored.
  inversion H; subst s'; clear H. unfold matched; simpl.
  rewrite Hg3, Hd3, Hg1, Hd1. split.
  - exists (rowss ++ [rows]). split.
    + rewrite concat_app, Hdata. simpl. by rewrite app_nil_r.
    + apply Forall2_app; [exact Hrows|]. constructor; [eauto | constructor].
  - apply Forall_app. split; [exact Hgroups|]. constructor; [|constructor].
    exists (snd curr). eapply Forall_impl; [exact Hadded|].
    intros m [->|(Hc & insts' & Hin & Hm)]; simpl.
    + split; auto. exists insts. split; auto.
      destruct curr as [i d]. eapply enumerate_from_elem; eauto.
    + split; auto. eauto.
Qed.

Lemma match_instances_ok annot_type all_projects image_name objs s s' :
  matched objs (length all_projects) image_name s ->
  match_instances annot_type all_projects image_name objs s = Ok (tt, s') ->
  matched objs (length all_projects) image_name s'.
Proof.
  unfold match_instances. apply st_for_inv.
  intros [curr_proj insts] s1 s2 Hproj Hs1. simpl.
  apply st_for_inv; [|exact Hs1].
  intros curr s3 s4 Hcurr Hs3. eapply match_instance_ok; eauto.
Qed.

Lemma matched_initial objs n image_name :
  matched objs n image_name (initial_state objs).
Proof.
  split; simpl; [|constructor]. exists []. split; [reflexivity | constructor].
Qed.


Lemma dict_append_elem key v (d : projects) k insts :
  (k, insts) ∈ dict_append key v d ->
  (k, insts) ∈ d
  \/ (k = key /\ exists insts0, (k, insts0) ∈ d /\ insts = insts0 ++ [v]).
Proof.
  unfold dict_append. rewrite list_elem_of_In, in_map_iff.
  intros ([k0 insts0] & Heq & Hin). apply list_elem_of_In in Hin.
  simpl in Heq. case_bool_decide; inversion Heq; subst; eauto.
Qed.

Lemma generate_shapely_objs_ok annot_type all_rows image_df :
  forall objs objs',
    (forall row, row ∈ image_df -> row ∈ all_rows) ->
    from_table all_rows objs ->
    generate_shapely_objs annot_type image_df objs = Ok objs' ->
    from_table all_rows objs'.
Proof.
  induction image_df as [|row rest IH]; intros objs objs' Hsub Hobjs H; simpl in H.
  - inversion H; subst. exact Hobjs.
  - apply result_bind_ok in H as (g & _ & H).
    apply IH in H; [exact H | |].
    + intros r Hr. apply Hsub. by apply list_elem_of_further.
    + assert (Hnew : from_table all_rows
                (if dict_mem (df_folderName row) objs then objs
                 else objs ++ [(df_folderName row, [])])).
      { destruct (dict_mem _ _); [exact Hobjs|].
        intros k insts d Hk Hd. apply elem_of_app in Hk as [Hk|Hk]; [eauto|].
        apply list_elem_of_singleton in Hk. inversion Hk; subst.
        by apply elem_of_nil in Hd. }
      destruct (is_valid g); [|exact Hnew].
      intros k insts d Hk Hd.
      apply dict_append_elem in Hk as [Hk|(-> & insts0 & Hk & ->)]; [eauto|].
      apply elem_of_app in Hd as [Hd|Hd]; [eauto|].
      apply list_elem_of_singleton in Hd as ->. simpl.
      exists row. repeat split. apply Hsub, list_elem_of_here.
Qed.

(** What a run of [image_consensus] leaves in its locals. *)
Lemma image_consensus_run_ok df image_name annot_type s :
  image_consensus_run df image_name annot_type = Ok s ->
  exists objs,
    from_table (filter (fun row => df_imageName row = image_name) df) objs
    /\ matched objs (n_folders df) image_name s.
Proof.
  unfold image_consensus_run. intros H.
  apply result_bind_ok in H as (objs & Hgen & H).
  apply result_bind_ok in H as ([[] s1] & Hrun & H). inversion H; subst s1.
  exists objs. split.
  - eapply generate_shapely_objs_ok; [| |exact Hgen]; [auto|].
    intros k insts d Hk. by apply elem_of_nil in Hk.
  - eapply match_instances_ok; [|exact Hrun]. apply matched_initial.
Qed.


End ConsensusProperties.

(** ** The reference geometry obeys the laws *)

Lemma Qmax_same (x : Q) : Qmax x x = x.
Proof. unfold Qmax, GenericMinMax.gmax. destruct (x ?= x)%Q; reflexivity. Qed.

Lemma Qmin_same (x : Q) : Qmin x x = x.
Proof. unfold Qmin, GenericMinMax.gmin. destruct (x ?= x)%Q; reflexivity. Qed.

Lemma Qlt_bool_le (x y : Q) : Qlt_bool x y = true -> Qle_bool x y = true.
Proof.
  unfold Qlt_bool. intros H. apply negb_true_iff in H.
  apply Qle_bool_iff. destruct (Qlt_le_dec x y) as [Hlt|Hle].
  - by apply Qlt_le_weak.
  - apply Qle_bool_iff in Hle. congruence.
Qed.

Lemma planar_intersection_self (a : planar) :
  planar_type a = "Polygon" -> planar_valid a = true ->
  planar_intersection a a = a.
Proof.
  destruct a as [x0 y0 x1 y1| | | |]; simpl; try discriminate.
  intros _ Hv. apply andb_true_iff in Hv as [Hx Hy].
  rewrite !Qmax_same, !Qmin_same, (Qlt_bool_le _ _ Hx), (Qlt_bool_le _ _ Hy).
  reflexivity.
Qed.

Lemma Qsqrt6_zero (q : Q) : (q == 0)%Q -> (Qsqrt6 q == 0)%Q.
Proof.
  intros Hq. unfold Qsqrt6.
  assert (H : Qfloor (q * 1000000000000) = 0%Z).
  { rewrite (Qfloor_comp _ 0); [reflexivity|]. rewrite Hq. ring. }
  rewrite H. reflexivity.
Qed.

Lemma planar_laws : ShapelyLaws planar_shapely.
Proof.
  split; simpl.
  - intros a Ht Hv. eexists. split; [reflexivity|].
    by rewrite planar_intersection_self.
  - intros a Ht Hv. eexists. split; [reflexivity|]. unfold planar_union.
    rewrite planar_intersection_self by assumption. simpl. ring.
  - intros [ | x y | | | ]; simpl; try discriminate.
    intros _. apply Qsqrt6_zero. ring.
Qed.

(** ** The pairwise scorer *)

Section ScorerProperties.
Context {Sh : Shapely}.

Lemma instance_consensus_polygon (a b i u : geom) :
  geom_type a = "Polygon" -> geom_type b = "Polygon" ->
  geom_intersection a b = Ok i -> geom_union a b = Ok u ->
  instance_consensus a b = py_div (geom_area i) (geom_area u).
Proof.
  intros Ha Hb Hi Hu. unfold instance_consensus. rewrite Ha, Hb, Hi, Hu.
  reflexivity.
Qed.

(** C3, as the code has it: on two polygons whose intersection [i] and
    union [u] the library computes, the scorer divides the area of [i] by
    the area of [u] without a guard: it raises [ZeroDivisionError] when
    the union has area zero, and returns the quotient otherwise. *)
Theorem C3_scorer_divides_unguarded (a b i u : geom) :
  geom_type a = "Polygon" -> geom_type b = "Polygon" ->
  geom_intersection a b = Ok i -> geom_union a b = Ok u ->
  ((geom_area u == 0)%Q -> instance_consensus a b = Raise ZeroDivisionError)
  /\ (~ (geom_area u == 0)%Q ->
      instance_consensus a b = Ok (geom_area i / geom_area u)%Q).
Proof.
  intros Ha Hb Hi Hu. rewrite (instance_consensus_polygon a b i u) by assumption.
  unfold py_div. split; intros H.
  - apply Qeq_bool_iff in H. by rewrite H.
  - destruct (Qeq_bool _ 0) eqn:E; [|reflexivity].
    apply Qeq_bool_iff in E. contradiction.
Qed.

(** C9: the score of a valid polygon of non-zero area against itself is
    1, and the score of a point against itself is 0. *)
Theorem C9_scorer_reflexive `{!ShapelyLaws Sh} :
  (forall A : geom,
     geom_type A = "Polygon" -> is_valid A = true -> ~ (geom_area A == 0)%Q ->
     exists s, instance_consensus A A = Ok s /\ (s == 1)%Q)
  /\ (forall P : geom,
        geom_type P = "Point" ->
        exists s, instance_consensus P P = Ok s /\ (s == 0)%Q).
Proof.
  split.
  - intros A Ht Hv Hne.
    destruct (area_intersection_self A Ht Hv) as (i & Hi & Hia).
    destruct (area_union_self A Ht Hv) as (u & Hu & Hua).
    rewrite (instance_consensus_polygon A A i u) by assumption.
    unfold py_div. destruct (Qeq_bool _ 0) eqn:E.
    + apply Qeq_bool_iff in E. rewrite Hua in E. contradiction.
    + eexists. split; [reflexivity|].
      rewrite Hia, Hua. field. exact Hne.
  - intros P Ht. unfold instance_consensus. rewrite Ht. simpl.
    eexists. split; [reflexivity|].
    rewrite distance_self by assumption. ring.
Qed.

End ScorerProperties.

(** C3 as stated fails: two degenerate boxes are polygons whose union has
    area zero, and the scorer raises instead of returning 0. *)
Lemma C3_counterexample :
  geom_type (box 0 0 0 0) = "Polygon"
  /\ (exists u, geom_union (box 0 0 0 0) (box 0 0 0 0) = Ok u
                /\ (geom_area u == 0)%Q)
  /\ instance_consensus (box 0 0 0 0) (box 0 0 0 0) = Raise ZeroDivisionError
  /\ instance_consensus (box 0 0 0 0) (box 0 0 0 0) <> Ok 0%Q.
Proof.
  split; [reflexivity|]. split; [eexists; split; [reflexivity|]; vm_compute; reflexivity|].
  split; vm_compute; congruence.
Qed.

Lemma C3_witness :
  instance_consensus (box 0 0 0 0) (box 0 0 0 0) = Raise ZeroDivisionError
  /\ instance_consensus (box 0 0 2 2) (box 1 0 3 2)
     = Ok (geom_area (planar_intersection (PBox 0 0 2 2) (PBox 1 0 3 2))
           / geom_area (planar_union (PBox 0 0 2 2) (PBox 1 0 3 2)))%Q.
Proof.
  split.
  - apply (@C3_scorer_divides_unguarded planar_shapely
             (PBox 0 0 0 0) (PBox 0 0 0 0)
             (planar_intersection (PBox 0 0 0 0) (PBox 0 0 0 0))
             (planar_union (PBox 0 0 0 0) (PBox 0 0 0 0)));
      reflexivity.
  - apply (@C3_scorer_divides_unguarded planar_shapely
             (PBox 0 0 2 2) (PBox 1 0 3 2)
             (planar_intersection (PBox 0 0 2 2) (PBox 1 0 3 2))
             (planar_union (PBox 0 0 2 2) (PBox 1 0 3 2)));
      [reflexivity | reflexivity | reflexivity | reflexivity
      | vm_compute; discriminate].
Defined.

Lemma C9_witness :
  (exists s, instance_consensus (box 0 0 2 2) (box 0 0 2 2) = Ok s /\ (s == 1)%Q)
  /\ (exists s, instance_consensus (Point 1 2) (Point 1 2) = Ok s /\ (s == 0)%Q).
Proof.
  destruct (@C9_scorer_reflexive planar_shapely planar_laws) as [Hpoly Hpoint].
  split.
  - apply Hpoly; [reflexivity | reflexivity | vm_compute; discriminate].
  - apply Hpoint. reflexivity.
Defined.

(** ** The instance matcher *)

Section MatcherProperties.
Context {Sh : Shapely}.
Local Abbreviation inst_data := (inst_data geom) (only parsing).
Local Abbreviation match_data := (match_data geom) (only parsing).
Local Abbreviation projects := (projects geom) (only parsing).
Local Abbreviation state := (state geom) (only parsing).

(** C1, as the code has it: in a group of more than one instance the
    score of each member is the sum of its clamped pairwise scores against
    the members from other folders, divided by the number of distinct
    folders of the whole table less one. *)
Theorem C1_score_divides_by_all_folders df image_name annot_type s :
  image_consensus_run df image_name annot_type = Ok s ->
  exists rowss,
    image_data s = concat rowss
    /\ Forall2 (fun g rows =>
         (1 < length g)%nat ->
         Forall2 (fun m r =>
                    folderName r = fst m
                    /\ exists scores,
                         pairwise_scores m (others m g) scores
                         /\ (score r == mean_over_all_folders (n_folders df) scores)%Q)
                 g rows)
       (groups s) rowss.
Proof.
  intros H. apply image_consensus_run_ok in H as (objs & _ & (rowss & Hdata & Hrows) & _).
  exists rowss. split; [exact Hdata|].
  eapply Forall2_impl; [exact Hrows|]. clear.
  intros g rows [id Hscored] Hlen. unfold scored_rows in Hscored.
  destruct g as [|m1 [|m2 g]]; simpl in Hlen; try lia.
  eapply Forall2_impl; [exact Hscored|].
  intros m r (scores & sc & Hsc & Hmean & ->). simpl. eauto.
Qed.

(** C2, as the code has it: the class test follows the call of the
    scorer and only gates which candidate is taken.  A search of a folder
    that returns has called the scorer once on every candidate not yet
    visited, in their order and whatever their class, and the candidate
    it takes, if any, has the class of the current instance; so no group
    of a run ever holds two instances of different classes. *)
Theorem C2_class_gates_after_scoring :
  (forall (curr : inst_data) other_proj cands max_score best (s : state) best' s',
     search curr other_proj cands max_score best s = Ok (best', s') ->
     scorer_calls s'
     = scorer_calls s
       ++ map (fun c => (curr, snd c))
            (filter (fun c => flag s other_proj (fst c) = Some false) cands)
     /\ (best' = best
         \/ exists c, c ∈ cands /\ best' = Some c
                      /\ inst_class (snd c) = inst_class curr))
  /\ (forall df image_name annot_type (s : state),
        image_consensus_run df image_name annot_type = Ok s ->
        forall g m m',
          g ∈ groups s -> m ∈ g -> m' ∈ g ->
          inst_class (snd m) = inst_class (snd m')).
Proof.
  split.
  - intros curr other_proj cands max_score best s best' s' H. split.
    + by destruct (search_calls _ _ _ _ _ _ _ _ H).
    + apply search_ok in H as [_ [->|(id & d & -> & Hin & Hc)]]; [by left|].
      right. exists (id, d). auto.
  - intros df image_name annot_type s H g m m' Hg Hm Hm'.
    apply image_consensus_run_ok in H as (objs & _ & _ & Hgroups).
    rewrite Forall_forall in Hgroups. destruct (Hgroups g Hg) as [seed Hseed].
    rewrite Forall_forall in Hseed.
    destruct (Hseed m Hm) as [-> _]. destruct (Hseed m' Hm') as [-> _]. reflexivity.
Qed.


End MatcherProperties.

(** C1 as stated fails.  With three folders in the table and a group of
    the two identical [car] boxes of [A] and [B], the one other folder of
    the group scores 1, so the mean over the folders of the group is 1;
    the row of [A] carries 1/2. *)
Lemma C1_counterexample :
  let run := image_consensus_run three_folders "img" "bbox" in
  let a := member_of "A" "car" (PBox 0 0 2 2) in
  let b := member_of "B" "car" (PBox 0 0 2 2) in
  exists r sc,
    result_map (fun s => head (groups s)) run = Ok (Some [a; b])
    /\ result_map (fun s => head (image_data s)) run = Ok (Some r)
    /\ folderName r = fst a
    /\ others a [a; b] = [b]
    /\ pairwise_scores a [b] [sc]
    /\ (mean_over_group_folders [sc] == 1)%Q
    /\ (score r == 1 # 2)%Q
    /\ ~ (score r == mean_over_group_folders [sc])%Q.
Proof.
  intros run a b.
  exists (make_row "img" 0 a (4 # 8)), (4 # 4)%Q.
  split; [vm_compute; reflexivity|].
  split; [vm_compute; reflexivity|].
  split; [reflexivity|].
  split; [vm_compute; reflexivity|].
  split; [constructor; [vm_compute; reflexivity | constructor]|].
  split; [vm_compute; reflexivity|].
  split; [vm_compute; reflexivity|].
  vm_compute. discriminate.
Qed.

Lemma C1_witness :
  exists s,
    image_consensus_run three_folders "img" "bbox" = Ok s
    /\ exists rowss,
         image_data s = concat rowss
         /\ Forall2 (fun g rows =>
              (1 < length g)%nat ->
              Forall2 (fun m r =>
                         folderName r = fst m
                         /\ exists scores,
                              pairwise_scores m (others m g) scores
                              /\ (score r
                                  == mean_over_all_folders (n_folders three_folders)
                                       scores)%Q)
                      g rows)
            (groups s) rowss.
Proof.
  destruct (ok_exists (image_consensus_run three_folders "img" "bbox")) as [s Hs];
    [vm_compute; reflexivity|].
  exists s. split; [exact Hs|].
  exact (C1_score_divides_by_all_folders _ _ _ _ Hs).
Defined.

(** C2 as stated fails: searching folder [C] for a match of the [car] box
    of [A], the scorer is called on the [car] box and the [dog] box. *)
Lemma C2_counterexample :
  result_map
    (fun s => map (fun c => (inst_class (fst c), inst_class (snd c)))
                  (scorer_calls s))
    (image_consensus_run three_folders "img" "bbox")
  = Ok [("car", "car"); ("car", "dog"); ("car", "car"); ("car", "car")].
Proof. vm_compute. reflexivity. Qed.

Lemma C2_witness :
  let curr := snd (member_of "A" "car" (PBox 0 0 2 2)) in
  let cands := enumerate [ snd (member_of "C" "dog" (PBox 0 0 2 2));
                           snd (member_of "C" "car" (PBox 1 0 3 2)) ] in
  let s0 := initial_state [(Some "A", [curr]); (Some "C", map snd cands)] in
  (exists best' s',
     search curr (Some "C") cands (Fin 0) None s0 = Ok (best', s')
     /\ scorer_calls s'
        = scorer_calls s0
          ++ map (fun c => (curr, snd c))
               (filter (fun c => flag s0 (Some "C") (fst c) = Some false) cands)
     /\ (best' = None
         \/ exists c, c ∈ cands /\ best' = Some c
                      /\ inst_class (snd c) = inst_class curr))
  /\ exists s,
       image_consensus_run three_folders "img" "bbox" = Ok s
       /\ forall g m m',
            g ∈ groups s -> m ∈ g -> m' ∈ g ->
            inst_class (snd m) = inst_class (snd m').
Proof.
  intros curr cands s0.
  destruct (@C2_class_gates_after_scoring planar_shapely) as [Hsearch Hgroups].
  split.
  - destruct (ok_exists (search curr (Some "C") cands (Fin 0) None s0))
      as [[best' s'] Hs']; [vm_compute; reflexivity|].
    exists best', s'. split; [exact Hs'|].
    exact (Hsearch _ _ _ _ _ _ _ _ Hs').
  - destruct (ok_exists (image_consensus_run three_folders "img" "bbox")) as [s Hs];
      [vm_compute; reflexivity|].
    exists s. split; [exact Hs|].
    exact (Hgroups _ _ _ _ Hs).
Defined.


(** ** Aggregation *)

Lemma Ok_inj {A} (a b : A) : Ok a = Ok b -> a = b.
Proof. congruence. Qed.

Lemma lookup_table_row cols (d : gmap string json) key :
  table_row cols d !! key
  = if decide (key ∈ cols) then Some (default JNull (d !! key)) else None.
Proof.
  unfold table_row. induction cols as [|c cols IH]; simpl.
  - rewrite lookup_empty.
    destruct (decide (key ∈ [])) as [Hin|]; [by apply elem_of_nil in Hin | done].
  - rewrite lookup_insert, IH.
    destruct (decide (c = key)) as [->|Hne], (decide (key ∈ cols)) as [Hin|Hnin],
      (decide (_ ∈ _ :: cols)) as [Hin'|Hnin']; try done.
    + exfalso. apply Hnin', list_elem_of_here.
    + exfalso. apply Hnin', list_elem_of_here.
    + exfalso. by apply Hnin', list_elem_of_further.
    + apply elem_of_cons in Hin' as [->|Hin']; congruence.
Qed.

Lemma cell_table_row cols (d : gmap string json) key :
  key ∈ cols -> cell key (table_row cols d) = default JNull (d !! key).
Proof.
  intros Hin. unfold cell. rewrite lookup_table_row.
  destruct (decide (key ∈ cols)); [done | contradiction].
Qed.

Lemma in_columns key include_comments include_tags :
  key ∈ base_columns -> key ∈ columns include_comments include_tags.
Proof. intros H. unfold columns. apply elem_of_app. by left. Qed.

(** A cell of a row built for [annotation_dict], when neither block of
    metadata has the key. *)
Lemma cell_of_dict cols (image_metadata user_metadata annotation_dict : gmap string json) key :
  key ∈ cols ->
  image_metadata !! key = None -> user_metadata !! key = None ->
  cell key (table_row cols (image_metadata ∪ (user_metadata ∪ annotation_dict)))
  = default JNull (annotation_dict !! key).
Proof.
  intros Hin Him Hum. rewrite cell_table_row by exact Hin.
  by rewrite lookup_union_r, lookup_union_r.
Qed.

Lemma get_image_metadata_keys image_name annotations image_metadata key :
  get_image_metadata image_name annotations = Ok image_metadata ->
  key ∉ image_metadata_keys -> image_metadata !! key = None.
Proof.
  unfold get_image_metadata.
  repeat (match goal with
          | |- context [result_bind ?m _] =>
              destruct m; cbn [result_bind]; [|discriminate]
          end).
  intros H%Ok_inj Hkey. rewrite <- H. apply not_elem_of_list_to_map_1, Hkey.
Qed.

Lemma get_user_metadata_keys annotation user_metadata key :
  get_user_metadata annotation = Ok user_metadata ->
  key ∉ user_metadata_keys -> user_metadata !! key = None.
Proof.
  unfold get_user_metadata.
  repeat (match goal with
          | |- context [result_bind ?m _] =>
              destruct m; cbn [result_bind]; [|discriminate]
          end).
  intros H%Ok_inj Hkey. rewrite <- H. apply not_elem_of_list_to_map_1, Hkey.
Qed.

(** [key ∉ keys] for a literal key and literal keys. *)
Ltac fresh_key :=
  repeat (apply not_elem_of_cons; split; [discriminate|]); apply not_elem_of_nil.

(** [key ∈ keys] for a literal key and literal keys. *)
Ltac listed_key :=
  repeat (first [apply list_elem_of_here | apply list_elem_of_further]).

Lemma folderName_column include_comments include_tags :
  "folderName" ∈ columns include_comments include_tags.
Proof. apply in_columns. unfold base_columns. listed_key. Qed.

(** [H : (let* x := st_lift r in k) s = Ok _] becomes [Hx : r = Ok x] and
    [H : k x s = Ok _]. *)
Tactic Notation "lift_in" hyp(H) "as" ident(x) ident(Hx) :=
  let s1 := fresh "s" in
  apply st_bind_ok in H as (x & s1 & Hx & H);
  apply st_lift_ok in Hx as [Hx ?]; subst s1.

Section AggregateProperties.
Variable cols : list string.
Variable class_name_to_color : gmap string string.
Variable class_group_name_to_values : gmap string (gmap string (list string)).

Lemma appended_nil s s' : annotation_data s' = annotation_data s -> appended [] s s'.
Proof. unfold appended. intros ->. by rewrite app_nil_r. Qed.

Lemma appended_refl s : appended [] s s.
Proof. by apply appended_nil. Qed.

Lemma appended_trans rows1 rows2 s1 s2 s3 :
  appended rows1 s1 s2 -> appended rows2 s2 s3 -> appended (rows1 ++ rows2) s1 s3.
Proof. unfold appended. intros H1 H2. by rewrite H2, H1, app_assoc. Qed.

Lemma warn_ok fmt arg s u s' :
  warn fmt arg s = Ok (u, s') ->
  appended [] s s' /\ annotation_instance_id s' = annotation_instance_id s.
Proof. intros H. inversion H; subst. split; [by apply appended_nil | reflexivity]. Qed.

Lemma append_annotation_ok d s u s' :
  append_annotation cols d s = Ok (u, s') ->
  appended [table_row cols d] s s'
  /\ annotation_instance_id s' = annotation_instance_id s.
Proof. intros H. inversion H; subst. split; reflexivity. Qed.

(** The rows of the loop over the attributes of an instance: one for each
    attribute the loop accepted, counted by [num_added]. *)
Lemma add_attributes_rows f user_metadata image_metadata attributes :
  forall num_added s n' s',
    add_attributes cols class_group_name_to_values f user_metadata image_metadata
      attributes num_added s = Ok (n', s') ->
    exists dicts,
      appended (map (fun d => table_row cols (image_metadata ∪ (user_metadata ∪ d)))
                    dicts) s s'
      /\ Forall (fun d => exists g nm, d = attribute_dict f g nm) dicts
      /\ annotation_instance_id s' = annotation_instance_id s
      /\ n' = (num_added + length dicts)%nat.
Proof.
  induction attributes as [|attribute rest IH]; intros num_added s n' s' H; simpl in H.
  - apply st_ret_ok in H as [-> ->]. exists []. simpl.
    repeat split; [apply appended_refl | constructor | lia].
  - lift_in H as attribute_group Hgroup.
    lift_in H as attribute_name Hname.
    lift_in H as groups_of_class Hgroups.
    lift_in H as values Hvalues.
    destruct values as [names|].
    + destruct (list_mem attribute_name names).
      * apply st_bind_ok in H as ([] & s1 & Happ & H).
        apply append_annotation_ok in Happ as [Happ Hid].
        apply IH in H as (dicts & Hrows & Hdicts & Hid' & ->).
        exists (attribute_dict f attribute_group attribute_name :: dicts).
        repeat split.
        -- exact (appended_trans _ _ _ _ _ Happ Hrows).
        -- constructor; eauto.
        -- congruence.
        -- simpl. lia.
      * apply st_bind_ok in H as ([] & s1 & Hwarn & H).
        apply warn_ok in Hwarn as [Hwarn Hid].
        apply IH in H as (dicts & Hrows & Hdicts & Hid' & ->).
        exists dicts. repeat split; auto; [|congruence].
        exact (appended_trans _ _ _ _ _ Hwarn Hrows).
    + apply st_bind_ok in H as ([] & s1 & Hwarn & H).
      apply warn_ok in Hwarn as [Hwarn Hid].
      apply IH in H as (dicts & Hrows & Hdicts & Hid' & ->).
      exists dicts. repeat split; auto; [|congruence].
      exact (appended_trans _ _ _ _ _ Hwarn Hrows).
Qed.

(** The rows of one instance: none when the instance is skipped, else
    rows built from the fields read off the instance. *)
Lemma add_instance_rows image_name image_metadata annotation_path annotation s s' :
  add_instance cols class_name_to_color class_group_name_to_values
    image_name image_metadata annotation_path annotation s = Ok (tt, s') ->
  exists user_metadata f dicts,
    appended (map (fun d => table_row cols (image_metadata ∪ (user_metadata ∪ d)))
                  dicts) s s'
    /\ ((dicts = []
         /\ forall name, get annotation "className" = Ok (JStr name) ->
                         class_name_to_color !! name = None)
        \/ (get_user_metadata annotation = Ok user_metadata
            /\ get_default annotation "type" (JStr "mask") = Ok (f_type f)
            /\ make_meta (f_type f) annotation = Ok (f_meta f)
            /\ f_folder_name f = folder_name_of annotation_path
            /\ Forall (fun d => d = instance_dict f
                                \/ exists g nm, d = attribute_dict f g nm) dicts)).
Proof.
  unfold add_instance. intros H.
  lift_in H as annotation_type Htype.
  lift_in H as annotation_class_name Hclass.
  lift_in H as found Hfound.
  assert (Hskip : forall fmt arg,
            (forall name, get annotation "className" = Ok (JStr name) ->
                          class_name_to_color !! name = None) ->
            warn fmt arg s = Ok (tt, s') ->
            exists (user_metadata : gmap string json) (f : instance_fields)
                   (dicts : list (gmap string json)),
              appended (map (fun d => table_row cols
                                        (image_metadata ∪ (user_metadata ∪ d)))
                            dicts) s s'
              /\ ((dicts = []
                   /\ forall name, get annotation "className" = Ok (JStr name) ->
                                   class_name_to_color !! name = None)
                  \/ (get_user_metadata annotation = Ok user_metadata
                      /\ get_default annotation "type" (JStr "mask") = Ok (f_type f)
                      /\ make_meta (f_type f) annotation = Ok (f_meta f)
                      /\ f_folder_name f = folder_name_of annotation_path
                      /\ Forall (fun d => d = instance_dict f
                                          \/ exists g nm, d = attribute_dict f g nm)
                                dicts))).
  { intros fmt arg Hunknown Hw. apply warn_ok in Hw as [Hw _].
    exists ∅, (Build_instance_fields "" 0 "" JNull JNull JNull JNull JNull JNull
                 JNull JNull "" JNull JNull), [].
    split; [exact Hw | by left]. }
  destruct annotation_class_name as [| | |name| |];
    try (by eapply Hskip; [intros ? Hn; rewrite Hclass in Hn; discriminate | exact H]).
  destruct found as [annotation_class_color|].
  2:{ eapply Hskip; [|exact H]. intros n Hn. rewrite Hclass in Hn.
      injection Hn as <-. simpl in Hfound. congruence. }
  clear Hskip.
  lift_in H as annotation_group_id Hgid.
  lift_in H as annotation_locked Hlocked.
  lift_in H as annotation_visible Hvisible.
  lift_in H as annotation_tracking_id Htid.
  lift_in H as annotation_meta Hmeta.
  lift_in H as annotation_error Herror.
  lift_in H as annotation_probability Hprob.
  lift_in H as annotation_point_labels Hlabels.
  lift_in H as attributes Hattrs.
  lift_in H as user_metadata Huser.
  apply st_bind_ok in H as (current_id & s1 & Hget & H). inversion Hget; subst s1.
  apply st_bind_ok in H as (num_added & s1 & Hadd & H).
  set (f := Build_instance_fields _ _ _ _ _ _ _ _ _ _ _ _ _ _) in Hadd.
  assert (Hend : appended [] s1 s').
  { destruct (0 <? num_added)%nat.
    - inversion H; subst. by apply appended_nil.
    - apply st_ret_ok in H as [_ ->]. apply appended_refl. }
  exists user_metadata, f.
  destruct (truthy attributes).
  - lift_in Hadd as items Hitems.
    apply add_attributes_rows in Hadd as (dicts & Hrows & Hdicts & _ & _).
    exists dicts. split.
    + pose proof (appended_trans _ _ _ _ _ Hrows Hend) as Happ.
      by rewrite app_nil_r in Happ.
    + right. repeat split; auto.
      eapply Forall_impl; [exact Hdicts|]. intros d Hd. by right.
  - apply st_bind_ok in Hadd as ([] & s2 & Happ & Hadd).
    apply append_annotation_ok in Happ as [Happ _].
    apply st_ret_ok in Hadd as [_ ->].
    exists [instance_dict f]. split.
    + exact (appended_trans _ _ _ _ _ Happ Hend).
    + right. repeat split; auto.
Qed.

End AggregateProperties.

Lemma get_default_obj fields key dflt :
  get_default (JObj fields) key dflt = Ok (default dflt (assoc_get key fields)).
Proof. unfold get_default. by destruct (assoc_get key fields). Qed.

Lemma get_obj fields key :
  get (JObj fields) key = Ok (default JNull (assoc_get key fields)).
Proof. apply get_default_obj. Qed.


Lemma instance_dict_lookup f :
  instance_dict f !! "type" = Some (f_type f)
  /\ instance_dict f !! "meta" = Some (f_meta f)
  /\ instance_dict f !! "folderName" = Some (f_folder_name f)
  /\ instance_dict f !! "attributeGroupName" = None
  /\ instance_dict f !! "attributeName" = None.
Proof. repeat split. Qed.

Lemma attribute_dict_lookup f g nm :
  attribute_dict f g nm !! "type" = Some (f_type f)
  /\ attribute_dict f g nm !! "meta" = Some (f_meta f)
  /\ attribute_dict f g nm !! "folderName" = Some (f_folder_name f)
  /\ attribute_dict f g nm !! "attributeGroupName" = Some g
  /\ attribute_dict f g nm !! "attributeName" = Some nm.
Proof. repeat split. Qed.

(** The cells every row of an instance shares. *)
Lemma instance_row_cells include_comments include_tags image_name annotations
    image_metadata annotation user_metadata f d :
  get_image_metadata image_name annotations = Ok image_metadata ->
  get_user_metadata annotation = Ok user_metadata ->
  d = instance_dict f \/ (exists g nm, d = attribute_dict f g nm) ->
  let row := table_row (columns include_comments include_tags)
               (image_metadata ∪ (user_metadata ∪ d)) in
  cell "type" row = f_type f /\ cell "meta" row = f_meta f
  /\ cell "folderName" row = f_folder_name f.
Proof.
  intros Him Hum Hd row. subst row.
  rewrite !cell_of_dict;
    try (apply in_columns; unfold base_columns; listed_key);
    try (eapply get_image_metadata_keys; [exact Him | fresh_key]);
    try (eapply get_user_metadata_keys; [exact Hum | fresh_key]).
  destruct Hd as [->|(g & nm & ->)].
  - by destruct (instance_dict_lookup f) as (-> & -> & -> & _).
  - by destruct (attribute_dict_lookup f g nm) as (-> & -> & -> & _).
Qed.

(** On attributes of the export format the loop over the attributes
    returns, with one row for each attribute that validates. *)
Lemma add_attributes_total cols class_group_name_to_values f user_metadata
    image_metadata groups_of_class attributes :
  class_group_name_to_values !! f_class_name f = Some groups_of_class ->
  Forall attribute_ok attributes ->
  forall num_added s, exists s',
    add_attributes cols class_group_name_to_values f user_metadata image_metadata
      attributes num_added s
    = Ok ((num_added
           + length (List.filter (validates groups_of_class) attributes))%nat, s')
    /\ appended
         (map (fun a => table_row cols
                          (image_metadata
                           ∪ (user_metadata
                              ∪ attribute_dict f (attribute_field "groupName" a)
                                  (attribute_field "name" a))))
              (List.filter (validates groups_of_class) attributes)) s s'
    /\ annotation_instance_id s' = annotation_instance_id s.
Proof.
  intros Hgroups Hok. induction Hok as [|attribute rest Hattr _ IH];
    intros num_added s.
  - exists s. simpl. rewrite Nat.add_0_r. repeat split. apply appended_refl.
  - destruct attribute as [| | | | |fields]; try contradiction.
    cbn [add_attributes]. rewrite !get_obj. cbn [st_bind st_lift].
    rewrite Hgroups. cbn [st_bind st_lift List.filter].
    assert (Hv : validates groups_of_class (JObj fields)
                 = match default JNull (assoc_get "groupName" fields) with
                   | JStr g =>
                       match groups_of_class !! g with
                       | Some names =>
                           list_mem (default JNull (assoc_get "name" fields)) names
                       | None => false
                       end
                   | _ => false
                   end) by reflexivity.
    assert (Hgrp : match default JNull (assoc_get "groupName" fields) with
                   | JArr _ | JObj _ => False
                   | _ => True
                   end).
    { simpl in Hattr. by destruct (assoc_get "groupName" fields) as [[]|]. }
    change (attribute_field "groupName" (JObj fields))
      with (default JNull (assoc_get "groupName" fields)) in *.
    remember (default JNull (assoc_get "groupName" fields)) as grp eqn:Egrp.
    set (nm := default JNull (assoc_get "name" fields)) in *.
    assert (Hskip : validates groups_of_class (JObj fields) = false ->
      forall fmt arg,
      exists s',
        st_bind (warn fmt arg)
          (fun _ => add_attributes cols class_group_name_to_values f user_metadata
                      image_metadata rest num_added) s
        = Ok ((num_added
               + length (if validates groups_of_class (JObj fields)
                         then JObj fields
                              :: List.filter (validates groups_of_class) rest
                         else List.filter (validates groups_of_class) rest))%nat,
              s')
        /\ appended
             (map (fun a => table_row cols
                              (image_metadata
                               ∪ (user_metadata
                                  ∪ attribute_dict f (attribute_field "groupName" a)
                                      (attribute_field "name" a))))
                  (if validates groups_of_class (JObj fields)
                   then JObj fields :: List.filter (validates groups_of_class) rest
                   else List.filter (validates groups_of_class) rest)) s s'
        /\ annotation_instance_id s' = annotation_instance_id s).
    { intros -> fmt arg. unfold st_bind, warn, st_modify.
      match goal with
      | |- context [add_attributes _ _ _ _ _ rest num_added ?s1] =>
          destruct (IH num_added s1) as (s' & Hrun & Happ & Hid)
      end.
      exists s'. repeat split; [exact Hrun | exact Happ | exact Hid]. }
    destruct grp as [| | |g| |]; try contradiction;
      try (by apply Hskip).
    simpl dict_lookup. cbn [st_bind st_lift].
    destruct (groups_of_class !! g) as [names|]; [|by apply Hskip].
    destruct (list_mem nm names); [|by apply Hskip].
    rewrite Hv.
    unfold st_bind at 1, append_annotation, st_modify.
    match goal with
    | |- context [add_attributes _ _ _ _ _ rest (S num_added) ?s1] =>
        destruct (IH (S num_added) s1) as (s' & Hrun & Happ & Hid)
    end.
    exists s'. split; [|split].
    + rewrite Hrun. f_equal. f_equal. simpl. lia.
    + unfold appended in *. simpl in Happ. simpl map.
      change (attribute_field "groupName" (JObj fields))
        with (default JNull (assoc_get "groupName" fields)).
      rewrite <- Egrp, Happ, <- app_assoc. reflexivity.
    + exact Hid.
Qed.

Lemma Forall2_map_diag {A B} (P : A -> B -> Prop) (F : A -> B) (l : list A) :
  (forall a, P a (F a)) -> Forall2 P l (map F l).
Proof. intros H. induction l; simpl; constructor; auto. Qed.

Lemma filter_none {A} (p : A -> bool) (l : list A) :
  Forall (fun a => p a = false) l -> List.filter p l = [].
Proof. induction 1 as [|a l Ha _ IH]; simpl; [reflexivity|]. by rewrite Ha. Qed.


(** The loop body on an instance whose class the classes file does not
    hold: the table and the counter stay, one warning is logged. *)
Lemma add_instance_unknown cols class_name_to_color class_group_name_to_values
    image_name image_metadata annotation_path fields s :
  class_unknown class_name_to_color fields ->
  add_instance cols class_name_to_color class_group_name_to_values
    image_name image_metadata annotation_path (JObj fields) s
  = Ok (tt,
        {| annotation_data := annotation_data s;
           warnings :=
             warnings s
             ++ [{| warning_fmt :=
                      "Annotation class %s not found in classes json. Skipping.";
                    warning_arg := default JNull (assoc_get "className" fields) |}];
           annotation_instance_id := annotation_instance_id s |}).
Proof.
  unfold class_unknown, add_instance. intros Hunknown.
  rewrite get_default_obj, get_obj. cbn [st_bind st_lift].
  destruct (assoc_get "className" fields) as [[| | |name| |]|]; simpl in *;
    try contradiction; try reflexivity.
  rewrite Hunknown. reflexivity.
Qed.

(** The loop body on an instance of a known class whose payload and actor
    blocks can be read: the rows of its attributes, or its one row, and
    then the step of the instance counter. *)
Lemma add_instance_known cols class_name_to_color class_group_name_to_values
    image_name image_metadata annotation_path fields name color meta
    user_metadata s :
  assoc_get "className" fields = Some (JStr name) ->
  class_name_to_color !! name = Some color ->
  make_meta (default (JStr "mask") (assoc_get "type" fields)) (JObj fields)
  = Ok meta ->
  get_user_metadata (JObj fields) = Ok user_metadata ->
  let f := fields_read image_name (annotation_instance_id s) name color meta
             annotation_path fields in
  add_instance cols class_name_to_color class_group_name_to_values
    image_name image_metadata annotation_path (JObj fields) s
  = st_bind
      (if truthy (default JNull (assoc_get "attributes" fields)) then
         st_bind (st_lift (as_list (default JNull (assoc_get "attributes" fields))))
           (fun items =>
              add_attributes cols class_group_name_to_values f user_metadata
                image_metadata items 0)
       else
         st_bind
           (append_annotation cols
              (image_metadata ∪ (user_metadata ∪ instance_dict f)))
           (fun _ => st_ret 1%nat))
      (fun num_added =>
         if (0 <? num_added)%nat
         then set_instance_id (S (annotation_instance_id s))
         else st_ret tt) s.
Proof.
  intros Hclass Hcolor Hmeta Hum f. unfold add_instance.
  rewrite get_default_obj, get_obj, Hclass. cbn [st_bind st_lift].
  simpl dict_lookup. rewrite Hcolor. cbn [st_bind st_lift].
  rewrite !get_obj. cbn [st_bind st_lift].
  rewrite Hmeta. cbn [st_bind st_lift].
  rewrite ?get_obj. cbn [st_bind st_lift].
  rewrite Hum. cbn [st_bind st_lift read_instance_id].
  reflexivity.
Qed.

(** The same without attributes: exactly one row. *)
Lemma add_instance_plain cols class_name_to_color class_group_name_to_values
    image_name image_metadata annotation_path fields name color meta
    user_metadata s :
  assoc_get "className" fields = Some (JStr name) ->
  class_name_to_color !! name = Some color ->
  make_meta (default (JStr "mask") (assoc_get "type" fields)) (JObj fields)
  = Ok meta ->
  get_user_metadata (JObj fields) = Ok user_metadata ->
  truthy (default JNull (assoc_get "attributes" fields)) = false ->
  add_instance cols class_name_to_color class_group_name_to_values
    image_name image_metadata annotation_path (JObj fields) s
  = Ok (tt,
        {| annotation_data :=
             annotation_data s
             ++ [table_row cols
                   (image_metadata
                    ∪ (user_metadata
                       ∪ instance_dict
                           (fields_read image_name (annotation_instance_id s) name
                              color meta annotation_path fields)))];
           warnings := warnings s;
           annotation_instance_id := S (annotation_instance_id s) |}).
Proof.
  intros Hclass Hcolor Hmeta Hum Hfalse.
  rewrite (add_instance_known _ _ _ _ _ _ _ _ _ _ _ _ Hclass Hcolor Hmeta Hum).
  rewrite Hfalse. reflexivity.
Qed.

(** ** The warnings do not steer the aggregation *)

Lemma insensitive_ret {A} (a : A) : insensitive (st_ret a).
Proof. intros s1 s2 H. simpl. auto. Qed.

Lemma insensitive_lift {A} (r : result A) : insensitive (st_lift r).
Proof. intros s1 s2 H. unfold st_lift. destruct r; simpl; auto. Qed.

Lemma insensitive_bind {A B} (m : M agg_state A) (k : A -> M agg_state B) :
  insensitive m -> (forall a, insensitive (k a)) -> insensitive (st_bind m k).
Proof.
  intros Hm Hk s1 s2 H. specialize (Hm s1 s2 H). unfold st_bind.
  destruct (m s1) as [[a1 t1]|e1], (m s2) as [[a2 t2]|e2]; simpl in Hm;
    try contradiction; [|exact Hm].
  destruct Hm as [-> Ht]. by apply Hk.
Qed.

Lemma insensitive_for {A} (xs : list A) (body : A -> M agg_state unit) :
  (forall x, insensitive (body x)) -> insensitive (st_for xs body).
Proof.
  intros Hbody. induction xs as [|x xs IH]; simpl.
  - apply insensitive_ret.
  - apply insensitive_bind; auto.
Qed.

Lemma insensitive_warn fmt arg : insensitive (warn fmt arg).
Proof. intros s1 s2 [Hd Hi]. simpl. repeat split; auto. Qed.

Lemma insensitive_append cols d : insensitive (append_annotation cols d).
Proof. intros s1 s2 [Hd Hi]. simpl. repeat split; simpl; congruence. Qed.

Lemma insensitive_set_instance_id n : insensitive (set_instance_id n).
Proof. intros s1 s2 [Hd Hi]. simpl. repeat split; auto. Qed.

Lemma insensitive_read_instance_id : insensitive read_instance_id.
Proof. intros s1 s2 [Hd Hi]. simpl. repeat split; auto. Qed.

Create HintDb insensitive.

#[local] Hint Resolve insensitive_ret insensitive_lift insensitive_warn
  insensitive_append insensitive_set_instance_id insensitive_read_instance_id
  : insensitive.

(** Every statement built from the steps above by sequencing and
    branching is insensitive. *)
Ltac insensitive_steps :=
  repeat first
    [ apply insensitive_bind; [ | intros ? ]
    | match goal with
      | |- insensitive (if ?b then _ else _) => destruct b
      | |- insensitive (match ?x with _ => _ end) => destruct x
      end
    | solve [auto with insensitive] ].

Lemma insensitive_add_attributes cols class_group_name_to_values f user_metadata
    image_metadata attributes :
  forall num_added,
    insensitive (add_attributes cols class_group_name_to_values f user_metadata
                   image_metadata attributes num_added).
Proof.
  induction attributes as [|attribute rest IH]; intros num_added;
    cbn [add_attributes]; insensitive_steps; apply IH.
Qed.

Lemma insensitive_add_instance cols class_name_to_color class_group_name_to_values
    image_name image_metadata annotation_path annotation :
  insensitive (add_instance cols class_name_to_color class_group_name_to_values
                 image_name image_metadata annotation_path annotation).
Proof.
  unfold add_instance. insensitive_steps; apply insensitive_add_attributes.
Qed.

Lemma st_for_app {S A} (xs ys : list A) (body : A -> M S unit) (s : S) :
  st_for (xs ++ ys) body s = st_bind (st_for xs body) (fun _ => st_for ys body) s.
Proof.
  revert s. induction xs as [|x xs IH]; intros s; simpl.
  - reflexivity.
  - unfold st_bind in *. destruct (body x s) as [[[] s1]|e]; [|reflexivity].
    apply IH.
Qed.

Lemma same_outcome_refl {A} (r : result (A * agg_state)) : same_outcome r r.
Proof. destruct r as [[a s]|e]; simpl; repeat split. Qed.

(** ** The aggregation claims *)

Section AggregateClaims.
Variable DEPRICATED_DOCUMENT_VIDEO_MESSAGE : string.

(** C7: without [classes/classes.json] the aggregation raises, before any
    annotation file is read, and returns no table. *)
Theorem C7_missing_classes_file_raises project_root
    include_classes_wo_annotations include_comments include_tags folder_names :
  classes_file project_root = None ->
  exists msg,
    aggregate_run DEPRICATED_DOCUMENT_VIDEO_MESSAGE project_root
      include_classes_wo_annotations include_comments include_tags folder_names
    = Raise (AppException msg)
    /\ aggregate_image_annotations_as_df DEPRICATED_DOCUMENT_VIDEO_MESSAGE
         project_root include_classes_wo_annotations include_comments
         include_tags folder_names
       = Raise (AppException msg).
Proof.
  intros Hnone. unfold aggregate_image_annotations_as_df, aggregate_run.
  destruct (legacy_export project_root); [eauto|].
  rewrite Hnone. eauto.
Qed.

End AggregateClaims.

Lemma C7_witness :
  exists msg,
    aggregate_run "deprecated" export_without_classes false false false None
    = Raise (AppException msg)
    /\ aggregate_image_annotations_as_df "deprecated" export_without_classes
         false false false None
       = Raise (AppException msg).
Proof.
  apply (C7_missing_classes_file_raises "deprecated" export_without_classes).
  reflexivity.
Defined.


(** C4: an instance whose class is missing or not in the classes file is
    skipped.  The loop body returns normally on it, with the table and the
    instance counter as before and one warning logged; and the loop over
    the instances of a file ends the same way, with the same table,
    whether or not the instance is among them. *)
Theorem C4_unknown_class_skipped cols class_name_to_color class_group_name_to_values
    image_name image_metadata annotation_path fields :
  class_unknown class_name_to_color fields ->
  let body :=
    add_instance cols class_name_to_color class_group_name_to_values
      image_name image_metadata annotation_path in
  (forall s,
     body (JObj fields) s
     = Ok (tt,
           {| annotation_data := annotation_data s;
              warnings :=
                warnings s
                ++ [{| warning_fmt :=
                         "Annotation class %s not found in classes json. Skipping.";
                       warning_arg :=
                         default JNull (assoc_get "className" fields) |}];
              annotation_instance_id := annotation_instance_id s |}))
  /\ (forall before after s,
        same_outcome (st_for (before ++ JObj fields :: after) body s)
                     (st_for (before ++ after) body s)).
Proof.
  intros Hunknown body. split.
  - intros s. by apply add_instance_unknown.
  - intros before after s. rewrite !st_for_app. unfold st_bind.
    destruct (st_for before body s) as [[[] t]|e]; [|reflexivity].
    cbn [st_for]. unfold st_bind, body.
    rewrite add_instance_unknown by exact Hunknown.
    apply insensitive_for.
    + intros x. apply insensitive_add_instance.
    + split; reflexivity.
Qed.

Lemma C4_witness :
  let body :=
    add_instance (columns false false) (build_class_name_to_color car_classes)
      (build_class_group_name_to_values car_classes) "img" bare_image_metadata
      pixel_path in
  (forall s,
     body pedestrian_box s
     = Ok (tt,
           {| annotation_data := annotation_data s;
              warnings :=
                warnings s
                ++ [{| warning_fmt :=
                         "Annotation class %s not found in classes json. Skipping.";
                       warning_arg := JStr "pedestrian" |}];
              annotation_instance_id := annotation_instance_id s |}))
  /\ (forall before after s,
        same_outcome (st_for (before ++ pedestrian_box :: after) body s)
                     (st_for (before ++ after) body s)).
Proof.
  apply (C4_unknown_class_skipped (columns false false)
           (build_class_name_to_color car_classes)
           (build_class_group_name_to_values car_classes) "img"
           bare_image_metadata pixel_path
           [ ("type", JStr "bbox"); ("className", JStr "pedestrian");
             ("points", JObj [("x1", JNum 0); ("y1", JNum 0);
                              ("x2", JNum 1); ("y2", JNum 1)]) ]).
  vm_compute. reflexivity.
Defined.

(** The example of the specification: the classes file omits
    [pedestrian]; the aggregation returns, the table has the [car] row
    only, and the warning names [pedestrian]. *)
Example stale_classes_aggregate :
  result_map (fun s => (map (cell "className") (annotation_data s),
                        map warning_arg (warnings s)))
    (aggregate_run "deprecated" stale_classes_export false false false None)
  = Ok ([JStr "car"], [JStr "pedestrian"]).
Proof. vm_compute. reflexivity. Qed.

(** C5: an instance of a known class whose fields can be read yields one
    row without attribute when it has no attributes, and otherwise one row
    for each attribute that validates against its class, so none when no
    attribute validates. *)
Theorem C5_records_per_instance include_comments include_tags
    class_name_to_color class_group_name_to_values image_name annotations
    image_metadata annotation_path fields name color groups_of_class meta
    user_metadata s :
  let attributes := default JNull (assoc_get "attributes" fields) in
  let run :=
    add_instance (columns include_comments include_tags) class_name_to_color
      class_group_name_to_values image_name image_metadata annotation_path
      (JObj fields) s in
  get_image_metadata image_name annotations = Ok image_metadata ->
  assoc_get "className" fields = Some (JStr name) ->
  class_name_to_color !! name = Some color ->
  class_group_name_to_values !! name = Some groups_of_class ->
  make_meta (default (JStr "mask") (assoc_get "type" fields)) (JObj fields)
  = Ok meta ->
  get_user_metadata (JObj fields) = Ok user_metadata ->
  (truthy attributes = false ->
   exists s' row,
     run = Ok (tt, s') /\ appended [row] s s'
     /\ cell "attributeGroupName" row = JNull
     /\ cell "attributeName" row = JNull)
  /\ (forall items,
        attributes = JArr items -> items <> [] -> Forall attribute_ok items ->
        exists s' rows,
          run = Ok (tt, s') /\ appended rows s s'
          /\ Forall2 (fun a row =>
                        cell "attributeGroupName" row = attribute_field "groupName" a
                        /\ cell "attributeName" row = attribute_field "name" a)
                     (List.filter (validates groups_of_class) items) rows
          /\ (Forall (fun a => validates groups_of_class a = false) items ->
              rows = [])).
Proof.
  intros attributes run Him Hclass Hcolor Hgroups Hmeta Hum.
  subst run.
  rewrite (add_instance_known _ _ _ _ _ _ _ _ _ _ _ _ Hclass Hcolor Hmeta Hum).
  fold attributes. split.
  - intros Hfalse. rewrite Hfalse.
    eexists _, _. split; [reflexivity|]. split; [reflexivity|].
    rewrite !cell_of_dict;
      try (apply in_columns; unfold base_columns; listed_key);
      try (eapply get_image_metadata_keys; [exact Him | fresh_key]);
      try (eapply get_user_metadata_keys; [exact Hum | fresh_key]).
    split; reflexivity.
  - intros items Hitems Hne Hok. rewrite Hitems.
    replace (truthy (JArr items)) with true by (by destruct items).
    cbn [as_list].
    match goal with
    | |- context [add_attributes _ _ ?f0 _ _ _ _] => set (f := f0)
    end.
    destruct (add_attributes_total (columns include_comments include_tags)
                class_group_name_to_values f user_metadata image_metadata
                groups_of_class items Hgroups Hok 0%nat s)
      as (s1 & Hrun & Happ & Hid).
    unfold st_bind, st_lift. rewrite Hrun.
    match type of Happ with
    | appended ?rows0 _ _ => set (rows := rows0) in *
    end.
    assert (Hrows :
      Forall2 (fun a row =>
                 cell "attributeGroupName" row = attribute_field "groupName" a
                 /\ cell "attributeName" row = attribute_field "name" a)
              (List.filter (validates groups_of_class) items) rows
      /\ (Forall (fun a => validates groups_of_class a = false) items ->
          rows = [])).
    { subst rows. split.
      - apply Forall2_map_diag. intros a.
        rewrite !cell_of_dict;
          try (apply in_columns; unfold base_columns; listed_key);
          try (eapply get_image_metadata_keys; [exact Him | fresh_key]);
          try (eapply get_user_metadata_keys; [exact Hum | fresh_key]).
        split; reflexivity.
      - intros Hnone. by rewrite (filter_none _ _ Hnone). }
    clearbody rows.
    destruct (0 <? _)%nat; eexists _, rows;
      (split; [reflexivity|]); (split; [exact Happ | exact Hrows]).
Qed.

Lemma C5_witness :
  let run annotation :=
    add_instance (columns false false) (build_class_name_to_color car_classes)
      (build_class_group_name_to_values car_classes) "img" bare_image_metadata
      pixel_path annotation empty_state in
  (exists s' row,
     run car_box = Ok (tt, s') /\ appended [row] empty_state s'
     /\ cell "attributeGroupName" row = JNull
     /\ cell "attributeName" row = JNull)
  /\ (exists s' rows,
        run car_with_attributes = Ok (tt, s') /\ appended rows empty_state s'
        /\ Forall2 (fun a row =>
                      cell "attributeGroupName" row = attribute_field "groupName" a
                      /\ cell "attributeName" row = attribute_field "name" a)
                   (List.filter (validates car_groups) car_attributes) rows
        /\ (Forall (fun a => validates car_groups a = false) car_attributes ->
            rows = [])).
Proof.
  intros run. split.
  - apply (C5_records_per_instance false false
             (build_class_name_to_color car_classes)
             (build_class_group_name_to_values car_classes) "img"
             bare_annotations bare_image_metadata pixel_path
             [ ("type", JStr "bbox"); ("className", JStr "car");
               ("points", car_points) ]
             "car" "#ff0000" car_groups (JObj [("points", car_points)])
             bare_user_metadata empty_state); reflexivity.
  - apply (C5_records_per_instance false false
             (build_class_name_to_color car_classes)
             (build_class_group_name_to_values car_classes) "img"
             bare_annotations bare_image_metadata pixel_path
             [ ("type", JStr "bbox"); ("className", JStr "car");
               ("points", car_points); ("attributes", JArr car_attributes) ]
             "car" "#ff0000" car_groups (JObj [("points", car_points)])
             bare_user_metadata empty_state); try reflexivity.
    + discriminate.
    + repeat constructor.
Defined.

Section FolderProperties.
Variable class_name_to_color : gmap string string.
Variable class_group_name_to_values : gmap string (gmap string (list string)).


(** A loop appends what the runs of its body append. *)
Lemma st_for_appended {A} (P : gmap string json -> Prop) (xs : list A)
    (body : A -> M agg_state unit) :
  (forall x s s', x ∈ xs -> body x s = Ok (tt, s') ->
                  exists rows, appended rows s s' /\ Forall P rows) ->
  forall s s', st_for xs body s = Ok (tt, s') ->
               exists rows, appended rows s s' /\ Forall P rows.
Proof.
  intros Hbody s s' Hrun.
  apply (st_for_inv (fun t => exists rows, appended rows s t /\ Forall P rows)
           xs body) with (s := s); [| |exact Hrun].
  - intros x t t' Hx (rows & Happ & Hrows) Hx'.
    destruct (Hbody x t t' Hx Hx') as (rows' & Happ' & Hrows').
    exists (rows ++ rows'). split; [eapply appended_trans; eauto|].
    apply Forall_app; auto.
  - exists []. split; [apply appended_refl | constructor].
Qed.

Lemma add_comment_rows include_comments include_tags image_name annotations image_metadata
    annotation s s' :
  get_image_metadata image_name annotations = Ok image_metadata ->
  add_comment (columns include_comments include_tags) image_metadata annotation s = Ok (tt, s') ->
  exists rows, appended rows s s' /\ Forall remark_cells rows.
Proof.
  intros Him H. unfold add_comment in H.
  lift_in H as comment_resolved Hres.
  lift_in H as x Hx.
  lift_in H as y Hy.
  lift_in H as correspondence Hcorr.
  lift_in H as user_metadata Hum.
  apply append_annotation_ok in H as [H _].
  eexists. split; [exact H|]. constructor; [|constructor].
  unfold remark_cells.
  rewrite !cell_of_dict;
    try (apply in_columns; unfold base_columns; listed_key);
    try (eapply get_image_metadata_keys; [exact Him | fresh_key]);
    try (eapply get_user_metadata_keys; [exact Hum | fresh_key]).
  split; [by left|]. split; reflexivity.
Qed.

Lemma add_tag_rows include_comments include_tags image_name annotations image_metadata
    annotation s s' :
  get_image_metadata image_name annotations = Ok image_metadata ->
  add_tag (columns include_comments include_tags) image_metadata annotation s = Ok (tt, s') ->
  exists rows, appended rows s s' /\ Forall remark_cells rows.
Proof.
  intros Him H. unfold add_tag in H.
  apply append_annotation_ok in H as [H _].
  eexists. split; [exact H|]. constructor; [|constructor].
  unfold remark_cells.
  rewrite !cell_table_row by (apply in_columns; unfold base_columns; listed_key).
  rewrite !lookup_union_r
    by (eapply get_image_metadata_keys; [exact Him | fresh_key]).
  split; [by right|]. split; reflexivity.
Qed.

(** The instance id of a row of an instance. *)
Lemma instance_row_id include_comments include_tags image_name annotations
    image_metadata annotation user_metadata f d :
  get_image_metadata image_name annotations = Ok image_metadata ->
  get_user_metadata annotation = Ok user_metadata ->
  d = instance_dict f \/ (exists g nm, d = attribute_dict f g nm) ->
  cell "instanceId"
    (table_row (columns include_comments include_tags)
       (image_metadata ∪ (user_metadata ∪ d)))
  = JNum (inject_Z (Z.of_nat (f_instance_id f))).
Proof.
  intros Him Hum Hd.
  rewrite cell_of_dict;
    try (apply in_columns; unfold base_columns; listed_key);
    try (eapply get_image_metadata_keys; [exact Him | fresh_key]);
    try (eapply get_user_metadata_keys; [exact Hum | fresh_key]).
  by destruct Hd as [->|(g & nm & ->)].
Qed.

Lemma add_instance_folder include_comments include_tags annotation_path image_name annotations image_metadata
    annotation s s' :
  get_image_metadata image_name annotations = Ok image_metadata ->
  add_instance (columns include_comments include_tags) class_name_to_color class_group_name_to_values image_name
    image_metadata annotation_path annotation s = Ok (tt, s') ->
  exists rows, appended rows s s' /\ Forall (instance_cells annotation_path) rows.
Proof.
  intros Him H.
  apply add_instance_rows in H as (um & f & dicts & Happ & [[-> _]|Hrows]).
  { exists []. split; [exact Happ | constructor]. }
  destruct Hrows as (Hum & _ & _ & Hfolder & Hdicts).
  eexists. split; [exact Happ|].
  apply Forall_map. eapply Forall_impl; [exact Hdicts|].
  intros d Hd. simpl. split.
  - exists (f_instance_id f). by eapply instance_row_id.
  - destruct (instance_row_cells include_comments include_tags _ _ _ _ _ f d
                Him Hum Hd) as (_ & _ & ->).
    exact Hfolder.
Qed.

(** The rows of one annotation file: those of its comments and tags, then
    those of its instances. *)
Lemma add_file_rows include_comments include_tags type_postfix annotation_path s s' :
  add_file (columns include_comments include_tags) class_name_to_color class_group_name_to_values type_postfix
    include_comments include_tags annotation_path s = Ok (tt, s') ->
  exists remarks instance_rows,
    appended (remarks ++ instance_rows) s s'
    /\ Forall remark_cells remarks
    /\ Forall (instance_cells annotation_path) instance_rows.
Proof.
  unfold add_file. intros H.
  destruct (target annotation_path) as [name annotation_json|]; [|discriminate].
  destruct (split type_postfix name) as [|image_name [|rest [|]]];
    try (apply st_ret_ok in H as [_ ->]; exists [], [];
         split; [apply appended_refl | split; constructor]).
  lift_in H as image_metadata Him.
  apply st_bind_ok in H as ([] & s1 & Hset & H).
  assert (Hs1 : appended [] s s1) by (inversion Hset; subst; by apply appended_nil).
  apply st_bind_ok in H as ([] & s2 & Hcomments & H).
  assert (Hs2 : exists rows, appended rows s1 s2 /\ Forall remark_cells rows).
  { destruct include_comments.
    - lift_in Hcomments as comments Hc.
      eapply st_for_appended; [|exact Hcomments].
      intros x t t' _. eapply add_comment_rows; eauto.
    - apply st_ret_ok in Hcomments as [_ ->].
      exists []. split; [apply appended_refl | constructor]. }
  apply st_bind_ok in H as ([] & s3 & Htags & H).
  assert (Hs3 : exists rows, appended rows s2 s3 /\ Forall remark_cells rows).
  { destruct include_tags.
    - lift_in Htags as tags Ht.
      eapply st_for_appended; [|exact Htags].
      intros x t t' _. eapply add_tag_rows; eauto.
    - apply st_ret_ok in Htags as [_ ->].
      exists []. split; [apply appended_refl | constructor]. }
  lift_in H as instances Hi.
  assert (Hs4 : exists rows, appended rows s3 s'
                             /\ Forall (instance_cells annotation_path) rows).
  { eapply st_for_appended; [|exact H].
    intros x t t' _. eapply add_instance_folder; eauto. }
  destruct Hs2 as (r2 & Ha2 & Hr2), Hs3 as (r3 & Ha3 & Hr3), Hs4 as (r4 & Ha4 & Hr4).
  exists (r2 ++ r3), r4. split; [|split].
  - exact (appended_trans _ _ _ _ _
             (appended_trans _ _ _ _ _
                (appended_trans _ _ _ _ _ Hs1 Ha2) Ha3) Ha4).
  - apply Forall_app; auto.
  - exact Hr4.
Qed.

(** C8, as the code has it: the rows of a file are those of its comments
    and tags, which have no instance id and carry no folder, followed by
    those of its instances.  The rows of the instances carry no folder
    when the file lies directly under the root, and otherwise the name of
    the directory that directly holds the file. *)
Theorem C8_folder_is_parent_directory include_comments include_tags type_postfix annotation_path s s' :
  add_file (columns include_comments include_tags) class_name_to_color class_group_name_to_values type_postfix
    include_comments include_tags annotation_path s = Ok (tt, s') ->
  exists remarks instance_rows,
    appended (remarks ++ instance_rows) s s'
    /\ Forall (fun row =>
                 (cell "type" row = JStr "comment" \/ cell "type" row = JStr "tag")
                 /\ cell "instanceId" row = JNull
                 /\ cell "folderName" row = JNull) remarks
    /\ Forall (fun row =>
                 (exists id : nat,
                    cell "instanceId" row = JNum (inject_Z (Z.of_nat id)))
                 /\ (parent annotation_path = [] ->
                     cell "folderName" row = JNull)
                 /\ (forall dirs d,
                       parent annotation_path = dirs ++ [d] ->
                       cell "folderName" row = JStr d)) instance_rows.
Proof.
  intros H. apply add_file_rows in H as (remarks & instance_rows & Happ & Hrem & Hinst).
  exists remarks, instance_rows. split; [exact Happ|]. split; [exact Hrem|].
  eapply Forall_impl; [exact Hinst|].
  intros row [Hid Hfolder]. unfold folder_name_of in Hfolder.
  split; [exact Hid|]. split.
  - intros Hroot. by rewrite Hroot in Hfolder.
  - intros dirs d Hparent. by rewrite Hparent, last_snoc in Hfolder.
Qed.

End FolderProperties.

(** C8 as stated fails: the file [A/sub/img___objects.json], found under
    the named subfolder [A], yields a row whose folder is [sub]. *)
Lemma C8_counterexample :
  map parent (find_annotations_paths nested_export (Some ["A"])) = [["A"; "sub"]]
  /\ result_map (fun s => map (cell "folderName") (annotation_data s))
       (aggregate_run "deprecated" nested_export false false false (Some ["A"]))
     = Ok [JStr "sub"]
  /\ JStr "sub" <> JStr "A".
Proof.
  split; [vm_compute; reflexivity|].
  split; [vm_compute; reflexivity | discriminate].
Qed.

Lemma C8_witness :
  let path_ := {| parent := ["A"; "sub"];
                  target := remarked_file |} in
  exists s',
    add_file (columns true true) (build_class_name_to_color car_classes)
      (build_class_group_name_to_values car_classes) "___objects.json"
      true true path_ empty_state = Ok (tt, s')
    /\ exists remarks instance_rows,
         appended (remarks ++ instance_rows) empty_state s'
         /\ Forall (fun row =>
                      (cell "type" row = JStr "comment"
                       \/ cell "type" row = JStr "tag")
                      /\ cell "instanceId" row = JNull
                      /\ cell "folderName" row = JNull) remarks
         /\ Forall (fun row =>
                      (exists id : nat,
                         cell "instanceId" row = JNum (inject_Z (Z.of_nat id)))
                      /\ (parent path_ = [] -> cell "folderName" row = JNull)
                      /\ (forall dirs d,
                            parent path_ = dirs ++ [d] ->
                            cell "folderName" row = JStr d)) instance_rows.
Proof.
  intros path_.
  destruct (ok_exists
              (add_file (columns true true) (build_class_name_to_color car_classes)
                 (build_class_group_name_to_values car_classes) "___objects.json"
                 true true path_ empty_state)) as [[[] s'] Hs'];
    [vm_compute; reflexivity|].
  exists s'. split; [exact Hs'|].
  exact (C8_folder_is_parent_directory _ _ true true _ _ _ _ Hs').
Defined.

Lemma make_meta_mask annotation meta :
  make_meta (JStr "mask") annotation = Ok meta ->
  exists parts, getitem annotation "parts" = Ok parts
                /\ meta = JObj [("parts", parts)].
Proof.
  change (make_meta (JStr "mask") annotation)
    with (result_bind (getitem annotation "parts")
            (fun parts => Ok (JObj [("parts", parts)]))).
  intros H. apply result_bind_ok in H as (parts & Hparts & H).
  exists parts. split; [exact Hparts | congruence].
Qed.

(** C10, as the code has it: an instance without a [type] key whose class
    the classes file knows is read as a mask.  When it has no [parts]
    either, reading it raises [KeyError]; when the instance is read, every
    row it yields has type [mask] and [parts] as payload; and an instance
    with [parts] and no attributes does yield a row. *)
Theorem C10_missing_type_is_mask include_comments include_tags
    class_name_to_color class_group_name_to_values image_name annotations
    image_metadata annotation_path fields name color s :
  get_image_metadata image_name annotations = Ok image_metadata ->
  assoc_get "type" fields = None ->
  assoc_get "className" fields = Some (JStr name) ->
  class_name_to_color !! name = Some color ->
  (assoc_get "parts" fields = None ->
   add_instance (columns include_comments include_tags) class_name_to_color
     class_group_name_to_values image_name image_metadata annotation_path
     (JObj fields) s
   = Raise (KeyError (JStr "parts")))
  /\ (forall s',
        add_instance (columns include_comments include_tags) class_name_to_color
          class_group_name_to_values image_name image_metadata annotation_path
          (JObj fields) s
        = Ok (tt, s') ->
        exists parts rows,
          assoc_get "parts" fields = Some parts
          /\ appended rows s s'
          /\ Forall (fun row => cell "type" row = JStr "mask"
                                /\ cell "meta" row = JObj [("parts", parts)]) rows)
  /\ (forall parts user_metadata,
        assoc_get "parts" fields = Some parts ->
        get_user_metadata (JObj fields) = Ok user_metadata ->
        truthy (default JNull (assoc_get "attributes" fields)) = false ->
        exists s' row,
          add_instance (columns include_comments include_tags) class_name_to_color
            class_group_name_to_values image_name image_metadata annotation_path
            (JObj fields) s
          = Ok (tt, s')
          /\ appended [row] s s'
          /\ cell "type" row = JStr "mask"
          /\ cell "meta" row = JObj [("parts", parts)]).
Proof.
  intros Him Htype Hclass Hcolor. split; [|split].
  - intros Hparts. unfold add_instance.
    rewrite get_default_obj, Htype, get_obj, Hclass. cbn [st_bind st_lift default].
    simpl dict_lookup. rewrite Hcolor. cbn [st_bind st_lift].
    rewrite !get_obj. cbn [st_bind st_lift].
    change (make_meta (JStr "mask") (JObj fields))
      with (result_bind (getitem (JObj fields) "parts")
              (fun parts => Ok (JObj [("parts", parts)]))).
    unfold getitem. rewrite Hparts. reflexivity.
  - intros s' H.
    apply add_instance_rows in H as (um & f & dicts & Happ & [[_ Hskip]|Hrows]).
    { rewrite get_obj, Hclass in Hskip. specialize (Hskip name eq_refl). congruence. }
    destruct Hrows as (Hum & Hty & Hmeta & _ & Hdicts).
    rewrite get_default_obj, Htype in Hty. simpl in Hty.
    injection Hty as Hty. rewrite <- Hty in Hmeta.
    apply make_meta_mask in Hmeta as (parts & Hparts & Hmeta).
    unfold getitem in Hparts.
    destruct (assoc_get "parts" fields) as [parts'|] eqn:E; [|discriminate].
    injection Hparts as ->.
    exists parts, (map (fun d => table_row (columns include_comments include_tags)
                                   (image_metadata ∪ (um ∪ d))) dicts).
    repeat split; [exact Happ|].
    apply Forall_map. eapply Forall_impl; [exact Hdicts|].
    intros d Hd. simpl.
    destruct (instance_row_cells include_comments include_tags _ _ _ _ _ f d
                Him Hum Hd) as (-> & -> & _).
    by rewrite <- Hty, Hmeta.
  - intros parts um Hparts Hum Hfalse.
    assert (Hmeta : make_meta (default (JStr "mask") (assoc_get "type" fields))
                      (JObj fields) = Ok (JObj [("parts", parts)])).
    { rewrite Htype.
      change (make_meta (default (JStr "mask") None) (JObj fields))
        with (result_bind (getitem (JObj fields) "parts")
                (fun parts => Ok (JObj [("parts", parts)]))).
      unfold getitem. by rewrite Hparts. }
    rewrite (add_instance_plain _ _ _ _ _ _ _ _ _ _ _ _ Hclass Hcolor Hmeta Hum
               Hfalse).
    eexists _, _. split; [reflexivity|]. split; [reflexivity|].
    rewrite !cell_of_dict;
      try (apply in_columns; unfold base_columns; listed_key);
      try (eapply get_image_metadata_keys; [exact Him | fresh_key]);
      try (eapply get_user_metadata_keys; [exact Hum | fresh_key]).
    match goal with
    | |- context [instance_dict ?f0] =>
        destruct (instance_dict_lookup f0) as (-> & -> & _)
    end.
    cbn [fields_read f_type f_meta]. rewrite Htype. split; reflexivity.
Qed.

(** C10 as stated fails: an instance without [type] and without [parts]
    whose class the classes file omits is skipped with a warning before
    its payload is read; no key error is raised. *)
Lemma C10_counterexample :
  let run :=
    add_instance (columns false false) (build_class_name_to_color car_classes)
      (build_class_group_name_to_values car_classes) "img" bare_image_metadata
      pixel_path untyped_pedestrian empty_state in
  getitem untyped_pedestrian "type" = Raise (KeyError (JStr "type"))
  /\ getitem untyped_pedestrian "parts" = Raise (KeyError (JStr "parts"))
  /\ result_map (fun out => (annotation_data (snd out),
                             map warning_arg (warnings (snd out)))) run
     = Ok ([], [JStr "pedestrian"])
  /\ run <> Raise (KeyError (JStr "parts")).
Proof.
  intros run. split; [reflexivity|]. split; [reflexivity|].
  split; [vm_compute; reflexivity | vm_compute; discriminate].
Qed.

Lemma C10_witness :
  let run annotation :=
    add_instance (columns false false) (build_class_name_to_color car_classes)
      (build_class_group_name_to_values car_classes) "img" bare_image_metadata
      pixel_path annotation empty_state in
  run untyped_bare = Raise (KeyError (JStr "parts"))
  /\ exists s' row,
       run untyped_mask = Ok (tt, s')
       /\ appended [row] empty_state s'
       /\ cell "type" row = JStr "mask"
       /\ cell "meta" row = JObj [("parts", JArr [JObj [("color", JStr "#000001")]])].
Proof.
  intros run.
  pose proof (C10_missing_type_is_mask false false
                (build_class_name_to_color car_classes)
                (build_class_group_name_to_values car_classes) "img"
                bare_annotations bare_image_metadata pixel_path) as C10.
  split.
  - apply (C10 [("className", JStr "car")] "car" "#ff0000" empty_state);
      reflexivity.
  - apply (C10 [ ("className", JStr "car");
                 ("parts", JArr [JObj [("color", JStr "#000001")]]) ]
               "car" "#ff0000" empty_state eq_refl eq_refl eq_refl eq_refl)
      with (user_metadata := bare_user_metadata); reflexivity.
Defined.

(** * Further properties *)

(** ** Statements that return or raise *)

Lemma triple_ret {S A} (P : S -> Prop) (a : A) (Q : A -> S -> Prop) E :
  (forall s, P s -> Q a s) -> triple P (st_ret a) Q E.
Proof. intros H s Hs. simpl. auto. Qed.

Lemma triple_bind {S A B} (P : S -> Prop) (m : M S A) (R : A -> S -> Prop)
    (k : A -> M S B) (Q : B -> S -> Prop) E :
  triple P m R E -> (forall a, triple (R a) (k a) Q E) ->
  triple P (st_bind m k) Q E.
Proof.
  intros Hm Hk s Hs. unfold st_bind. specialize (Hm s Hs).
  destruct (m s) as [[a s1]|e]; [|exact Hm]. by apply Hk.
Qed.

Lemma triple_weaken {S A} (P P' : S -> Prop) (m : M S A) (Q Q' : A -> S -> Prop)
    (E E' : exn -> Prop) :
  triple P' m Q' E' ->
  (forall s, P s -> P' s) -> (forall a s, Q' a s -> Q a s) ->
  (forall e, E' e -> E e) ->
  triple P m Q E.
Proof.
  intros H HP HQ HE s Hs. specialize (H s (HP s Hs)).
  destruct (m s) as [[a s1]|e]; auto.
Qed.

(** A loop whose body keeps [I] keeps [I]. *)
Lemma triple_for {S A} (I : S -> Prop) (xs : list A) (body : A -> M S unit) E :
  (forall x, x ∈ xs -> triple I (body x) (fun _ => I) E) ->
  triple I (st_for xs body) (fun _ => I) E.
Proof.
  induction xs as [|x xs IH]; intros Hbody.
  - by apply triple_ret.
  - cbn [st_for]. eapply triple_bind.
    + apply Hbody, list_elem_of_here.
    + intros u. apply IH. intros y Hy. by apply Hbody, list_elem_of_further.
Qed.

(** A loop over [xs], the elements handled so far being [done]: the body
    takes [I done] to [I (done ++ [x])]. *)
Lemma triple_for_prefix {S A} (I : list A -> S -> Prop) (xs : list A)
    (body : A -> M S unit) E :
  forall done,
    (forall pre x post, done ++ xs = pre ++ x :: post -> length done <= length pre ->
       triple (I pre) (body x) (fun _ => I (pre ++ [x])) E) ->
    triple (I done) (st_for xs body) (fun _ => I (done ++ xs)) E.
Proof.
  induction xs as [|x xs IH]; intros done Hbody.
  - rewrite app_nil_r. by apply triple_ret.
  - cbn [st_for]. eapply triple_bind.
    + apply (Hbody done x xs); [reflexivity | lia].
    + intros u. rewrite (cons_middle x done xs), app_assoc.
      apply IH. intros pre y post Heq Hlen.
      apply (Hbody pre y post).
      * by rewrite <- Heq, <- app_assoc.
      * rewrite length_app in Hlen. simpl in Hlen. lia.
Qed.

(** ** The visited flags *)

Lemma Qlt_bool_iff (x y : Q) : Qlt_bool x y = true <-> (x < y)%Q.
Proof.
  unfold Qlt_bool. rewrite negb_true_iff. split.
  - intros H. apply Qnot_le_lt. intros Hle. apply Qle_bool_iff in Hle. congruence.
  - intros H. destruct (Qle_bool y x) eqn:E; [|reflexivity].
    apply Qle_bool_iff in E. exfalso. eapply Qlt_not_le; eauto.
Qed.

Lemma Qlt_bool_false (x y : Q) : Qlt_bool x y = false <-> (y <= x)%Q.
Proof.
  unfold Qlt_bool. rewrite negb_false_iff. apply Qle_bool_iff.
Qed.

Lemma enumerate_from_lookup {A} (xs : list A) j i x :
  (i, x) ∈ enumerate_from j xs <-> (j <= i)%nat /\ xs !! (i - j)%nat = Some x.
Proof.
  revert j. induction xs as [|y xs IH]; intros j; simpl.
  - rewrite elem_of_nil. split; [tauto | intros [_ H]; discriminate].
  - rewrite elem_of_cons, IH. split.
    + intros [H|[Hle H]].
      * inversion H; subst. split; [lia|]. by rewrite Nat.sub_diag.
      * split; [lia|]. replace (i - j)%nat with (S (i - S j)) by lia. exact H.
    + intros [Hle H]. destruct (decide (i = j)) as [->|Hne].
      * left. rewrite Nat.sub_diag in H. simpl in H. congruence.
      * right. split; [lia|].
        replace (i - j)%nat with (S (i - S j)) in H by lia. exact H.
Qed.

Lemma enumerate_lookup {A} (xs : list A) i x :
  (i, x) ∈ enumerate xs <-> xs !! i = Some x.
Proof.
  unfold enumerate. rewrite enumerate_from_lookup, Nat.sub_0_r.
  split; [tauto | intros H; split; [lia | exact H]].
Qed.

Lemma select_set {A} (flags : list bool) (xs : list A) (i : nat) (x : A) :
  flags !! i = Some false -> xs !! i = Some x ->
  select (<[i := true]> flags) xs ≡ₚ x :: select flags xs.
Proof.
  revert xs i. induction flags as [|b flags IH]; intros xs i Hf Hx.
  - discriminate.
  - destruct xs as [|y xs]; [discriminate|].
    destruct i as [|i]; simpl in *.
    + injection Hf as ->. injection Hx as ->. reflexivity.
    + specialize (IH xs i Hf Hx). destruct b.
      * rewrite IH. apply perm_swap.
      * exact IH.
Qed.

Lemma select_all {A} (flags : list bool) (xs : list A) :
  length flags = length xs ->
  (forall i b, flags !! i = Some b -> b = true) ->
  select flags xs = xs.
Proof.
  revert xs. induction flags as [|b flags IH]; intros [|x xs] Hlen H;
    try discriminate; [reflexivity|].
  rewrite (H 0%nat b eq_refl). simpl. f_equal. apply IH.
  - simpl in Hlen. lia.
  - intros i b' Hi. exact (H (S i) b' Hi).
Qed.

Section FlagProperties.
Context {Sh : Shapely}.
Local Abbreviation inst_data := (inst_data geom) (only parsing).
Local Abbreviation match_data := (match_data geom) (only parsing).
Local Abbreviation projects := (projects geom) (only parsing).
Local Abbreviation state := (state geom) (only parsing).

Lemma visited_of_flag (s : state) proj id b :
  flag s proj id = Some b -> visited proj id s = Ok (b, s).
Proof.
  unfold flag, visited. destruct (visited_instances s !! proj) as [flags|];
    [|discriminate]. by intros ->.
Qed.

Lemma flag_of_shape (objs : projects) (s : state) k insts i :
  visited_shape objs s -> (k, insts) ∈ objs -> (i < length insts)%nat ->
  exists b, flag s k i = Some b.
Proof.
  intros Hshape Hk Hi. destruct (Hshape k insts Hk) as (flags & Hflags & Hlen).
  unfold flag. rewrite Hflags. apply lookup_lt_is_Some. lia.
Qed.

Lemma flag_ext (s s' : state) k i :
  visited_instances s' = visited_instances s -> flag s' k i = flag s k i.
Proof. unfold flag. by intros ->. Qed.

Lemma visited_members_ext (l : projects) (s s' : state) :
  (forall k, k ∈ map fst l -> visited_instances s' !! k = visited_instances s !! k) ->
  visited_members l s' = visited_members l s.
Proof.
  unfold visited_members. induction l as [|[k insts] l IH]; intros H;
    [reflexivity|].
  cbn [map concat fst snd]. rewrite H by apply list_elem_of_here.
  rewrite IH; [reflexivity|]. intros k' Hk'. apply H.
  simpl. by apply list_elem_of_further.
Qed.

(** Setting the flag of an instance of [objs] adds that instance to the
    visited ones. *)
Lemma visited_members_set (objs : projects) (s s' : state) p insts flags i d :
  NoDup (map fst objs) -> (p, insts) ∈ objs ->
  visited_instances s !! p = Some flags -> flags !! i = Some false ->
  insts !! i = Some d ->
  visited_instances s' = <[p := <[i := true]> flags]> (visited_instances s) ->
  visited_members objs s' ≡ₚ (p, d) :: visited_members objs s.
Proof.
  intros Hnd Hin Hp Hi Hd Hs'.
  induction objs as [|[k insts0] objs IH]; [by apply elem_of_nil in Hin|].
  simpl in Hnd. apply NoDup_cons in Hnd as [Hk Hnd].
  change (visited_members ((k, insts0) :: objs) s')
    with (map (pair k) (select (default [] (visited_instances s' !! k)) insts0)
          ++ visited_members objs s').
  change (visited_members ((k, insts0) :: objs) s)
    with (map (pair k) (select (default [] (visited_instances s !! k)) insts0)
          ++ visited_members objs s).
  destruct (decide (p = k)) as [->|Hne].
  - assert (insts0 = insts) as ->.
    { apply elem_of_cons in Hin as [Hin|Hin]; [congruence|].
      exfalso. apply Hk. apply list_elem_of_In, in_map_iff.
      exists (k, insts). split; [reflexivity | by apply list_elem_of_In]. }
    rewrite (visited_members_ext objs s s').
    + rewrite Hs', lookup_insert_eq, Hp. cbn [default id].
      rewrite (select_set _ _ _ _ Hi Hd). reflexivity.
    + intros k' Hk'. rewrite Hs', lookup_insert_ne; [reflexivity|].
      intros ->. contradiction.
  - apply elem_of_cons in Hin as [Hin|Hin]; [congruence|].
    rewrite (IH Hnd Hin).
    rewrite Hs', lookup_insert_ne by exact Hne.
    symmetry. apply Permutation_middle.
Qed.

(** Setting a flag that is not set, in a state of the right shape. *)
Lemma mark_visited_spec (objs : projects) (s : state) p insts i d :
  NoDup (map fst objs) -> visited_shape objs s -> (p, insts) ∈ objs ->
  insts !! i = Some d ->
  flag s p i = Some false ->
  exists s',
    mark_visited p i s = Ok (tt, s')
    /\ same_output s s' /\ visited_shape objs s' /\ flags_kept s s'
    /\ flag s' p i = Some true
    /\ (forall k j, k <> p -> flag s' k j = flag s k j)
    /\ visited_members objs s' ≡ₚ (p, d) :: visited_members objs s.
Proof.
  intros Hnd Hshape Hp Hd Hflag. unfold flag in Hflag. unfold mark_visited.
  destruct (visited_instances s !! p) as [flags|] eqn:Hflags; [|discriminate].
  assert (Hlt : (i < length flags)%nat) by (eapply lookup_lt_Some; eauto).
  destruct (decide (i < length flags)%nat); [|contradiction].
  eexists. split; [reflexivity|].
  assert (Hother : forall k j, k <> p ->
            flag {| visited_instances :=
                      <[p := <[i := true]> flags]> (visited_instances s);
                    instance_id := instance_id s; image_data := image_data s;
                    scorer_calls := scorer_calls s; groups := groups s |} k j
            = flag s k j).
  { intros k j Hne. unfold flag. simpl. by rewrite lookup_insert_ne. }
  repeat split.
  - intros k insts' Hk. simpl. destruct (decide (k = p)) as [->|Hne].
    + rewrite lookup_insert_eq. eexists. split; [reflexivity|].
      rewrite length_insert.
      destruct (Hshape p insts' Hk) as (flags' & Hf & Hl). congruence.
    + rewrite lookup_insert_ne by auto. by apply Hshape.
  - intros k j Hkj. destruct (decide (k = p)) as [->|Hne].
    + unfold flag in *. simpl. rewrite lookup_insert_eq. rewrite Hflags in Hkj.
      destruct (decide (j = i)) as [->|Hji].
      * by apply list_lookup_insert_eq.
      * by rewrite list_lookup_insert_ne.
    + by rewrite Hother.
  - unfold flag. simpl. rewrite lookup_insert_eq. by apply list_lookup_insert_eq.
  - exact Hother.
  - eapply visited_members_set; eauto.
Qed.

End FlagProperties.

(** ** The search for matches *)

Lemma bound_le_refl (m : bound) : bound_le m m.
Proof. destruct m; simpl; [exact I | apply Qle_refl]. Qed.

Lemma bound_le_trans (m1 m2 m3 : bound) :
  bound_le m1 m2 -> bound_le m2 m3 -> bound_le m1 m3.
Proof.
  destruct m1, m2, m3; simpl; try tauto. apply Qle_trans.
Qed.

Lemma exceeds_bound (sc : Q) (m : bound) :
  exceeds sc m = true -> bound_le m (Fin sc).
Proof.
  destruct m; simpl; [auto|]. intros H. apply Qlt_bool_iff in H.
  by apply Qlt_le_weak.
Qed.

Lemma exceeds_mono (sc : Q) (m m' : bound) :
  bound_le m m' -> exceeds sc m = false -> exceeds sc m' = false.
Proof.
  destruct m, m'; simpl; try discriminate; try tauto.
  intros Hle H. apply Qlt_bool_false in H. apply Qlt_bool_false.
  eapply Qle_trans; eauto.
Qed.

Lemma exceeds_self (sc : Q) : exceeds sc (Fin sc) = false.
Proof. simpl. apply Qlt_bool_false, Qle_refl. Qed.

Lemma exceeds_lt (sc sc' : Q) (m : bound) :
  exceeds sc' m = false -> exceeds sc m = true -> (sc' < sc)%Q.
Proof.
  destruct m; simpl; [discriminate|]. intros H1 H2.
  apply Qlt_bool_false in H1. apply Qlt_bool_iff in H2.
  eapply Qle_lt_trans; eauto.
Qed.

Section SearchProperties.
Context {Sh : Shapely}.
Local Abbreviation inst_data := (inst_data geom) (only parsing).
Local Abbreviation match_data := (match_data geom) (only parsing).
Local Abbreviation projects := (projects geom) (only parsing).
Local Abbreviation state := (state geom) (only parsing).

Lemma call_scorer_frame (a b : inst_data) (s : state) :
  match call_scorer a b s with
  | Ok (q, s') => instance_consensus (inst a) (inst b) = Ok q
                  /\ visited_instances s' = visited_instances s
                  /\ same_output s s'
  | Raise e => instance_consensus (inst a) (inst b) = Raise e
  end.
Proof.
  unfold call_scorer. destruct (instance_consensus _ _); [|reflexivity].
  repeat split.
Qed.

(** The search over one folder: with a flag for every candidate it returns
    unless the scorer raises on a candidate not visited.  The candidate
    returned is eligible, its score exceeds the bound the search started
    from, no eligible candidate scores higher, and those before it score
    lower. *)
Lemma search_spec (curr : inst_data) (other_proj : option string) cands :
  forall max_score best (s : state),
    (forall c, c ∈ cands -> exists b, flag s other_proj (fst c) = Some b) ->
    match search curr other_proj cands max_score best s with
    | Ok (best', s') =>
        visited_instances s' = visited_instances s /\ same_output s s'
        /\ exists max',
             bound_le max_score max'
             /\ ((best' = best /\ max' = max_score)
                 \/ exists pre c post sc,
                      cands = pre ++ c :: post /\ best' = Some c
                      /\ eligible s curr other_proj c
                      /\ instance_consensus (inst curr) (inst (snd c)) = Ok sc
                      /\ max' = Fin sc
                      /\ exceeds sc max_score = true
                      /\ forall c', c' ∈ pre -> eligible s curr other_proj c' ->
                           exists sc', instance_consensus (inst curr) (inst (snd c')) = Ok sc'
                                       /\ (sc' < sc)%Q)
             /\ forall c, c ∈ cands -> eligible s curr other_proj c ->
                  exists sc, instance_consensus (inst curr) (inst (snd c)) = Ok sc
                             /\ exceeds sc max' = false
    | Raise e =>
        exists c, c ∈ cands /\ flag s other_proj (fst c) = Some false
                  /\ instance_consensus (inst curr) (inst (snd c)) = Raise e
    end.
Proof.
  induction cands as [|[other_id other] rest IH]; intros max_score best s Hflags.
  - simpl. unfold st_ret. repeat split. exists max_score.
    split; [apply bound_le_refl|]. split; [by left|].
    intros c Hc. by apply elem_of_nil in Hc.
  - destruct (Hflags (other_id, other) (list_elem_of_here _ _)) as [b Hb].
    simpl in Hb. simpl. unfold st_bind at 1.
    rewrite (visited_of_flag _ _ _ _ Hb).
    assert (Hrest : forall c, c ∈ rest -> exists b, flag s other_proj (fst c) = Some b).
    { intros c Hc. apply Hflags. by apply list_elem_of_further. }
    destruct b.
    + (* visited: skipped *)
      specialize (IH max_score best s Hrest).
      destruct (search curr other_proj rest max_score best s) as [[best' s']|e].
      * destruct IH as (Hv & Hs & max' & Hle & Hbest & Hall).
        split; [exact Hv|]. split; [exact Hs|]. exists max'.
        split; [exact Hle|]. split.
        -- destruct Hbest as [Hbest|(pre & c & post & sc & -> & Hc & Hel & Hsc & Hm & Hex & Hpre)];
             [by left|].
           right. exists ((other_id, other) :: pre), c, post, sc.
           split; [reflexivity|]. split; [exact Hc|]. split; [exact Hel|].
           split; [exact Hsc|]. split; [exact Hm|]. split; [exact Hex|].
           intros c' Hc' Hel'. apply elem_of_cons in Hc' as [->|Hc']; [|auto].
           destruct Hel' as [Hf _]. simpl in Hf. congruence.
        -- intros c Hc Hel. apply elem_of_cons in Hc as [->|Hc]; [|auto].
           destruct Hel as [Hf _]. simpl in Hf. congruence.
      * destruct IH as (c & Hc & Hf & He). exists c.
        split; [by apply list_elem_of_further | auto].
    + (* not visited: scored *)
      unfold st_bind at 1.
      pose proof (call_scorer_frame curr other s) as Hcall.
      destruct (call_scorer curr other s) as [[sc0 s1]|e0];
        [|exists (other_id, other); split; [apply list_elem_of_here | auto]].
      destruct Hcall as (Hsc0 & Hv1 & Hs1).
      assert (Hflag1 : forall k i, flag s1 k i = flag s k i).
      { intros k i. by apply flag_ext. }
      assert (Hrest1 : forall c, c ∈ rest -> exists b, flag s1 other_proj (fst c) = Some b).
      { intros c Hc. rewrite Hflag1. by apply Hrest. }
      assert (Hel1 : forall c, eligible s1 curr other_proj c <-> eligible s curr other_proj c).
      { intros c. unfold eligible. by rewrite Hflag1. }
      destruct (exceeds sc0 max_score
                && String.eqb (inst_class other) (inst_class curr)) eqn:Hcond.
      * apply andb_true_iff in Hcond as [Hex0 Hcls]. apply String.eqb_eq in Hcls.
        specialize (IH (Fin sc0) (Some (other_id, other)) s1 Hrest1).
        destruct (search curr other_proj rest (Fin sc0) (Some (other_id, other)) s1)
          as [[best' s']|e].
        -- destruct IH as (Hv & Hs & max' & Hle & Hbest & Hall).
           split; [congruence|]. split; [eapply same_output_trans; eauto|].
           exists max'. split.
           { eapply bound_le_trans; [apply exceeds_bound; eauto | exact Hle]. }
           split.
           ++ right.
              destruct Hbest as [[-> ->]|(pre & c & post & sc & -> & Hc & Hel & Hsc & Hm & Hex & Hpre)].
              ** exists [], (other_id, other), rest, sc0.
                 split; [reflexivity|]. split; [reflexivity|].
                 split; [split; [exact Hb | exact Hcls]|].
                 split; [exact Hsc0|]. split; [reflexivity|]. split; [exact Hex0|].
                 intros c' Hc'. by apply elem_of_nil in Hc'.
              ** exists ((other_id, other) :: pre), c, post, sc.
                 split; [reflexivity|]. split; [exact Hc|].
                 split; [by apply Hel1|]. split; [exact Hsc|].
                 split; [exact Hm|]. split.
                 { destruct max_score as [|q]; [reflexivity|]. simpl in *.
                   apply Qlt_bool_iff in Hex0, Hex. apply Qlt_bool_iff.
                   eapply Qlt_trans; eauto. }
                 intros c' Hc' Hel'. apply elem_of_cons in Hc' as [->|Hc'].
                 --- exists sc0. split; [exact Hsc0|].
                     simpl in Hex. by apply Qlt_bool_iff in Hex.
                 --- apply Hpre; [exact Hc' | by apply Hel1].
           ++ intros c Hc Hel. apply elem_of_cons in Hc as [->|Hc].
              ** exists sc0. split; [exact Hsc0|].
                 eapply exceeds_mono; [exact Hle | apply exceeds_self].
              ** apply Hall; [exact Hc | by apply Hel1].
        -- destruct IH as (c & Hc & Hf & He). exists c.
           split; [by apply list_elem_of_further|]. rewrite <- Hflag1. auto.
      * specialize (IH max_score best s1 Hrest1).
        destruct (search curr other_proj rest max_score best s1) as [[best' s']|e].
        -- destruct IH as (Hv & Hs & max' & Hle & Hbest & Hall).
           split; [congruence|]. split; [eapply same_output_trans; eauto|].
           exists max'. split; [exact Hle|]. split.
           ++ destruct Hbest as [Hbest|(pre & c & post & sc & -> & Hc & Hel & Hsc & Hm & Hex & Hpre)];
                [by left|].
              right. exists ((other_id, other) :: pre), c, post, sc.
              split; [reflexivity|]. split; [exact Hc|].
              split; [by apply Hel1|]. split; [exact Hsc|].
              split; [exact Hm|]. split; [exact Hex|].
              intros c' Hc' Hel'. apply elem_of_cons in Hc' as [->|Hc'].
              ** exists sc0. split; [exact Hsc0|].
                 destruct Hel' as [_ Hcls']. simpl in Hcls'.
                 apply andb_false_iff in Hcond as [Hno|Hno].
                 --- eapply exceeds_lt; eauto.
                 --- apply String.eqb_neq in Hno. contradiction.
              ** apply Hpre; [exact Hc' | by apply Hel1].
           ++ intros c Hc Hel. apply elem_of_cons in Hc as [->|Hc].
              ** exists sc0. split; [exact Hsc0|].
                 destruct Hel as [_ Hcls']. simpl in Hcls'.
                 apply andb_false_iff in Hcond as [Hno|Hno].
                 --- eapply exceeds_mono; eauto.
                 --- apply String.eqb_neq in Hno. contradiction.
              ** apply Hall; [exact Hc | by apply Hel1].
        -- destruct IH as (c & Hc & Hf & He). exists c.
           split; [by apply list_elem_of_further|]. rewrite <- Hflag1. auto.
Qed.

End SearchProperties.

(** ** One matching round *)

Section RoundProperties.
Context {Sh : Shapely}.
Local Abbreviation inst_data := (inst_data geom) (only parsing).
Local Abbreviation match_data := (match_data geom) (only parsing).
Local Abbreviation projects := (projects geom) (only parsing).
Local Abbreviation state := (state geom) (only parsing).

Variable objs : projects.
Hypothesis objs_nodup : NoDup (map fst objs).

Lemma members_of_elem k insts (d : inst_data) :
  (k, insts) ∈ objs -> d ∈ insts -> (k, d) ∈ members_of objs.
Proof.
  intros Hk Hd. unfold members_of.
  apply list_elem_of_In, in_concat. exists (map (pair k) insts). split.
  - apply in_map_iff. exists (k, insts). split; [reflexivity|].
    by apply list_elem_of_In.
  - apply in_map. by apply list_elem_of_In.
Qed.

Lemma key_of_elem k (insts : list inst_data) (l : projects) :
  (k, insts) ∈ l -> k ∈ map fst l.
Proof.
  intros H. apply list_elem_of_In, in_map_iff. exists (k, insts).
  split; [reflexivity | by apply list_elem_of_In].
Qed.

Lemma key_unique k (a b : list inst_data) :
  (k, a) ∈ objs -> (k, b) ∈ objs -> a = b.
Proof.
  pose proof objs_nodup as Hnd. revert Hnd.
  induction objs as [|[k0 c] l IH]; intros Hnd Ha Hb;
    [by apply elem_of_nil in Ha|].
  simpl in Hnd. apply NoDup_cons in Hnd as [Hk Hnd].
  apply elem_of_cons in Ha as [Ha|Ha], Hb as [Hb|Hb].
  - congruence.
  - inversion Ha; subst. exfalso. apply Hk.
    apply list_elem_of_In, in_map_iff. exists (k0, b).
    split; [reflexivity | by apply list_elem_of_In].
  - inversion Hb; subst. exfalso. apply Hk.
    apply list_elem_of_In, in_map_iff. exists (k0, a).
    split; [reflexivity | by apply list_elem_of_In].
  - auto.
Qed.

Variable annot_type : string.
Variable curr_proj : option string.
Variable curr_id : nat.
Variable curr : inst_data.
Variable curr_insts : list inst_data.
Hypothesis curr_folder : (curr_proj, curr_insts) ∈ objs.
Hypothesis curr_lookup : curr_insts !! curr_id = Some curr.

(** The walk over the folders: from a state of the right shape in which
    the current instance is not visited it returns unless the scorer
    raises.  It adds at most one member per folder, in the folders' order;
    it adds the current instance under its own folder; every member added
    is flagged, and only those. *)
Lemma find_matches_spec (rest : projects) :
  (exists done, objs = done ++ rest) ->
  forall acc (s : state),
    visited_shape objs s ->
    (curr_proj ∈ map fst rest -> flag s curr_proj curr_id = Some false) ->
    match find_matches annot_type curr_proj curr_id curr rest acc s with
    | Ok (g, s') =>
        same_output s s' /\ visited_shape objs s' /\ flags_kept s s'
        /\ exists added,
             g = acc ++ added
             /\ sublist (map fst added) (map fst rest)
             /\ (curr_proj ∈ map fst rest ->
                 (curr_proj, curr) ∈ added
                 /\ flag s' curr_proj curr_id = Some true)
             /\ visited_members objs s' ≡ₚ visited_members objs s ++ added
             /\ Forall (member objs annot_type curr_proj curr) added
    | Raise e => scorer_raises objs e
    end.
Proof.
  assert (Hcurr : (curr_proj, curr) ∈ members_of objs).
  { eapply members_of_elem; [exact curr_folder|].
    eapply list_elem_of_lookup_2; eauto. }
  induction rest as [|[other_proj other_insts] rest IH];
    intros [done Hdone] acc s Hshape Hfresh.
  - simpl. unfold st_ret. split; [apply same_output_refl|].
    split; [exact Hshape|]. split; [by intros k i|].
    exists []. split; [by rewrite app_nil_r|]. split; [constructor|].
    split; [intros H; by apply elem_of_nil in H|].
    split; [by rewrite app_nil_r | constructor].
  - assert (Hin : (other_proj, other_insts) ∈ objs).
    { rewrite Hdone. apply elem_of_app. right. apply list_elem_of_here. }
    assert (Hrest : exists done', objs = done' ++ rest).
    { exists (done ++ [(other_proj, other_insts)]).
      by rewrite <- app_assoc. }
    assert (Hnd : other_proj ∉ map fst rest).
    { pose proof objs_nodup as H. rewrite Hdone, map_app in H.
      apply NoDup_app in H as (_ & _ & H). simpl in H.
      by apply NoDup_cons in H as [H _]. }
    specialize (IH Hrest). simpl.
    case_bool_decide as Heq.
    + (* the folder of the current instance *)
      subst other_proj.
      assert (Hf : flag s curr_proj curr_id = Some false).
      { apply Hfresh. simpl. apply list_elem_of_here. }
      assert (other_insts = curr_insts) as ->.
      { eapply key_unique; eauto. }
      destruct (mark_visited_spec objs s curr_proj curr_insts curr_id curr
                  objs_nodup Hshape Hin curr_lookup Hf)
        as (s1 & Hmark & Hs1 & Hshape1 & Hkept1 & Hset & Hother & Hcount).
      unfold st_bind at 1. rewrite Hmark.
      specialize (IH (acc ++ [(curr_proj, curr)]) s1 Hshape1).
      destruct (find_matches annot_type curr_proj curr_id curr rest
                  (acc ++ [(curr_proj, curr)]) s1) as [[g s']|e];
        [|apply IH; intros H; contradiction].
      destruct IH as (Hs & Hshape' & Hkept & added & -> & Hsub & _ & Hcnt & Hmem);
        [intros H; contradiction|].
      split; [eapply same_output_trans; eauto|]. split; [exact Hshape'|].
      split; [intros k i Hki; auto|].
      exists ((curr_proj, curr) :: added).
      split; [by rewrite <- app_assoc|].
      split; [simpl; by apply sublist_skip|].
      split; [intros _; split; [apply list_elem_of_here | auto]|].
      split; [rewrite Hcnt, Hcount, <- app_comm_cons; apply Permutation_middle|].
      constructor; [by left | exact Hmem].
    + (* another folder *)
      fold (threshold annot_type). unfold st_bind at 1.
      pose proof (search_spec curr other_proj (enumerate other_insts)
                    (threshold annot_type) None s) as Hsearch.
      destruct (search curr other_proj (enumerate other_insts)
                  (threshold annot_type) None s) as [[best s1]|e].
      2:{ destruct Hsearch as ([i d] & Hc & _ & He).
          - intros [i d] Hc. simpl. apply enumerate_lookup in Hc.
            eapply flag_of_shape; eauto. eapply lookup_lt_Some; eauto.
          - exists (curr_proj, curr), (other_proj, d). split; [exact Hcurr|].
            split; [|split; [exact Heq | exact He]].
            apply enumerate_lookup in Hc.
            eapply members_of_elem; [exact Hin|].
            eapply list_elem_of_lookup_2; eauto. }
      destruct Hsearch as (Hv1 & Hs1 & max' & _ & Hbest & _).
      { intros [i d] Hc. simpl. apply enumerate_lookup in Hc.
        eapply flag_of_shape; eauto. eapply lookup_lt_Some; eauto. }
      assert (Hflag1 : forall k i, flag s1 k i = flag s k i).
      { intros k i. by apply flag_ext. }
      assert (Hshape1 : visited_shape objs s1).
      { intros k insts Hk. rewrite Hv1. by apply Hshape. }
      assert (Hcount1 : visited_members objs s1 = visited_members objs s).
      { unfold visited_members. by rewrite Hv1. }
      assert (Hfresh' : curr_proj ∈ map fst rest -> flag s curr_proj curr_id = Some false).
      { intros H. apply Hfresh. simpl. by apply list_elem_of_further. }
      destruct Hbest as [[-> _]|(pre & [id d] & post & sc & Hcands & -> & [Hf Hcls] & Hsc & _ & Hex & _)].
      * (* no candidate taken *)
        specialize (IH acc s1 Hshape1).
        destruct (find_matches annot_type curr_proj curr_id curr rest acc s1)
          as [[g s']|e]; [|apply IH; by rewrite Hflag1].
        destruct IH as (Hs & Hshape' & Hkept & added & -> & Hsub & Hseed & Hcnt & Hmem);
          [by rewrite Hflag1|].
        split; [eapply same_output_trans; eauto|]. split; [exact Hshape'|].
        split; [intros k i Hki; apply Hkept; by rewrite Hflag1|].
        exists added. split; [reflexivity|].
        split; [simpl; by apply sublist_cons|].
        split.
        { intros H. simpl in H. apply elem_of_cons in H as [H|H];
            [congruence | auto]. }
        split; [by rewrite Hcnt, Hcount1 | exact Hmem].
      * (* the best candidate is taken *)
        simpl in Hf, Hcls, Hsc.
        rewrite <- Hflag1 in Hf.
        assert (Hd : other_insts !! id = Some d).
        { apply enumerate_lookup. rewrite Hcands. apply elem_of_app. right.
          apply list_elem_of_here. }
        destruct (mark_visited_spec objs s1 other_proj other_insts id d
                    objs_nodup Hshape1 Hin Hd Hf)
          as (s2 & Hmark & Hs2 & Hshape2 & Hkept2 & Hset & Hother & Hcount).
        unfold st_bind at 1. rewrite Hmark.
        specialize (IH (acc ++ [(other_proj, d)]) s2 Hshape2).
        assert (Hfresh2 : curr_proj ∈ map fst rest ->
                          flag s2 curr_proj curr_id = Some false).
        { intros H. rewrite Hother by congruence. rewrite Hflag1. auto. }
        destruct (find_matches annot_type curr_proj curr_id curr rest
                    (acc ++ [(other_proj, d)]) s2) as [[g s']|e];
          [|by apply IH].
        destruct (IH Hfresh2) as (Hs & Hshape' & Hkept & added & -> & Hsub & Hseed & Hcnt & Hmem).
        split; [eapply same_output_trans; [exact Hs1|];
                eapply same_output_trans; eauto|].
        split; [exact Hshape'|].
        split; [intros k i Hki; apply Hkept, Hkept2; by rewrite Hflag1|].
        exists ((other_proj, d) :: added).
        split; [by rewrite <- app_assoc|].
        split; [simpl; by apply sublist_skip|].
        split.
        { intros H. simpl in H. apply elem_of_cons in H as [H|H]; [congruence|].
          destruct (Hseed H) as [Hadded Hflag]. split; [|exact Hflag].
          by apply list_elem_of_further. }
        split; [rewrite Hcnt, Hcount, Hcount1, <- app_comm_cons; apply Permutation_middle|].
        constructor; [|exact Hmem].
        right. simpl. split; [congruence|]. split; [exact Hcls|].
        split; [by exists other_insts, id|]. by exists sc.
Qed.

End RoundProperties.

(** ** Scoring a group *)

Lemma enumerate_from_app {A} (xs ys : list A) j :
  enumerate_from j (xs ++ ys)
  = enumerate_from j xs ++ enumerate_from (j + length xs) ys.
Proof.
  revert j. induction xs as [|x xs IH]; intros j; simpl.
  - by rewrite Nat.add_0_r.
  - rewrite IH. do 3 f_equal. lia.
Qed.

Lemma py_div_folders (x : Q) (n : nat) :
  (2 <= n)%nat ->
  py_div x (inject_Z (Z.of_nat n - 1)) = Ok (x / inject_Z (Z.of_nat n - 1))%Q.
Proof.
  intros Hn. unfold py_div.
  destruct (Qeq_bool (inject_Z (Z.of_nat n - 1)) 0) eqn:E; [|reflexivity].
  apply Qeq_bool_iff in E. unfold Qeq in E. simpl in E. lia.
Qed.

Section ScoringProperties.
Context {Sh : Shapely}.
Local Abbreviation inst_data := (inst_data geom) (only parsing).
Local Abbreviation match_data := (match_data geom) (only parsing).
Local Abbreviation projects := (projects geom) (only parsing).
Local Abbreviation state := (state geom) (only parsing).

Variable objs : projects.
Variable all_projects : list (option string).
Variable image_name : string.

Lemma sum_proj_cons_total (m : match_data) (l : list match_data) :
  m ∈ members_of objs ->
  (forall o, o ∈ l -> o ∈ members_of objs) ->
  forall acc (s : state),
    match sum_proj_cons m l acc s with
    | Ok (q, s') => visited_instances s' = visited_instances s
    | Raise e => scorer_raises objs e
    end.
Proof.
  intros Hm. induction l as [|o l IH]; intros Hl acc s; simpl.
  - reflexivity.
  - assert (Hl' : forall o', o' ∈ l -> o' ∈ members_of objs).
    { intros o' Ho'. by apply Hl, list_elem_of_further. }
    case_bool_decide as Hne; [|by apply IH].
    unfold st_bind at 1.
    pose proof (call_scorer_frame (snd m) (snd o) s) as Hcall.
    destruct (call_scorer (snd m) (snd o) s) as [[sc s1]|e].
    + destruct Hcall as (_ & Hv & _).
      specialize (IH Hl' (acc + (if Qle_bool sc 0 then 1 else sc))%Q s1).
      destruct (sum_proj_cons m l _ s1) as [[q s']|e]; [congruence | exact IH].
    + exists m, o. split; [exact Hm|].
      split; [apply Hl, list_elem_of_here|]. split; [exact Hne | exact Hcall].
Qed.

Lemma score_match_total (g : list match_data) (m : match_data) (s : state) :
  (2 <= length all_projects)%nat ->
  m ∈ members_of objs ->
  (forall o, o ∈ g -> o ∈ members_of objs) ->
  match score_match all_projects image_name g m s with
  | Ok (u, s') => visited_instances s' = visited_instances s
  | Raise e => scorer_raises objs e
  end.
Proof.
  intros Hn Hm Hg. unfold score_match. unfold st_bind at 1.
  pose proof (sum_proj_cons_total m g Hm Hg 0%Q s) as Hsum.
  destruct (sum_proj_cons m g 0%Q s) as [[q s1]|e]; [|exact Hsum].
  unfold st_bind, st_get, st_lift. rewrite (py_div_folders _ _ Hn).
  simpl. exact Hsum.
Qed.

Lemma score_loop_total (g l : list match_data) :
  (2 <= length all_projects)%nat ->
  (forall o, o ∈ g -> o ∈ members_of objs) ->
  (forall o, o ∈ l -> o ∈ members_of objs) ->
  forall s : state,
    match st_for l (score_match all_projects image_name g) s with
    | Ok (u, s') => visited_instances s' = visited_instances s
    | Raise e => scorer_raises objs e
    end.
Proof.
  intros Hn Hg. induction l as [|m l IH]; intros Hl s; simpl.
  - reflexivity.
  - unfold st_bind at 1.
    pose proof (score_match_total g m s Hn (Hl m (list_elem_of_here _ _)) Hg) as Hm.
    destruct (score_match all_projects image_name g m s) as [[u s1]|e];
      [|exact Hm].
    assert (Hl' : forall o, o ∈ l -> o ∈ members_of objs).
    { intros o Ho. by apply Hl, list_elem_of_further. }
    specialize (IH Hl' s1).
    destruct (st_for l _ s1) as [[u' s']|e]; [congruence | exact IH].
Qed.

(** The rows of a group whose members are instances of [objs], of folders
    of the table, no two of the same folder: the scoring returns unless the
    scorer raises; in particular the mean never divides by zero. *)
Lemma score_matches_total (g : list match_data) (s : state) :
  (forall o, o ∈ g -> o ∈ members_of objs) ->
  NoDup (map fst g) ->
  (forall o, o ∈ g -> fst o ∈ all_projects) ->
  match score_matches all_projects image_name g s with
  | Ok (u, s') =>
      visited_instances s' = visited_instances s
      /\ groups s' = groups s /\ instance_id s' = instance_id s
      /\ exists rows,
           image_data s' = image_data s ++ rows
           /\ scored_rows (length all_projects) image_name (instance_id s) g rows
  | Raise e => scorer_raises objs e
  end.
Proof.
  intros Hg Hnd Hall.
  assert (Hweak :
    match score_matches all_projects image_name g s with
    | Ok (u, s') => visited_instances s' = visited_instances s
    | Raise e => scorer_raises objs e
    end).
  { unfold score_matches. destruct g as [|m1 [|m2 g]].
    - reflexivity.
    - reflexivity.
    - apply score_loop_total; auto.
      assert (Hsub : map fst (m1 :: m2 :: g) ⊆+ all_projects).
      { apply NoDup_submseteq; [exact Hnd|].
        intros k Hk. apply list_elem_of_In, in_map_iff in Hk as (o & <- & Ho).
        by apply Hall, list_elem_of_In. }
      apply submseteq_length in Hsub. simpl in Hsub. lia. }
  destruct (score_matches all_projects image_name g s) as [[[] s']|e] eqn:E;
    [|exact Hweak].
  split; [exact Hweak|]. by apply score_matches_ok.
Qed.

End ScoringProperties.

(** ** The matching loop *)

Section LoopProperties.
Context {Sh : Shapely}.
Local Abbreviation inst_data := (inst_data geom) (only parsing).
Local Abbreviation match_data := (match_data geom) (only parsing).
Local Abbreviation projects := (projects geom) (only parsing).
Local Abbreviation state := (state geom) (only parsing).

Variable objs : projects.
Hypothesis objs_nodup : NoDup (map fst objs).
Variable annot_type : string.
Variable all_projects : list (option string).
Variable image_name : string.
Hypothesis folders_listed : forall k, k ∈ map fst objs -> k ∈ all_projects.

Local Abbreviation inv :=
  (matcher_inv objs annot_type (length all_projects) image_name) (only parsing).

Lemma member_instance curr_proj curr_insts curr_id curr (m : match_data) :
  (curr_proj, curr_insts) ∈ objs -> curr_insts !! curr_id = Some curr ->
  member objs annot_type curr_proj curr m ->
  m ∈ members_of objs.
Proof.
  intros Hin Hcurr [->|(_ & _ & (insts & id & Hk & Hd) & _)].
  - eapply members_of_elem; [exact Hin|].
    eapply list_elem_of_lookup_2; eauto.
  - destruct m as [k d]. eapply members_of_elem; [exact Hk|].
    eapply list_elem_of_lookup_2; eauto.
Qed.

Lemma layout_snoc (s s' : state) g rows :
  layout (length all_projects) image_name s ->
  groups s' = groups s ++ [g] ->
  image_data s' = image_data s ++ rows ->
  scored_rows (length all_projects) image_name (length (groups s)) g rows ->
  layout (length all_projects) image_name s'.
Proof.
  intros (rowss & Hdata & Hrows) Hg Hd Hscored. exists (rowss ++ [rows]). split.
  - rewrite Hd, Hdata, concat_app. simpl. by rewrite app_nil_r.
  - rewrite Hg. unfold enumerate. rewrite enumerate_from_app.
    apply Forall2_app; [exact Hrows|]. simpl. constructor; [|constructor].
    exact Hscored.
Qed.

(** One pass of the loop over the instances of a folder: it keeps the
    invariant and leaves the instance flagged, or the scorer raised. *)
Lemma match_instance_spec curr_proj curr_insts curr_id curr :
  (curr_proj, curr_insts) ∈ objs -> curr_insts !! curr_id = Some curr ->
  forall s, inv s ->
    match match_instance annot_type all_projects image_name objs curr_proj
            (curr_id, curr) s with
    | Ok (u, s') => (inv s' /\ flag s' curr_proj curr_id = Some true)
                    /\ flags_kept s s'
    | Raise e => scorer_raises objs e
    end.
Proof.
  intros Hin Hcurr.
  intros s (Hshape & Hvis & Hid & Hlay & Hgroups).
    unfold match_instance. cbn [fst snd].
    destruct (flag_of_shape objs s curr_proj curr_insts curr_id Hshape Hin)
      as [b Hb]; [eapply lookup_lt_Some; eauto|].
    unfold st_bind at 1. rewrite (visited_of_flag _ _ _ _ Hb).
    destruct b.
    { unfold st_ret. repeat split; auto. by intros k i. }
    pose proof (find_matches_spec objs objs_nodup annot_type curr_proj curr_id
                  curr curr_insts Hin Hcurr objs
                  (ex_intro _ [] eq_refl) [] s Hshape (fun _ => Hb)) as Hfind.
    unfold st_bind at 1.
    destruct (find_matches annot_type curr_proj curr_id curr objs [] s)
      as [[g s1]|e]; [|exact Hfind].
    destruct Hfind as ((Hd1 & Hg1 & Hi1) & Hshape1 & Hkept1 & added & Hadded
                       & Hsub & Hseed & Hvis1 & Hmem).
    simpl in Hadded. subst added.
    destruct (Hseed (key_of_elem _ _ _ Hin)) as [Hseed_in Hflag].
    unfold st_bind at 1. unfold record_group at 1, st_modify at 1.
    cbv beta iota.
    set (s2 := {| visited_instances := visited_instances s1;
                  instance_id := instance_id s1;
                  image_data := image_data s1;
                  scorer_calls := scorer_calls s1;
                  groups := groups s1 ++ [g] |}).
    assert (Hg_inst : forall o, o ∈ g -> o ∈ members_of objs).
    { intros o Ho. rewrite Forall_forall in Hmem.
      eapply member_instance; eauto. }
    assert (Hg_nodup : NoDup (map fst g)).
    { eapply sublist_NoDup; eauto. }
    assert (Hg_all : forall o, o ∈ g -> fst o ∈ all_projects).
    { intros o Ho. apply folders_listed. eapply elem_of_sublist; [|exact Hsub].
      apply list_elem_of_In, in_map. by apply list_elem_of_In. }
    pose proof (score_matches_total objs all_projects image_name g s2
                  Hg_inst Hg_nodup Hg_all) as Hscore.
    unfold st_bind at 1.
    destruct (score_matches all_projects image_name g s2) as [[u s3]|e];
      [|exact Hscore].
    destruct Hscore as (Hv3 & Hg3 & Hi3 & rows & Hd3 & Hscored).
    unfold next_instance_id, st_modify. subst s2. simpl in *.
    assert (Hflag3 : forall k i, flag s3 k i = flag s1 k i).
    { intros k i. by apply flag_ext. }
    split; [split|].
    - split; [|split; [|split; [|split]]]; simpl.
      + intros k insts Hk. rewrite Hv3. by apply Hshape1.
      + rewrite Hg3, Hg1, concat_app. simpl. rewrite app_nil_r.
        rewrite <- Hvis. rewrite <- Hvis1.
        unfold visited_members. by rewrite Hv3.
      + rewrite Hi3, Hi1, Hid, Hg3, Hg1, length_app. simpl. lia.
      + eapply (layout_snoc s); eauto; simpl.
        * by rewrite Hg3, Hg1.
        * by rewrite Hd3, Hd1.
        * by rewrite <- Hid, <- Hi1.
      + rewrite Hg3, Hg1. apply Forall_app. split; [exact Hgroups|].
        constructor; [|constructor]. split; [exact Hg_nodup|].
        exists (curr_proj, curr), curr_insts, curr_id. simpl. auto.
    - unfold flag in *. simpl. rewrite Hv3. exact Hflag.
    - intros k i Hki. unfold flag in *. simpl. rewrite Hv3. by apply Hkept1.
Qed.

Lemma folder_spec (pre post : projects) k insts :
  objs = pre ++ (k, insts) :: post ->
  triple (fun s => inv s /\ folders_done pre s)
    (st_for (enumerate insts)
       (match_instance annot_type all_projects image_name objs k))
    (fun _ s => inv s /\ folders_done (pre ++ [(k, insts)]) s)
    (scorer_raises objs).
Proof.
  intros Hobjs.
  assert (Hin : (k, insts) ∈ objs).
  { rewrite Hobjs. apply elem_of_app. right. apply list_elem_of_here. }
  set (J := fun (done : list (nat * inst_data)) (s : state) =>
              inv s /\ folders_done pre s
              /\ forall c, c ∈ done -> flag s k (fst c) = Some true).
  eapply triple_weaken;
    [apply (triple_for_prefix J (enumerate insts) _ (scorer_raises objs) [])| | |].
  - intros pre' [i d] post' Heq _ s (Hinv & Hpre & Hdone).
    assert (Hd : insts !! i = Some d).
    { apply enumerate_lookup. simpl in Heq. rewrite Heq.
      apply elem_of_app. right. apply list_elem_of_here. }
    pose proof (match_instance_spec k insts i d Hin Hd s Hinv) as H.
    destruct (match_instance _ _ _ _ _ _ s) as [[u s']|e]; [|exact H].
    destruct H as [[Hinv' Hflag] Hkept].
    split; [exact Hinv'|]. split.
    + intros k' insts' i' d' Hk' Hd'. apply Hkept. eapply Hpre; eauto.
    + intros c Hc. apply elem_of_app in Hc as [Hc|Hc].
      * by apply Hkept, Hdone.
      * apply list_elem_of_singleton in Hc as ->. exact Hflag.
  - intros s [Hinv Hpre]. split; [exact Hinv|]. split; [exact Hpre|].
    intros c Hc. by apply elem_of_nil in Hc.
  - intros u s (Hinv & Hpre & Hdone). split; [exact Hinv|].
    intros k' insts' i' d' Hk' Hd'. apply elem_of_app in Hk' as [Hk'|Hk'].
    + eapply Hpre; eauto.
    + apply list_elem_of_singleton in Hk'. inversion Hk'; subst.
      apply (Hdone (i', d')). simpl. by apply enumerate_lookup.
  - auto.
Qed.

(** The whole loop: it keeps the invariant and leaves every instance
    flagged, or the scorer raised. *)
Lemma match_instances_spec :
  triple inv
    (match_instances annot_type all_projects image_name objs)
    (fun _ s => inv s /\ folders_done objs s)
    (scorer_raises objs).
Proof.
  unfold match_instances.
  eapply triple_weaken;
    [apply (triple_for_prefix (fun done s => inv s /\ folders_done done s)
              objs _ (scorer_raises objs) [])| | |].
  - intros pre [k insts] post Heq _. simpl in Heq. cbn [fst snd].
    by apply (folder_spec pre post).
  - intros s Hinv. split; [exact Hinv|].
    intros k insts i d Hk. by apply elem_of_nil in Hk.
  - intros u s H. exact H.
  - auto.
Qed.

Lemma visited_members_done (l : projects) (s : state) :
  (forall kv, kv ∈ l -> kv ∈ objs) ->
  visited_shape objs s -> folders_done objs s ->
  visited_members l s = members_of l.
Proof.
  intros Hl Hshape Hdone. unfold visited_members, members_of.
  induction l as [|[k insts] l IH]; [reflexivity|].
  cbn [map concat fst snd]. rewrite IH.
  - f_equal. f_equal.
    assert (Hk : (k, insts) ∈ objs) by apply Hl, list_elem_of_here.
    destruct (Hshape k insts Hk) as (flags & Hflags & Hlen).
    rewrite Hflags. cbn [default id]. apply select_all; [exact Hlen|].
    intros i b Hi.
    destruct (lookup_lt_is_Some_2 insts i) as [d Hd].
    { rewrite <- Hlen. eapply lookup_lt_Some; eauto. }
    specialize (Hdone k insts i d Hk Hd). unfold flag in Hdone.
    rewrite Hflags in Hdone. congruence.
  - intros kv Hkv. by apply Hl, list_elem_of_further.
Qed.

Lemma initial_state_flags (l : projects) k insts :
  NoDup (map fst l) -> (k, insts) ∈ l ->
  visited_instances (initial_state l) !! k
  = Some (replicate (length insts) false).
Proof.
  intros Hnd Hk. simpl.
  apply (elem_of_list_to_map_1
           (map (fun kv => (fst kv, replicate (length (snd kv)) false)) l)).
  - rewrite <- list_fmap_compose. exact Hnd.
  - apply list_elem_of_In, in_map_iff. exists (k, insts).
    split; [reflexivity | by apply list_elem_of_In].
Qed.

Lemma select_none {A} (n : nat) (xs : list A) : select (replicate n false) xs = [].
Proof.
  revert xs. induction n as [|n IH]; intros [|x xs]; simpl; auto.
Qed.

Lemma matcher_inv_initial : inv (initial_state objs).
Proof.
  split; [|split; [|split; [|split]]].
  - intros k insts Hk. eexists. split; [by apply initial_state_flags|].
    by rewrite length_replicate.
  - replace (visited_members objs (initial_state objs)) with (@nil match_data);
      [reflexivity|].
    unfold visited_members.
    assert (H : forall l : projects, (forall kv, kv ∈ l -> kv ∈ objs) ->
              [] = concat (map (fun kv => map (pair (fst kv))
                     (select (default [] (visited_instances (initial_state objs) !! fst kv))
                             (snd kv))) l)).
    { induction l as [|[k insts] l IH]; intros Hl; [reflexivity|].
      cbn [map concat fst snd].
      rewrite (initial_state_flags objs k insts objs_nodup)
        by apply Hl, list_elem_of_here.
      cbn [default id]. rewrite select_none. simpl. apply IH.
      intros kv Hkv. by apply Hl, list_elem_of_further. }
    by apply H.
  - reflexivity.
  - exists []. split; [reflexivity | constructor].
  - constructor.
Qed.

(** The run of the loop from the initial state. *)
Lemma match_instances_run :
  match match_instances annot_type all_projects image_name objs
          (initial_state objs) with
  | Ok (u, s) =>
      concat (groups s) ≡ₚ members_of objs
      /\ instance_id s = length (groups s)
      /\ layout (length all_projects) image_name s
      /\ Forall (seeded_group objs annot_type) (groups s)
  | Raise e => scorer_raises objs e
  end.
Proof.
  pose proof (match_instances_spec (initial_state objs) matcher_inv_initial) as H.
  destruct (match_instances _ _ _ _ _) as [[u s]|e]; [|exact H].
  destruct H as [(Hshape & Hvis & Hid & Hlay & Hgroups) Hdone].
  split; [|auto].
  rewrite <- Hvis. by rewrite (visited_members_done objs s).
Qed.

End LoopProperties.

(** ** The geometries of an image *)

Section TableProperties.
Context {Sh : Shapely}.
Local Abbreviation inst_data := (inst_data geom) (only parsing).
Local Abbreviation match_data := (match_data geom) (only parsing).
Local Abbreviation projects := (projects geom) (only parsing).
Local Abbreviation state := (state geom) (only parsing).

Lemma dict_mem_elem (k : option string) (d : projects) :
  dict_mem k d = true <-> k ∈ map fst d.
Proof.
  unfold dict_mem. rewrite existsb_exists. split.
  - intros ([k' v] & Hin & Hk). apply bool_decide_eq_true_1 in Hk.
    simpl in Hk. subst k'. apply list_elem_of_In, in_map_iff.
    exists (k, v). auto.
  - intros H. apply list_elem_of_In, in_map_iff in H as (kv & <- & Hin).
    exists kv. split; [exact Hin|]. by apply bool_decide_eq_true_2.
Qed.

Lemma dict_append_keys k (v : inst_data) (d : projects) :
  map fst (dict_append k v d) = map fst d.
Proof.
  unfold dict_append. rewrite map_map. apply map_ext.
  intros [k' insts]. by case_bool_decide.
Qed.

Lemma dict_append_absent k (v : inst_data) (d : projects) :
  k ∉ map fst d -> dict_append k v d = d.
Proof.
  unfold dict_append. induction d as [|[k' insts] d IH]; intros Hk;
    [reflexivity|].
  simpl in *. apply not_elem_of_cons in Hk as [Hne Hk].
  rewrite bool_decide_eq_false_2 by congruence. by rewrite IH.
Qed.

Lemma members_of_dict_append k (v : inst_data) (d : projects) :
  NoDup (map fst d) -> k ∈ map fst d ->
  members_of (dict_append k v d) ≡ₚ members_of d ++ [(k, v)].
Proof.
  induction d as [|[k' insts] d IH]; intros Hnd Hk;
    [by apply elem_of_nil in Hk|].
  simpl in Hnd. apply NoDup_cons in Hnd as [Hk' Hnd].
  change (dict_append k v ((k', insts) :: d))
    with ((if bool_decide (k' = k) then (k', insts ++ [v]) else (k', insts))
          :: dict_append k v d).
  case_bool_decide as Heq.
  - subst k'. rewrite dict_append_absent by exact Hk'.
    unfold members_of. cbn [map concat fst snd].
    rewrite map_app, <- !app_assoc. simpl.
    apply Permutation_app_head. apply Permutation_cons_append.
  - simpl in Hk. apply elem_of_cons in Hk as [Hk|Hk]; [congruence|].
    unfold members_of in *. cbn [map concat fst snd].
    rewrite (IH Hnd Hk). by rewrite app_assoc.
Qed.

Lemma members_of_new_folder k (d : projects) :
  members_of (d ++ [(k, [])]) = members_of d.
Proof.
  unfold members_of. rewrite map_app, concat_app. simpl. by rewrite app_nil_r.
Qed.

Lemma valid_members_cons annot_type (row : df_row) rows :
  valid_members annot_type (row :: rows)
  = match valid_member annot_type row with
    | Some m => m :: valid_members annot_type rows
    | None => valid_members annot_type rows
    end.
Proof. reflexivity. Qed.

(** The loop that builds the geometries: it raises only what building a
    geometry raises; else it files every valid instance under its folder,
    each folder once, and keeps what was filed before. *)
Lemma generate_shapely_objs_spec annot_type (rows : list df_row) :
  forall acc : projects,
    NoDup (map fst acc) ->
    match generate_shapely_objs annot_type rows acc with
    | Ok objs =>
        NoDup (map fst objs)
        /\ (forall k, k ∈ map fst objs ->
              k ∈ map fst acc \/ k ∈ map df_folderName rows)
        /\ members_of objs ≡ₚ members_of acc ++ valid_members annot_type rows
    | Raise e =>
        exists row, row ∈ rows /\ make_inst annot_type (df_meta row) = Raise e
    end.
Proof.
  induction rows as [|row rows IH]; intros acc Hnd.
  - simpl. split; [exact Hnd|]. split; [auto|]. by rewrite app_nil_r.
  - cbn [generate_shapely_objs]. rewrite valid_members_cons.
    unfold valid_member.
    set (objs0 := if dict_mem (df_folderName row) acc then acc
                  else acc ++ [(df_folderName row, [])]).
    assert (Hnd0 : NoDup (map fst objs0)).
    { subst objs0. destruct (dict_mem _ acc) eqn:E; [exact Hnd|].
      rewrite map_app. apply NoDup_app. split; [exact Hnd|]. split.
      - intros k Hk Hk'. simpl in Hk'. apply list_elem_of_singleton in Hk'.
        subst k. apply dict_mem_elem in Hk. congruence.
      - simpl. apply NoDup_singleton. }
    assert (Hin0 : df_folderName row ∈ map fst objs0).
    { subst objs0. destruct (dict_mem _ acc) eqn:E.
      - by apply dict_mem_elem.
      - rewrite map_app. apply elem_of_app. right. simpl.
        apply list_elem_of_here. }
    assert (Hkeys0 : forall k, k ∈ map fst objs0 ->
              k ∈ map fst acc \/ k = df_folderName row).
    { subst objs0. destruct (dict_mem _ acc); [auto|].
      intros k Hk. rewrite map_app in Hk. apply elem_of_app in Hk as [Hk|Hk];
        [auto|]. right. simpl in Hk. by apply list_elem_of_singleton in Hk. }
    assert (Hmem0 : members_of objs0 = members_of acc).
    { subst objs0. destruct (dict_mem _ acc); [reflexivity|].
      apply members_of_new_folder. }
    destruct (make_inst annot_type (df_meta row)) as [g|e] eqn:Hg.
    2:{ simpl. exists row. split; [apply list_elem_of_here | exact Hg]. }
    cbn [result_bind].
    destruct (is_valid g) eqn:Hvalid.
    + set (d := {| inst := g; inst_class := df_className row;
                   inst_creator := df_creatorEmail row;
                   inst_attributes := df_attributes row |}).
      specialize (IH (dict_append (df_folderName row) d objs0)).
      rewrite dict_append_keys in IH. specialize (IH Hnd0).
      destruct (generate_shapely_objs annot_type rows _) as [objs|e].
      * destruct IH as (Hnd' & Hkeys & Hmem). split; [exact Hnd'|]. split.
        -- intros k Hk. destruct (Hkeys k Hk) as [Hk0|Hk0].
           ++ destruct (Hkeys0 k Hk0) as [H0|H0]; [auto|]. subst k.
              right. simpl. apply list_elem_of_here.
           ++ right. simpl. by apply list_elem_of_further.
        -- rewrite Hmem, members_of_dict_append by auto.
           rewrite Hmem0. by rewrite <- app_assoc.
      * destruct IH as (r & Hr & He). exists r.
        split; [by apply list_elem_of_further | exact He].
    + specialize (IH objs0 Hnd0).
      destruct (generate_shapely_objs annot_type rows objs0) as [objs|e].
      * destruct IH as (Hnd' & Hkeys & Hmem). split; [exact Hnd'|]. split.
        -- intros k Hk. destruct (Hkeys k Hk) as [Hk0|Hk0].
           ++ destruct (Hkeys0 k Hk0) as [H0|H0]; [auto|]. subst k.
              right. simpl. apply list_elem_of_here.
           ++ right. simpl. by apply list_elem_of_further.
        -- by rewrite Hmem, Hmem0.
      * destruct IH as (r & Hr & He). exists r.
        split; [by apply list_elem_of_further | exact He].
Qed.

(** A run of [image_consensus]: what it leaves in its locals, or what it
    raises. *)
Lemma image_consensus_run_spec (df : list df_row) image_name annot_type :
  match image_consensus_run df image_name annot_type with
  | Ok s =>
      exists objs,
        NoDup (map fst objs)
        /\ (forall k, k ∈ map fst objs ->
              k ∈ map df_folderName (rows_of image_name df))
        /\ members_of objs ≡ₚ valid_members annot_type (rows_of image_name df)
        /\ concat (groups s) ≡ₚ members_of objs
        /\ instance_id s = length (groups s)
        /\ layout (n_folders df) image_name s
        /\ Forall (seeded_group objs annot_type) (groups s)
  | Raise e =>
      (exists row, row ∈ rows_of image_name df
                   /\ make_inst annot_type (df_meta row) = Raise e)
      \/ (exists a b,
            a ∈ valid_members annot_type (rows_of image_name df)
            /\ b ∈ valid_members annot_type (rows_of image_name df)
            /\ fst a <> fst b
            /\ instance_consensus (inst (snd a)) (inst (snd b)) = Raise e)
  end.
Proof.
  unfold image_consensus_run. fold (rows_of image_name df).
  pose proof (generate_shapely_objs_spec annot_type (rows_of image_name df) []
                (NoDup_nil_2 : NoDup (map fst (@nil (option string * list inst_data)))))
    as Hgen.
  destruct (generate_shapely_objs annot_type (rows_of image_name df) [])
    as [objs|e]; [|by left].
  destruct Hgen as (Hnd & Hkeys & Hmem). simpl in Hmem. cbn [result_bind].
  assert (Hkeys' : forall k, k ∈ map fst objs ->
            k ∈ map df_folderName (rows_of image_name df)).
  { intros k Hk. destruct (Hkeys k Hk) as [H|H]; [|exact H].
    by apply elem_of_nil in H. }
  assert (Hlisted : forall k, k ∈ map fst objs ->
            k ∈ remove_dups (map df_folderName df)).
  { intros k Hk. apply elem_of_remove_dups.
    apply Hkeys' in Hk. apply list_elem_of_In, in_map_iff in Hk as (row & <- & Hrow).
    apply list_elem_of_In, list_elem_of_filter in Hrow as [_ Hrow].
    apply list_elem_of_In, in_map. by apply list_elem_of_In. }
  pose proof (match_instances_run objs Hnd annot_type
                (remove_dups (map df_folderName df)) image_name Hlisted) as Hrun.
  destruct (match_instances annot_type _ image_name objs (initial_state objs))
    as [[u s]|e].
  - cbn [result_bind snd]. destruct Hrun as (Hperm & Hid & Hlay & Hgroups).
    exists objs. auto 10.
  - cbn [result_bind]. right. destruct Hrun as (a & b & Ha & Hb & Hne & He).
    exists a, b. rewrite <- Hmem. auto.
Qed.

End TableProperties.

(** ** The result of [image_consensus] *)

Lemma Forall2_concat {A B} (P : A -> B -> Prop) (ls : list (list A))
    (ks : list (list B)) :
  Forall2 (Forall2 P) ls ks -> Forall2 P (concat ls) (concat ks).
Proof.
  induction 1 as [|l k ls ks Hlk _ IH]; simpl; [constructor|].
  by apply Forall2_app.
Qed.

Lemma enumerate_from_lookup_index {A} (xs : list A) j i c :
  enumerate_from j xs !! i = Some c ->
  fst c = (j + i)%nat /\ xs !! i = Some (snd c).
Proof.
  revert j i. induction xs as [|x xs IH]; intros j i H; [discriminate|].
  destruct i as [|i]; simpl in H.
  - injection H as <-. simpl. split; [lia | reflexivity].
  - apply IH in H as [-> H]. split; [lia | exact H].
Qed.

Section ResultProperties.
Context {Sh : Shapely}.
Local Abbreviation inst_data := (inst_data geom) (only parsing).
Local Abbreviation match_data := (match_data geom) (only parsing).
Local Abbreviation projects := (projects geom) (only parsing).
Local Abbreviation state := (state geom) (only parsing).

Lemma image_consensus_inv (df : list df_row) image_name annot_type rows :
  image_consensus df image_name annot_type = Ok rows ->
  exists s, image_consensus_run df image_name annot_type = Ok s
            /\ rows = image_data s.
Proof.
  unfold image_consensus. intros H.
  apply result_bind_ok in H as (s & Hs & H). inversion H. eauto.
Qed.

Lemma image_consensus_raise (df : list df_row) image_name annot_type e :
  image_consensus df image_name annot_type = Raise e ->
  image_consensus_run df image_name annot_type = Raise e.
Proof.
  unfold image_consensus.
  destruct (image_consensus_run df image_name annot_type); simpl; congruence.
Qed.

Lemma scored_rows_each n image_name id (g : list match_data) rows :
  scored_rows n image_name id g rows ->
  Forall2 (fun m r => exists sc, r = make_row image_name id m sc) g rows.
Proof.
  unfold scored_rows. destruct g as [|m1 [|m2 g]]; intros H.
  - inversion H. constructor.
  - subst rows. constructor; [eauto | constructor].
  - eapply Forall2_impl; [exact H|]. intros m r (scores & sc & _ & _ & ->). eauto.
Qed.

Lemma make_row_stands_for image_name id (m : match_data) sc :
  stands_for (make_row image_name id m sc) m.
Proof. repeat split. Qed.

(** The rows of a state laid out by groups stand, in order, for the
    members of the groups. *)
Lemma layout_rows n image_name (s : state) :
  layout n image_name s ->
  Forall2 (fun m r => stands_for r m /\ imageName r = image_name)
          (concat (groups s)) (image_data s).
Proof.
  intros (rowss & -> & Hrows). apply Forall2_concat.
  unfold enumerate in Hrows. revert Hrows. generalize 0%nat. generalize rowss.
  clear rowss. induction (groups s) as [|g gs IH]; intros rowss j H;
    simpl in H; inversion H; subst; constructor.
  - simpl in *. eapply Forall2_impl; [eapply scored_rows_each; eauto|].
    intros m r [sc ->]. split; [apply make_row_stands_for | reflexivity].
  - eapply IH; eauto.
Qed.

(** X2: [image_consensus] raises only what building the geometry of a
    row of the image raises, or what the scorer raises on two valid
    instances of the image that come from different folders.  In
    particular the flags are never indexed out of range and the mean
    never divides by zero. *)
Theorem image_consensus_raises_only (df : list df_row) image_name annot_type e :
  image_consensus df image_name annot_type = Raise e ->
  (exists row, row ∈ df /\ df_imageName row = image_name
               /\ make_inst annot_type (df_meta row) = Raise e)
  \/ (exists a b,
        a ∈ valid_members annot_type (rows_of image_name df)
        /\ b ∈ valid_members annot_type (rows_of image_name df)
        /\ fst a <> fst b
        /\ instance_consensus (inst (snd a)) (inst (snd b)) = Raise e).
Proof.
  intros H. apply image_consensus_raise in H.
  pose proof (image_consensus_run_spec df image_name annot_type) as Hrun.
  rewrite H in Hrun. destruct Hrun as [(row & Hrow & He)|Hsc]; [left | by right].
  apply list_elem_of_filter in Hrow as [Himg Hrow]. eauto.
Qed.

(** X3: the rows of the result stand one for one for the valid instances
    of the image: every instance whose geometry is valid has exactly one
    row, of its folder, class, creator, attributes and area, and there is
    no other row. *)
Theorem image_consensus_one_row_per_valid_instance (df : list df_row)
    image_name annot_type rows :
  image_consensus df image_name annot_type = Ok rows ->
  exists ms,
    ms ≡ₚ valid_members annot_type (rows_of image_name df)
    /\ Forall2 (fun m r => stands_for r m /\ imageName r = image_name) ms rows.
Proof.
  intros H. apply image_consensus_inv in H as (s & Hs & ->).
  pose proof (image_consensus_run_spec df image_name annot_type) as Hrun.
  rewrite Hs in Hrun.
  destruct Hrun as (objs & _ & _ & Hmem & Hperm & _ & Hlay & _).
  exists (concat (groups s)). split; [by rewrite Hperm|].
  by eapply layout_rows.
Qed.

(** X4: the rows of the result come in blocks, one per group: the [i]-th
    block is not empty, its rows carry the instance id [i], and no two of
    them are of the same folder. *)
Theorem image_consensus_blocks (df : list df_row) image_name annot_type rows :
  image_consensus df image_name annot_type = Ok rows ->
  exists blocks,
    rows = concat blocks
    /\ forall i block,
         blocks !! i = Some block ->
         block <> []
         /\ (forall r, r ∈ block -> instanceId r = i)
         /\ NoDup (map folderName block).
Proof.
  intros H. apply image_consensus_inv in H as (s & Hs & ->).
  pose proof (image_consensus_run_spec df image_name annot_type) as Hrun.
  rewrite Hs in Hrun.
  destruct Hrun as (objs & _ & _ & _ & _ & _ & (rowss & Hdata & Hrows) & Hgroups).
  exists rowss. split; [exact Hdata|].
  intros i block Hblock.
  destruct (Forall2_lookup_r _ _ _ _ _ Hrows Hblock) as ([j g] & Hg & Hscored).
  apply enumerate_from_lookup_index in Hg as [Hj Hg]. simpl in Hj, Hg, Hscored.
  subst j. apply scored_rows_each in Hscored.
  rewrite Forall_forall in Hgroups.
  destruct (Hgroups g (list_elem_of_lookup_2 _ _ _ Hg))
    as (Hnd & seed & _ & _ & Hseed & _).
  split; [|split].
  - intros ->. inversion Hscored; subst. by apply elem_of_nil in Hseed.
  - intros r Hr. apply list_elem_of_lookup in Hr as [k Hk].
    destruct (Forall2_lookup_r _ _ _ _ _ Hscored Hk) as (m & _ & sc & ->).
    reflexivity.
  - replace (map folderName block) with (map fst g); [exact Hnd|].
    clear -Hscored. induction Hscored as [|m r g block [sc ->] _ IH];
      [reflexivity|]. simpl. by rewrite IH.
Qed.

End ResultProperties.

Lemma lookup_enumerate {A} (xs : list A) i c :
  enumerate xs !! i = Some c -> fst c = i.
Proof.
  unfold enumerate. intros H. by apply enumerate_from_lookup_index in H as [-> _].
Qed.

Lemma enumerate_before {A} (xs : list A) pre c post c' :
  enumerate xs = pre ++ c :: post ->
  c' ∈ enumerate xs -> (fst c' < fst c)%nat -> c' ∈ pre.
Proof.
  intros Heq Hc' Hlt.
  assert (Hc : fst c = length pre).
  { apply (lookup_enumerate xs). rewrite Heq.
    by rewrite lookup_app_r, Nat.sub_diag by lia. }
  rewrite Heq in Hc'. apply elem_of_app in Hc' as [Hc'|Hc']; [exact Hc'|].
  apply elem_of_cons in Hc' as [->|Hc']; [lia|].
  apply list_elem_of_lookup in Hc' as [k Hk].
  assert (fst c' = (length pre + S k)%nat).
  { apply (lookup_enumerate xs). rewrite Heq.
    rewrite lookup_app_r by lia.
    replace (length pre + S k - length pre)%nat with (S k) by lia. exact Hk. }
  lia.
Qed.

Lemma shapely_format_flat {A} (pairs : list (A * A)) :
  shapely_format (flat_coords pairs) = pairs.
Proof.
  induction pairs as [|[x y] pairs IH]; [reflexivity|].
  unfold flat_coords in *. simpl. by rewrite IH.
Qed.

(** X10: pairing the coordinates of a polygon undoes flattening its
    points, and a trailing coordinate without a partner is dropped. *)
Theorem shapely_format_round_trip {A} (pairs : list (A * A)) (z : A) :
  shapely_format (flat_coords pairs) = pairs
  /\ shapely_format (flat_coords pairs ++ [z]) = pairs.
Proof.
  split; [apply shapely_format_flat|].
  induction pairs as [|[x y] pairs IH]; [reflexivity|].
  unfold flat_coords in *. simpl. by rewrite IH.
Qed.

Section SearchResult.
Context {Sh : Shapely}.
Local Abbreviation inst_data := (inst_data geom) (only parsing).
Local Abbreviation match_data := (match_data geom) (only parsing).
Local Abbreviation projects := (projects geom) (only parsing).
Local Abbreviation state := (state geom) (only parsing).

Lemma flag_of_visited (s s' : state) proj id b :
  visited proj id s = Ok (b, s') -> flag s proj id = Some b.
Proof.
  unfold flag, visited. destruct (visited_instances s !! proj) as [flags|];
    [|discriminate].
  destruct (flags !! id); [|discriminate]. intros H. by inversion H.
Qed.

Lemma search_ok_flags (curr : inst_data) other_proj cands :
  forall max_score best (s : state) best' s',
    search curr other_proj cands max_score best s = Ok (best', s') ->
    forall c, c ∈ cands -> exists b, flag s other_proj (fst c) = Some b.
Proof.
  induction cands as [|[other_id other] rest IH];
    intros max_score best s best' s' H c Hc; [by apply elem_of_nil in Hc|].
  simpl in H. apply st_bind_ok in H as (v & s1 & Hv & H).
  pose proof (flag_of_visited _ _ _ _ _ Hv) as Hflag.
  apply visited_ok in Hv as ->.
  apply elem_of_cons in Hc as [->|Hc]; [eauto|].
  destruct v; [eapply IH; eauto|].
  apply st_bind_ok in H as (sc & s2 & Hsc & H).
  pose proof (call_scorer_frame curr other s) as Hcall. rewrite Hsc in Hcall.
  destruct Hcall as (_ & Hvis & _).
  rewrite <- (flag_ext s s2) by exact Hvis.
  destruct (exceeds sc max_score && _); eapply IH; eauto.
Qed.

(** X1: the search of one folder for a match.  The instance returned is
    not visited, has the class of the current instance, and its score
    exceeds the starting bound; no eligible instance of the folder scores
    higher, and those before it score lower.  When none is returned, no
    eligible instance of the folder exceeds the bound. *)
Theorem search_takes_best (curr : inst_data) other_proj
    (insts : list inst_data) max_score (s : state) best s' :
  search curr other_proj (enumerate insts) max_score None s = Ok (best, s') ->
  match best with
  | Some c =>
      insts !! fst c = Some (snd c)
      /\ eligible s curr other_proj c
      /\ exists sc,
           instance_consensus (inst curr) (inst (snd c)) = Ok sc
           /\ exceeds sc max_score = true
           /\ forall c', insts !! fst c' = Some (snd c') ->
                eligible s curr other_proj c' ->
                exists sc',
                  instance_consensus (inst curr) (inst (snd c')) = Ok sc'
                  /\ (sc' <= sc)%Q
                  /\ ((fst c' < fst c)%nat -> (sc' < sc)%Q)
  | None =>
      forall c', insts !! fst c' = Some (snd c') ->
        eligible s curr other_proj c' ->
        exists sc',
          instance_consensus (inst curr) (inst (snd c')) = Ok sc'
          /\ exceeds sc' max_score = false
  end.
Proof.
  intros H.
  pose proof (search_spec curr other_proj (enumerate insts) max_score None s
                (search_ok_flags _ _ _ _ _ _ _ _ H)) as Hspec.
  rewrite H in Hspec. destruct Hspec as (_ & _ & max' & _ & Hbest & Hall).
  assert (Hcand : forall c' : nat * inst_data,
            insts !! fst c' = Some (snd c') -> c' ∈ enumerate insts).
  { intros [i d] Hc'. by apply enumerate_lookup. }
  destruct Hbest as [[-> ->]|(pre & c & post & sc & Hcands & -> & Hel & Hsc & -> & Hex & Hpre)].
  - intros c' Hc' Hel'. apply Hall; auto.
  - split.
    { destruct c as [i d]. apply enumerate_lookup. rewrite Hcands.
      apply elem_of_app. right. apply list_elem_of_here. }
    split; [exact Hel|]. exists sc. split; [exact Hsc|]. split; [exact Hex|].
    intros c' Hc' Hel'.
    destruct (Hall c' (Hcand c' Hc') Hel') as (sc' & Hsc' & Hno).
    exists sc'. split; [exact Hsc'|]. split.
    + simpl in Hno. by apply Qlt_bool_false in Hno.
    + intros Hlt.
      destruct (Hpre c' (enumerate_before insts pre c post c' Hcands
                           (Hcand c' Hc') Hlt) Hel') as (sc'' & Hsc'' & Hlt').
      congruence.
Qed.

End SearchResult.

Lemma Qsum_clamp_nonpos (scores : list Q) :
  Forall (fun sc => (sc <= 0)%Q) scores ->
  (Qsum (map clamp scores) == inject_Z (Z.of_nat (length scores)))%Q.
Proof.
  induction 1 as [|sc scores Hsc _ IH].
  - reflexivity.
  - cbn [map Qsum fold_right length]. fold (Qsum (map clamp scores)).
    rewrite IH. unfold clamp.
    apply Qle_bool_iff in Hsc. rewrite Hsc.
    rewrite Nat2Z.inj_succ. unfold Z.succ. rewrite inject_Z_plus. ring.
Qed.

Lemma concat_singletons {A} (blocks : list (list A)) i r :
  (forall block, block ∈ blocks -> length block = 1%nat) ->
  concat blocks !! i = Some r -> blocks !! i = Some [r].
Proof.
  revert i. induction blocks as [|block blocks IH]; intros i Hone H;
    [discriminate|].
  assert (Hb : length block = 1%nat) by apply Hone, list_elem_of_here.
  destruct block as [|x [|y block]]; try discriminate.
  destruct i as [|i]; simpl in *; [congruence|].
  apply IH; [|exact H]. intros b Hb'. by apply Hone, list_elem_of_further.
Qed.

Section GroupProperties.
Context {Sh : Shapely}.
Local Abbreviation inst_data := (inst_data geom) (only parsing).
Local Abbreviation match_data := (match_data geom) (only parsing).
Local Abbreviation projects := (projects geom) (only parsing).
Local Abbreviation state := (state geom) (only parsing).

Lemma others_cons (g : list match_data) (m o : match_data) :
  others m (o :: g)
  = if decide (fst m = fst o) then others m g else o :: others m g.
Proof.
  unfold others. rewrite filter_cons.
  destruct (decide (fst m = fst o)) as [Heq|Hne].
  - by rewrite decide_False by tauto.
  - by rewrite decide_True by exact Hne.
Qed.

Lemma others_absent (g : list match_data) (m : match_data) :
  fst m ∉ map fst g -> others m g = g.
Proof.
  induction g as [|x g IH]; intros Hm; [reflexivity|].
  simpl in Hm. apply not_elem_of_cons in Hm as [Hx Hm].
  rewrite others_cons, decide_False by exact Hx. f_equal. by apply IH.
Qed.

Lemma others_length (g : list match_data) (m : match_data) :
  NoDup (map fst g) -> m ∈ g ->
  length (others m g) = (length g - 1)%nat.
Proof.
  induction g as [|o g IH]; intros Hnd Hm; [by apply elem_of_nil in Hm|].
  simpl in Hnd. apply NoDup_cons in Hnd as [Ho Hnd].
  rewrite others_cons. destruct (decide (fst m = fst o)) as [Hkey|Hne].
  - rewrite others_absent by (by rewrite Hkey). simpl. lia.
  - apply elem_of_cons in Hm as [->|Hm]; [congruence|].
    simpl. rewrite (IH Hnd Hm).
    assert (0 < length g)%nat; [|lia].
    destruct g; [by apply elem_of_nil in Hm | simpl; lia].
Qed.

Lemma group_folders_listed (objs : projects) annot_type (g : list match_data)
    (all_projects : list (option string)) :
  (forall k, k ∈ map fst objs -> k ∈ all_projects) ->
  seeded_group objs annot_type g ->
  (length g <= length all_projects)%nat.
Proof.
  intros Hall (Hnd & seed & insts & id & Hseed & Hin & Hlookup & Hmem).
  assert (Hlen : length (map fst g) = length g) by apply length_map.
  rewrite <- Hlen. apply submseteq_length.
  apply NoDup_submseteq; [exact Hnd|].
  intros k Hk. apply Hall.
  apply list_elem_of_In, in_map_iff in Hk as (m & <- & Hm).
  apply list_elem_of_In in Hm. rewrite Forall_forall in Hmem.
  destruct (Hmem m Hm) as [->|(_ & _ & (insts' & id' & Hk & _) & _)].
  - apply list_elem_of_In, in_map_iff. exists (fst seed, insts).
    split; [reflexivity | by apply list_elem_of_In].
  - apply list_elem_of_In, in_map_iff. exists (fst m, insts').
    split; [reflexivity | by apply list_elem_of_In].
Qed.

(** X5: with [bbox] and [polygon] annotations a group is made of one
    seed and of instances of other folders that overlap the seed: the
    scorer gives each of them a positive score against the seed. *)
Theorem groups_overlap_their_seed (df : list df_row) image_name annot_type s :
  annot_type = "bbox" \/ annot_type = "polygon" ->
  image_consensus_run df image_name annot_type = Ok s ->
  forall g, g ∈ groups s ->
    exists seed,
      seed ∈ g
      /\ forall m, m ∈ g ->
           m = seed
           \/ (fst m <> fst seed
               /\ exists sc,
                    instance_consensus (inst (snd seed)) (inst (snd m)) = Ok sc
                    /\ (0 < sc)%Q).
Proof.
  intros Hty Hs g Hg.
  pose proof (image_consensus_run_spec df image_name annot_type) as Hrun.
  rewrite Hs in Hrun. destruct Hrun as (objs & _ & _ & _ & _ & _ & _ & Hgroups).
  rewrite Forall_forall in Hgroups.
  destruct (Hgroups g Hg) as (_ & seed & _ & _ & Hseed & _ & _ & Hmem).
  exists seed. split; [exact Hseed|]. intros m Hm.
  rewrite Forall_forall in Hmem.
  destruct (Hmem m Hm) as [->|(Hne & _ & _ & sc & Hsc & Hex)].
  - left. by destruct seed.
  - right. split; [exact Hne|]. exists sc. split; [exact Hsc|].
    assert (Hth : threshold annot_type = Fin 0).
    { destruct Hty as [-> | ->]; reflexivity. }
    rewrite Hth in Hex. simpl in Hex. by apply Qlt_bool_iff.
Qed.

(** X7: a table of a single folder.  Every instance is a group of its
    own: the rows are scored 0 and numbered in order, and the division by
    the number of folders less one, which is zero here, is never
    reached. *)
Theorem single_folder_scores_zero (df : list df_row) image_name annot_type rows :
  n_folders df = 1%nat ->
  image_consensus df image_name annot_type = Ok rows ->
  forall i r, rows !! i = Some r -> score r = 0%Q /\ instanceId r = i.
Proof.
  intros Hn H i r Hr. apply image_consensus_inv in H as (s & Hs & ->).
  pose proof (image_consensus_run_spec df image_name annot_type) as Hrun.
  rewrite Hs in Hrun.
  destruct Hrun as (objs & _ & Hkeys & _ & _ & _ & (rowss & Hdata & Hrows) & Hgroups).
  assert (Hlisted : forall k, k ∈ map fst objs ->
            k ∈ remove_dups (map df_folderName df)).
  { intros k Hk. apply elem_of_remove_dups.
    apply Hkeys in Hk. apply list_elem_of_In, in_map_iff in Hk as (row & <- & Hrow).
    apply list_elem_of_In, list_elem_of_filter in Hrow as [_ Hrow].
    apply list_elem_of_In, in_map. by apply list_elem_of_In. }
  assert (Hblocks : forall j block, rowss !! j = Some block ->
            exists m, block = [make_row image_name j m 0]).
  { intros j block Hblock.
    destruct (Forall2_lookup_r _ _ _ _ _ Hrows Hblock) as ([j' g] & Hg & Hscored).
    apply enumerate_from_lookup_index in Hg as [Hj Hg].
    simpl in Hj, Hg, Hscored. subst j'.
    rewrite Forall_forall in Hgroups.
    pose proof (Hgroups g (list_elem_of_lookup_2 _ _ _ Hg)) as Hseeded.
    pose proof (group_folders_listed objs annot_type g _ Hlisted Hseeded) as Hlen.
    fold (n_folders df) in Hlen. rewrite Hn in Hlen.
    destruct Hseeded as (_ & seed & _ & _ & Hseed & _).
    destruct g as [|m [|m' g]]; simpl in Hlen; [by apply elem_of_nil in Hseed | | lia].
    exists m. exact Hscored. }
  rewrite Hdata in Hr. apply concat_singletons in Hr.
  - destruct (Hblocks i [r] Hr) as [m Hm]. inversion Hm. split; reflexivity.
  - intros block Hb. apply list_elem_of_lookup in Hb as [j Hj].
    destruct (Hblocks j block Hj) as [m ->]. reflexivity.
Qed.

(** X8: an image without rows in the table has an empty result, whatever
    the annotation type. *)
Theorem image_without_rows (df : list df_row) image_name annot_type :
  (forall row, row ∈ df -> df_imageName row <> image_name) ->
  image_consensus df image_name annot_type = Ok [].
Proof.
  intros Hno. unfold image_consensus, image_consensus_run.
  replace (filter (fun row => df_imageName row = image_name) df) with (@nil df_row);
    [reflexivity|].
  induction df as [|row df IH]; [reflexivity|].
  rewrite filter_cons, decide_False by apply Hno, list_elem_of_here.
  apply IH. intros r Hr. by apply Hno, list_elem_of_further.
Qed.

(** X9: an annotation type other than [bbox], [polygon] and [point]: as
    soon as the image has a row, the geometry is read before it was ever
    bound. *)
Theorem unsupported_annot_type (df : list df_row) image_name annot_type row :
  annot_type <> "bbox" -> annot_type <> "polygon" -> annot_type <> "point" ->
  row ∈ df -> df_imageName row = image_name ->
  image_consensus df image_name annot_type = Raise UnboundLocalError.
Proof.
  intros Hb Hp Hpt Hrow Himg.
  assert (Hmake : forall data, make_inst annot_type data = Raise UnboundLocalError).
  { intros data. unfold make_inst.
    apply String.eqb_neq in Hb, Hp, Hpt. by rewrite Hb, Hp, Hpt. }
  unfold image_consensus, image_consensus_run.
  assert (Hin : row ∈ filter (fun row => df_imageName row = image_name) df).
  { by apply list_elem_of_filter. }
  destruct (filter (fun row => df_imageName row = image_name) df) as [|r rest];
    [by apply elem_of_nil in Hin|].
  cbn [generate_shapely_objs]. rewrite Hmake. reflexivity.
Qed.

End GroupProperties.

Lemma planar_distance_nonneg (a b : planar) : (0 <= planar_distance a b)%Q.
Proof.
  destruct a, b; simpl; try apply Qle_refl.
  unfold Qsqrt6, Qle. simpl. rewrite Z.mul_1_r. apply Z.sqrt_nonneg.
Qed.

Lemma Qneg_nonpos (d : Q) : (0 <= d)%Q -> (-1 * d <= 0)%Q.
Proof.
  intros H. setoid_replace (-1 * d)%Q with (- d)%Q using relation Qeq by ring.
  apply Qopp_le_compat in H. exact H.
Qed.

Section PointProperties.
Context {Sh : Shapely}.
Local Abbreviation inst_data := (inst_data geom) (only parsing).
Local Abbreviation match_data := (match_data geom) (only parsing).
Local Abbreviation projects := (projects geom) (only parsing).
Local Abbreviation state := (state geom) (only parsing).

Lemma make_inst_point (data : json) (g : geom) :
  make_inst "point" data = Ok g -> exists x y, g = Point x y.
Proof.
  unfold make_inst. cbn [String.eqb Ascii.eqb Bool.eqb].
  intros H.
  apply result_bind_ok in H as (x & _ & H).
  apply result_bind_ok in H as (y & _ & H).
  inversion H. eauto.
Qed.

Lemma valid_members_point (rows : list df_row) (m : match_data) :
  m ∈ valid_members "point" rows -> exists x y, inst (snd m) = Point x y.
Proof.
  unfold valid_members. intros H.
  apply list_elem_of_omap in H as (row & _ & H). unfold valid_member in H.
  destruct (make_inst "point" (df_meta row)) as [g|e] eqn:Hg; [|discriminate].
  destruct (is_valid g); [|discriminate]. inversion H; subst. simpl.
  by apply make_inst_point in Hg.
Qed.

(** X6: with [point] annotations the score of a row only counts folders.
    The distance of two points never being negative, every pairwise score
    is at most zero and enters the mean as 1.  The rows of a run come
    group by group, one row for each member of the group, under the
    member's folder and the group's instance id; and a row of a group of
    [k] members is scored [(k - 1) / (n - 1)], [n] the number of folders
    of the table, however far apart the points are. *)
Theorem point_scores_count_folders (df : list df_row) image_name (s : state) :
  (forall a b : geom, (0 <= distance a b)%Q) ->
  (forall x y, geom_type (Point x y) = "Point") ->
  image_consensus_run df image_name "point" = Ok s ->
  exists rowss,
    image_data s = concat rowss
    /\ Forall2 (fun ig rows =>
         Forall2 (fun m r =>
                    folderName r = fst m
                    /\ instanceId r = fst ig
                    /\ (score r == inject_Z (Z.of_nat (length (snd ig)) - 1)
                                   / inject_Z (Z.of_nat (n_folders df) - 1))%Q)
                 (snd ig) rows)
       (enumerate (groups s)) rowss.
Proof.
  intros Hdist Hpoint Hs.
  pose proof (image_consensus_run_spec df image_name "point") as Hrun.
  rewrite Hs in Hrun.
  destruct Hrun as (objs & _ & _ & Hmem & Hperm & _ & (rowss & Hdata & Hrows) & Hgroups).
  exists rowss. split; [exact Hdata|].
  apply Forall2_same_length_lookup. split; [by eapply Forall2_length|].
  intros j [j' g] block Hg Hj.
  pose proof (Forall2_lookup_lr _ _ _ _ _ _ Hrows Hg Hj) as Hscored.
  apply enumerate_from_lookup_index in Hg as [_ Hg]. simpl in Hg, Hscored.
  apply list_elem_of_lookup_2 in Hg. cbn [fst snd].
  rewrite Forall_forall in Hgroups. destruct (Hgroups g Hg) as (Hnd & _).
  assert (Hpoints : forall m, m ∈ g -> exists x y, inst (snd m) = Point x y).
  { intros m Hm. apply (valid_members_point (rows_of image_name df)).
    rewrite <- Hmem, <- Hperm.
    apply list_elem_of_In, in_concat. exists g.
    split; by apply list_elem_of_In. }
  assert (Hscore : forall a b sc,
            a ∈ g -> b ∈ g ->
            instance_consensus (inst (snd a)) (inst (snd b)) = Ok sc ->
            (sc <= 0)%Q).
  { intros a b sc Ha Hb Hsc.
    destruct (Hpoints a Ha) as (xa & ya & Hga).
    destruct (Hpoints b Hb) as (xb & yb & Hgb).
    unfold instance_consensus in Hsc. rewrite Hga, Hgb, !Hpoint in Hsc.
    simpl in Hsc. inversion Hsc; subst sc.
    apply Qneg_nonpos, Hdist. }
  unfold scored_rows in Hscored. destruct g as [|m1 [|m2 g]].
  - inversion Hscored; subst. constructor.
  - subst block. constructor; [|constructor]. simpl.
    split; [reflexivity|]. split; [reflexivity|].
    unfold Qdiv. by rewrite Qmult_0_l.
  - set (grp := m1 :: m2 :: g) in *.
    apply Forall2_same_length_lookup. split; [by eapply Forall2_length|].
    intros k m r Hm Hk.
    destruct (Forall2_lookup_lr _ _ _ _ _ _ Hscored Hm Hk)
      as (scores & sc & Hpair & Hmean & ->).
    apply list_elem_of_lookup_2 in Hm. simpl.
    split; [reflexivity|]. split; [reflexivity|].
    rewrite Hmean. unfold mean_over_all_folders.
    assert (Hnonpos : Forall (fun sc => (sc <= 0)%Q) scores).
    { unfold pairwise_scores in Hpair. apply Forall_forall. intros sc' Hsc'.
      apply list_elem_of_lookup in Hsc' as [i Hi].
      destruct (Forall2_lookup_r _ _ _ _ _ Hpair Hi) as (o & Ho & Hsc).
      apply list_elem_of_lookup_2 in Ho. unfold others in Ho.
      apply list_elem_of_filter in Ho as [_ Ho]. exact (Hscore m o sc' Hm Ho Hsc). }
    rewrite (Qsum_clamp_nonpos scores Hnonpos).
    assert (Hlen : length scores = (length grp - 1)%nat).
    { exact (eq_trans (eq_sym (Forall2_length _ _ _ Hpair))
               (others_length _ m Hnd Hm)). }
    assert (Hpos : (2 <= length grp)%nat) by (subst grp; simpl; lia).
    rewrite Hlen.
    replace (Z.of_nat (length grp - 1)) with (Z.of_nat (length grp) - 1)%Z
      by lia.
    reflexivity.
Qed.

End PointProperties.

(** ** The scorer on points *)

Section ScorerErrors.
Context {Sh : Shapely}.
Local Abbreviation inst_data := (inst_data geom) (only parsing).
Local Abbreviation match_data := (match_data geom) (only parsing).

Lemma instance_consensus_point (a b : geom) :
  geom_type a = "Point" -> geom_type b = "Point" ->
  instance_consensus a b = Ok (-1 * distance a b)%Q.
Proof.
  intros Ha Hb. unfold instance_consensus. rewrite Ha, Hb. reflexivity.
Qed.

End ScorerErrors.

Section PointTotality.
Context {Sh : Shapely}.
Local Abbreviation inst_data := (inst_data geom) (only parsing).
Local Abbreviation match_data := (match_data geom) (only parsing).

Lemma make_inst_point_ok (data : json) x y :
  getitem data "x" = Ok (JNum x) -> getitem data "y" = Ok (JNum y) ->
  make_inst "point" data = Ok (Point x y).
Proof.
  intros Hx Hy. unfold make_inst. cbn [String.eqb Ascii.eqb Bool.eqb].
  by rewrite Hx, Hy.
Qed.

(** X27: with [point] annotations [image_consensus] always returns, as
    long as every row of the image gives numbers for [x] and [y] and
    [Point] builds a geometry of type [Point]: the scorer is only called
    on two points, where it is defined. *)
Theorem point_consensus_returns (df : list df_row) image_name :
  (forall x y, geom_type (Point x y) = "Point") ->
  (forall row, row ∈ df -> df_imageName row = image_name ->
     exists x y, getitem (df_meta row) "x" = Ok (JNum x)
                 /\ getitem (df_meta row) "y" = Ok (JNum y)) ->
  exists rows, image_consensus df image_name "point" = Ok rows.
Proof.
  intros Hpoint Hmeta.
  destruct (image_consensus df image_name "point") as [rows|e] eqn:H; [eauto|].
  exfalso. apply image_consensus_raise in H.
  pose proof (image_consensus_run_spec df image_name "point") as Hrun.
  rewrite H in Hrun.
  destruct Hrun as [(row & Hrow & He)|(a & b & Ha & Hb & _ & He)].
  - apply list_elem_of_filter in Hrow as [Himg Hrow].
    destruct (Hmeta row Hrow Himg) as (x & y & Hx & Hy).
    rewrite (make_inst_point_ok _ _ _ Hx Hy) in He. discriminate.
  - apply valid_members_point in Ha as (xa & ya & Hga).
    apply valid_members_point in Hb as (xb & yb & Hgb).
    rewrite Hga, Hgb, instance_consensus_point in He by apply Hpoint.
    discriminate.
Qed.

End PointTotality.

(** ** The class tables *)

Lemma last_cons_some {A} (x : A) (l : list A) :
  last (x :: l) = Some (default x (last l)).
Proof.
  revert x. induction l as [|y l IH]; intros x; [reflexivity|].
  change (last (x :: y :: l)) with (last (y :: l)). by rewrite !(IH y).
Qed.

(** A table filled by assignments [table[key] = value] in a loop holds,
    under a key, the value of the last element that assigned it. *)
Lemma fold_insert_lookup {A V} (key : A -> string) (val : A -> V)
    (l : list A) (k : string) :
  forall m0 : gmap string V,
    fold_left (fun m c => <[key c := val c]> m) l m0 !! k
    = match last (filter (fun c => key c = k) l) with
      | Some c => Some (val c)
      | None => m0 !! k
      end.
Proof.
  induction l as [|c l IH]; intros m0; [reflexivity|].
  cbn [fold_left]. rewrite IH, filter_cons.
  destruct (decide (key c = k)) as [Hk|Hk].
  - rewrite last_cons_some.
    destruct (last (filter (fun c0 => key c0 = k) l)); [reflexivity|].
    simpl. by rewrite Hk, lookup_insert_eq.
  - destruct (last (filter (fun c0 => key c0 = k) l)); [reflexivity|].
    by rewrite lookup_insert_ne.
Qed.

(** X11: the two tables built from the classes file.  They have the same
    keys, the names of the classes; when a name occurs more than once the
    last class of that name sets the color and the attribute groups, and
    within a class the last group of a name sets the values. *)
Theorem class_tables_last_wins (classes_json : list annotation_class)
    (name : string) :
  build_class_name_to_color classes_json !! name
  = class_color <$> last_class name classes_json
  /\ match last_class name classes_json with
     | Some c =>
         exists groups_of_class,
           build_class_group_name_to_values classes_json !! name
           = Some groups_of_class
           /\ forall g, groups_of_class !! g
                        = group_attributes <$> last_group g c
     | None => build_class_group_name_to_values classes_json !! name = None
     end.
Proof.
  unfold build_class_name_to_color, build_class_group_name_to_values, last_class.
  rewrite (fold_insert_lookup class_name class_color).
  rewrite (fold_insert_lookup class_name
             (fun c => fold_left (fun groups_of_class g =>
                                    <[group_name g := group_attributes g]>
                                      groups_of_class)
                                 (class_attribute_groups c) ∅)).
  destruct (last (filter (fun c => class_name c = name) classes_json)) as [c|].
  - split; [reflexivity|]. eexists. split; [reflexivity|].
    intros g. unfold last_group.
    rewrite (fold_insert_lookup group_name group_attributes).
    by destruct (last _).
  - split; reflexivity.
Qed.

(** ** The discovery of annotation files *)

Lemma matching_elem suffix here children p :
  p ∈ matching suffix here children
  <-> exists e, e ∈ children /\ ends_with suffix (entry_name e) = true
                /\ p = {| parent := here; target := e |}.
Proof.
  unfold matching. rewrite list_elem_of_In, in_map_iff. split.
  - intros (e & <- & He). apply filter_In in He as [He Hs].
    exists e. split; [by apply list_elem_of_In | auto].
  - intros (e & He & Hs & ->). exists e. split; [reflexivity|].
    apply filter_In. split; [by apply list_elem_of_In | exact Hs].
Qed.

Lemma rglob_below_dir suffix here name sub :
  rglob_below suffix here (Dir name sub) = rglob suffix (here ++ [name]) sub.
Proof.
  reflexivity.
Qed.

Lemma rglob_sound suffix (children : list entry) :
  forall here p,
    p ∈ rglob suffix here children ->
    below here children p /\ ends_with suffix (entry_name (target p)) = true.
Proof.
  assert (Hentry : forall e here p,
            p ∈ rglob_below suffix here e ->
            exists name sub,
              e = Dir name sub /\ below (here ++ [name]) sub p
              /\ ends_with suffix (entry_name (target p)) = true).
  { induction e as [name content|name sub IH] using entry_induction;
      intros here p Hp; [by apply elem_of_nil in Hp|].
    exists name, sub. split; [reflexivity|].
    rewrite rglob_below_dir in Hp. unfold rglob in Hp.
    apply elem_of_app in Hp as [Hp|Hp].
    - apply matching_elem in Hp as (e & He & Hs & ->).
      split; [by apply below_child | exact Hs].
    - apply list_elem_of_In, in_flat_map in Hp as (e & He & Hp).
      apply list_elem_of_In in He, Hp.
      rewrite Forall_forall in IH.
      destruct (IH e He _ _ Hp) as (name' & sub' & -> & Hbelow & Hs).
      split; [|exact Hs]. eapply below_deeper; eauto. }
  intros here p Hp. unfold rglob in Hp. apply elem_of_app in Hp as [Hp|Hp].
  - apply matching_elem in Hp as (e & He & Hs & ->).
    split; [by apply below_child | exact Hs].
  - apply list_elem_of_In, in_flat_map in Hp as (e & He & Hp).
    apply list_elem_of_In in He, Hp.
    destruct (Hentry e _ _ Hp) as (name & sub & -> & Hbelow & Hs).
    split; [|exact Hs]. eapply below_deeper; eauto.
Qed.

Lemma rglob_complete suffix here children p :
  below here children p -> ends_with suffix (entry_name (target p)) = true ->
  p ∈ rglob suffix here children.
Proof.
  induction 1 as [here children e He|here children name sub p Hdir _ IH];
    intros Hs; unfold rglob; apply elem_of_app.
  - left. apply matching_elem. eauto.
  - right. apply list_elem_of_In, in_flat_map. exists (Dir name sub).
    split; [by apply list_elem_of_In|].
    apply list_elem_of_In. rewrite rglob_below_dir. by apply IH.
Qed.

Lemma below_parent here children p :
  below here children p -> exists rest, parent p = here ++ rest.
Proof.
  induction 1 as [here children e _|here children name sub p _ _ [rest IH]].
  - exists []. simpl. by rewrite app_nil_r.
  - exists (name :: rest). rewrite IH. by rewrite <- app_assoc.
Qed.

(** X12: the annotation files found when no folder is named.  A path is
    found exactly when it is a file directly under the root whose suffix
    is [.json], or an entry named [*.json] at any depth below a directory
    of the root other than [classes]; nothing below the root's [classes]
    directory is ever read as an annotation. *)
Theorem annotations_paths_found (project_root : export_root) (p : path) :
  p ∈ find_annotations_paths project_root None
  <-> (exists name content,
         File name content ∈ entries project_root
         /\ suffix_is_json name = true
         /\ p = {| parent := []; target := File name content |})
      \/ (exists name sub,
            Dir name sub ∈ entries project_root
            /\ name <> "classes"
            /\ below [name] sub p
            /\ ends_with ".json" (entry_name (target p)) = true).
Proof.
  unfold find_annotations_paths. rewrite list_elem_of_In, in_flat_map. split.
  - intros ([name content|name sub] & He & Hp); apply list_elem_of_In in He, Hp.
    + left. destruct (suffix_is_json name) eqn:Hs; [|by apply elem_of_nil in Hp].
      apply list_elem_of_singleton in Hp. eauto.
    + right. destruct (String.eqb name "classes") eqn:Hn;
        [by apply elem_of_nil in Hp|].
      apply String.eqb_neq in Hn. simpl in Hp.
      apply rglob_sound in Hp as [Hbelow Hs]. eauto 10.
  - intros [(name & content & He & Hs & ->)|(name & sub & He & Hn & Hbelow & Hs)].
    + exists (File name content). split; [by apply list_elem_of_In|].
      rewrite Hs. apply list_elem_of_In, list_elem_of_here.
    + exists (Dir name sub). split; [by apply list_elem_of_In|].
      apply String.eqb_neq in Hn. rewrite Hn. simpl.
      apply list_elem_of_In. by apply rglob_complete.
Qed.

Lemma resolve_root (project_root : export_root) :
  resolve project_root "." = Some ([], entries project_root)
  /\ resolve project_root "" = Some ([], entries project_root).
Proof. split; reflexivity. Qed.

(** X13: the annotation files found for named folders.  A folder name is
    joined to the root as a relative path, so it may hold several parts,
    and ["."] or the empty name lead to the root itself.  A path is found
    exactly when it is an entry named [*.json] at any depth below the
    directory that one of the names leads to; so with ["."] or the empty
    name among the names, the entries named [*.json] directly under the
    root are found, as files of no folder. *)
Theorem named_folders_found (project_root : export_root)
    (folder_names : list string) :
  (forall p,
     p ∈ find_annotations_paths project_root (Some folder_names)
     <-> exists folder_name here children,
           folder_name ∈ folder_names
           /\ resolve project_root folder_name = Some (here, children)
           /\ below here children p
           /\ ends_with ".json" (entry_name (target p)) = true)
  /\ (forall e,
        "." ∈ folder_names \/ "" ∈ folder_names ->
        e ∈ entries project_root ->
        ends_with ".json" (entry_name e) = true ->
        {| parent := []; target := e |}
        ∈ find_annotations_paths project_root (Some folder_names)).
Proof.
  assert (Hfound : forall p,
            p ∈ find_annotations_paths project_root (Some folder_names)
            <-> exists folder_name here children,
                  folder_name ∈ folder_names
                  /\ resolve project_root folder_name = Some (here, children)
                  /\ below here children p
                  /\ ends_with ".json" (entry_name (target p)) = true).
  { intros p. unfold find_annotations_paths.
    rewrite list_elem_of_In, in_flat_map. split.
    - intros (folder_name & Hf & Hp). apply list_elem_of_In in Hf, Hp.
      destruct (resolve project_root folder_name) as [[here children]|] eqn:Hres;
        [|by apply elem_of_nil in Hp].
      apply rglob_sound in Hp as [Hbelow Hs].
      exists folder_name, here, children.
      split; [exact Hf|]. split; [exact Hres|]. split; [exact Hbelow | exact Hs].
    - intros (folder_name & here & children & Hf & Hres & Hbelow & Hs).
      exists folder_name. split; [by apply list_elem_of_In|].
      rewrite Hres. apply list_elem_of_In. by apply rglob_complete. }
  split; [exact Hfound|].
  intros e Hname He Hs. apply Hfound.
  destruct (resolve_root project_root) as [Hdot Hempty].
  destruct Hname as [Hname|Hname].
  - exists ".", [], (entries project_root).
    split; [exact Hname|]. split; [exact Hdot|].
    split; [by apply below_child | exact Hs].
  - exists "", [], (entries project_root).
    split; [exact Hname|]. split; [exact Hempty|].
    split; [by apply below_child | exact Hs].
Qed.

(** ** Files that are not annotations of the export's type *)

Lemma append_nil_r (s : string) : (s ++ "")%string = s.
Proof.
  induction s as [|c s IH]; [reflexivity|].
  change (String c (s ++ "")%string = String c s). by f_equal.
Qed.

Lemma append_assoc (a b c : string) :
  ((a ++ b) ++ c)%string = (a ++ (b ++ c))%string.
Proof.
  induction a as [|x a IH]; [reflexivity|].
  change (String x ((a ++ b) ++ c)%string = String x (a ++ (b ++ c))%string).
  by f_equal.
Qed.

Lemma split_from_absent (sep s : string) :
  contains sep s = false ->
  forall cur, split_from sep s 0 cur = [(cur ++ s)%string].
Proof.
  induction s as [|c s IH]; intros Hno cur.
  - simpl. by rewrite append_nil_r.
  - cbn [contains] in Hno. apply orb_false_iff in Hno as [Hprefix Hrest].
    cbn [split_from]. rewrite Hprefix, (IH Hrest), append_assoc. reflexivity.
Qed.

Lemma split_absent (sep s : string) :
  contains sep s = false -> split sep s = [s].
Proof. intros H. unfold split. by rewrite split_from_absent. Qed.

(** X14: a file whose name does not contain the postfix of the export's
    type adds nothing: no row, no warning, and the table is as before. *)
Theorem file_of_other_type_skipped cols class_name_to_color
    class_group_name_to_values type_postfix include_comments include_tags
    here name content s :
  contains type_postfix name = false ->
  add_file cols class_name_to_color class_group_name_to_values type_postfix
    include_comments include_tags
    {| parent := here; target := File name content |} s
  = Ok (tt, s).
Proof.
  intros Hno. unfold add_file. cbn [target].
  by rewrite (split_absent _ _ Hno).
Qed.

(** X15: one vector annotation file anywhere below the root, be it in a
    folder that is not aggregated, makes the whole export a vector export:
    the postfix is [___objects.json], and every file whose name does not
    contain it, the pixel annotations among them, is skipped. *)
Theorem vector_file_decides_type (project_root : export_root) (p : path) :
  below [] (entries project_root) p ->
  ends_with "___objects.json" (entry_name (target p)) = true ->
  find_type_postfix project_root = "___objects.json"
  /\ forall cols class_name_to_color class_group_name_to_values
            include_comments include_tags here name content s,
       contains "___objects.json" name = false ->
       add_file cols class_name_to_color class_group_name_to_values
         (find_type_postfix project_root) include_comments include_tags
         {| parent := here; target := File name content |} s
       = Ok (tt, s).
Proof.
  intros Hbelow Hs.
  assert (Htype : find_type_postfix project_root = "___objects.json").
  { unfold find_type_postfix.
    pose proof (rglob_complete _ _ _ _ Hbelow Hs) as Hin.
    destruct (rglob "___objects.json" [] (entries project_root));
      [by apply elem_of_nil in Hin | reflexivity]. }
  split; [exact Htype|]. rewrite Htype.
  intros cols ctc cgv ic it here name content s Hno.
  unfold add_file. cbn [target]. by rewrite (split_absent _ _ Hno).
Qed.

(** ** The whole aggregation *)

Lemma st_for_raises {S A} (xs : list A) (body : A -> M S unit) (x : A) :
  x ∈ xs -> (forall s, is_ok (body x s) = false) ->
  forall s, is_ok (st_for xs body s) = false.
Proof.
  induction xs as [|y xs IH]; intros Hx Hbody s; [by apply elem_of_nil in Hx|].
  cbn [st_for]. unfold st_bind.
  apply elem_of_cons in Hx as [<-|Hx].
  - specialize (Hbody s). by destruct (body x s) as [[u s1]|e].
  - destruct (body y s) as [[u s1]|e]; [by apply IH | reflexivity].
Qed.

Lemma st_for_total_appended {A} (xs : list A) (body : A -> M agg_state unit) :
  (forall x s, exists s' rows, body x s = Ok (tt, s') /\ appended rows s s') ->
  forall s, exists s' rows, st_for xs body s = Ok (tt, s') /\ appended rows s s'.
Proof.
  intros Hbody. induction xs as [|x xs IH]; intros s.
  - exists s, []. split; [reflexivity | apply appended_refl].
  - destruct (Hbody x s) as (s1 & rows1 & H1 & Happ1).
    destruct (IH s1) as (s2 & rows2 & H2 & Happ2).
    exists s2, (rows1 ++ rows2). cbn [st_for]. unfold st_bind. rewrite H1.
    split; [exact H2 | eapply appended_trans; eauto].
Qed.

Lemma list_mem_singleton (value : json) (name : string) :
  list_mem value [name] = true -> value = JStr name.
Proof.
  destruct value; simpl; try discriminate.
  rewrite orb_false_r. intros H. apply String.eqb_eq in H. by subst.
Qed.

Lemma class_only_row_name cols c :
  "className" ∈ cols ->
  cell "className" (class_only_row cols c) = JStr (class_name c).
Proof. intros H. unfold class_only_row. by rewrite cell_table_row. Qed.

(** The pass over one class of the classes file always returns; it only
    appends rows, and afterwards the class has a row, old or new. *)
Lemma add_class_wo_annotations_rows cols df (c : annotation_class) s :
  "className" ∈ cols ->
  exists s' rows,
    add_class_wo_annotations cols df c s = Ok (tt, s')
    /\ appended rows s s'
    /\ ((exists row, row ∈ df /\ cell "className" row = JStr (class_name c))
        \/ (exists row, row ∈ rows /\ cell "className" row = JStr (class_name c))).
Proof.
  intros Hcol. unfold add_class_wo_annotations.
  destruct (existsb _ df) eqn:Hsome; cbn [negb].
  - apply existsb_exists in Hsome as (row & Hrow & Hmem).
    apply list_mem_singleton in Hmem.
    edestruct (st_for_total_appended (class_attribute_groups c)) as (s' & rows & H & Happ);
      [|exists s', rows; split; [exact H|]; split; [exact Happ|]; left;
        exists row; split; [by apply list_elem_of_In | exact Hmem]].
    intros g t. apply st_for_total_appended. intros a t'.
    destruct (negb _).
    + eexists _, [_]. split; reflexivity.
    + exists t', []. split; [reflexivity | apply appended_refl].
  - eexists _, [class_only_row cols c]. split; [reflexivity|].
    split; [reflexivity|]. right. exists (class_only_row cols c).
    split; [apply list_elem_of_here | by apply class_only_row_name].
Qed.

Lemma classes_pass cols df (classes_json : list annotation_class) :
  "className" ∈ cols ->
  forall s, exists s' rows,
    st_for classes_json (add_class_wo_annotations cols df) s = Ok (tt, s')
    /\ appended rows s s'
    /\ forall c, c ∈ classes_json ->
         (exists row, row ∈ df /\ cell "className" row = JStr (class_name c))
         \/ (exists row, row ∈ rows /\ cell "className" row = JStr (class_name c)).
Proof.
  intros Hcol. induction classes_json as [|c cs IH]; intros s.
  - exists s, []. split; [reflexivity|]. split; [apply appended_refl|].
    intros c Hc. by apply elem_of_nil in Hc.
  - destruct (add_class_wo_annotations_rows cols df c s Hcol)
      as (s1 & rows1 & H1 & Happ1 & Hc).
    destruct (IH s1) as (s2 & rows2 & H2 & Happ2 & Hcs).
    exists s2, (rows1 ++ rows2). cbn [st_for]. unfold st_bind. rewrite H1.
    split; [exact H2|]. split; [eapply appended_trans; eauto|].
    intros c' Hc'. apply elem_of_cons in Hc' as [->|Hc'].
    + destruct Hc as [Hc|(row & Hrow & Hname)]; [by left|].
      right. exists row. split; [|exact Hname]. apply elem_of_app. by left.
    + destruct (Hcs c' Hc') as [Hold|(row & Hrow & Hname)]; [by left|].
      right. exists row. split; [|exact Hname]. apply elem_of_app. by right.
Qed.

Lemma classes_pass_empty cols (classes_json : list annotation_class) s :
  st_for classes_json (add_class_wo_annotations cols []) s
  = Ok (tt, {| annotation_data :=
                 annotation_data s ++ map (class_only_row cols) classes_json;
               warnings := warnings s;
               annotation_instance_id := annotation_instance_id s |}).
Proof.
  revert s. induction classes_json as [|c cs IH]; intros s.
  - simpl. rewrite app_nil_r. by destruct s.
  - cbn [st_for]. unfold st_bind.
    change (add_class_wo_annotations cols [] c s)
      with (append_annotation cols
              (list_to_map [ ("className", JStr (class_name c));
                             ("classColor", JStr (class_color c)) ]) s).
    unfold append_annotation, st_modify. rewrite IH. simpl.
    by rewrite <- app_assoc.
Qed.

Section WholeAggregation.
Variable DEPRICATED_DOCUMENT_VIDEO_MESSAGE : string.

Local Abbreviation run := (aggregate_run DEPRICATED_DOCUMENT_VIDEO_MESSAGE)
  (only parsing).
Local Abbreviation aggregate :=
  (aggregate_image_annotations_as_df DEPRICATED_DOCUMENT_VIDEO_MESSAGE)
  (only parsing).

(** A run that returns went through the walk over the files and, when
    asked for, the pass over the classes. *)
Lemma aggregate_run_ok project_root include_classes_wo_annotations
    include_comments include_tags folder_names s :
  run project_root include_classes_wo_annotations include_comments
    include_tags folder_names = Ok s ->
  exists classes_json s0 s1,
    classes_file project_root = Some classes_json
    /\ annotation_data s0 = []
    /\ st_for (find_annotations_paths project_root folder_names)
         (add_file (columns include_comments include_tags)
            (build_class_name_to_color classes_json)
            (build_class_group_name_to_values classes_json)
            (find_type_postfix project_root) include_comments include_tags)
         s0 = Ok (tt, s1)
    /\ (if include_classes_wo_annotations
        then st_for classes_json
               (add_class_wo_annotations (columns include_comments include_tags)
                  (annotation_data s1)) s1 = Ok (tt, s)
        else s = s1).
Proof.
  unfold aggregate_run. intros H.
  destruct (legacy_export project_root); [discriminate|].
  destruct (classes_file project_root) as [classes_json|]; [|discriminate].
  apply result_bind_ok in H as ([[] s'] & H & Hs). inversion Hs; subst s'.
  apply st_bind_ok in H as ([] & s0 & Hwarn & H).
  apply st_bind_ok in H as ([] & s1 & Hwalk & H).
  apply st_bind_ok in H as (s1' & s1'' & Hget & H). inversion Hget; subst s1' s1''.
  exists classes_json, s0, s1. split; [reflexivity|]. split.
  - destruct (find_annotations_paths project_root folder_names);
      inversion Hwarn; reflexivity.
  - split; [exact Hwalk|].
    destruct include_classes_wo_annotations; [exact H|].
    by apply st_ret_ok in H as [_ ->].
Qed.

(** X17: an export in which no annotation file is found.  One warning is
    logged and the table is empty; with [include_classes_wo_annotations]
    it holds one row per class of the classes file, in order, with the
    name and the color of the class and nothing else. *)
Theorem export_without_annotations project_root include_classes_wo_annotations
    include_comments include_tags folder_names classes_json :
  legacy_export project_root = false ->
  classes_file project_root = Some classes_json ->
  find_annotations_paths project_root folder_names = [] ->
  result_map (fun s => (annotation_data s, warnings s))
    (run project_root include_classes_wo_annotations include_comments
       include_tags folder_names)
  = Ok (if include_classes_wo_annotations
        then map (class_only_row (columns include_comments include_tags))
                 classes_json
        else [],
        [no_annotations_warning project_root]).
Proof.
  intros Hlegacy Hclasses Hpaths. unfold aggregate_run.
  rewrite Hlegacy, Hclasses, Hpaths.
  destruct include_classes_wo_annotations; [|reflexivity].
  cbn [st_for]. unfold st_bind, warn, st_modify, st_ret, st_get.
  cbn [annotation_data]. rewrite classes_pass_empty. reflexivity.
Qed.

(** X18: a directory whose name ends in [.json], below a folder that is
    aggregated, is taken for an annotation file: the aggregation does not
    return. *)
Theorem directory_named_json_aborts project_root include_classes_wo_annotations
    include_comments include_tags folder_names p name sub :
  p ∈ find_annotations_paths project_root folder_names ->
  target p = Dir name sub ->
  is_ok (aggregate project_root include_classes_wo_annotations include_comments
           include_tags folder_names) = false.
Proof.
  intros Hp Hdir.
  destruct (aggregate project_root include_classes_wo_annotations
              include_comments include_tags folder_names) as [rows|e] eqn:H;
    [|reflexivity].
  unfold aggregate_image_annotations_as_df in H.
  apply result_bind_ok in H as (s & Hrun & _).
  apply aggregate_run_ok in Hrun as (cs & s0 & s1 & _ & _ & Hwalk & _).
  assert (Hraise : is_ok (st_for (find_annotations_paths project_root folder_names)
                            (add_file (columns include_comments include_tags)
                               (build_class_name_to_color cs)
                               (build_class_group_name_to_values cs)
                               (find_type_postfix project_root)
                               include_comments include_tags) s0) = false).
  { apply (st_for_raises _ _ p Hp). intros t. unfold add_file. by rewrite Hdir. }
  rewrite Hwalk in Hraise. discriminate.
Qed.

End WholeAggregation.

(** ** The rows of an annotation file *)

Section FileProperties.
Variable cols : list string.
Variable class_name_to_color : gmap string string.
Variable class_group_name_to_values : gmap string (gmap string (list string)).

Lemma add_attributes_validated f user_metadata image_metadata attributes :
  forall num_added s n' s',
    add_attributes cols class_group_name_to_values f user_metadata image_metadata
      attributes num_added s = Ok (n', s') ->
    exists dicts,
      appended (map (fun d => table_row cols (image_metadata ∪ (user_metadata ∪ d)))
                    dicts) s s'
      /\ Forall (fun d => exists g nm,
                   d = attribute_dict f g nm
                   /\ validated class_group_name_to_values (f_class_name f) g nm)
                dicts
      /\ annotation_instance_id s' = annotation_instance_id s
      /\ n' = (num_added + length dicts)%nat.
Proof.
  induction attributes as [|attribute rest IH]; intros num_added s n' s' H; simpl in H.
  - apply st_ret_ok in H as [-> ->]. exists []. simpl.
    repeat split; [apply appended_refl | constructor | lia].
  - lift_in H as attribute_group Hgroup.
    lift_in H as attribute_name Hname.
    lift_in H as groups_of_class Hgroups.
    lift_in H as values Hvalues.
    assert (Hclass : class_group_name_to_values !! f_class_name f
                     = Some groups_of_class).
    { destruct (class_group_name_to_values !! f_class_name f);
        inversion Hgroups; reflexivity. }
    destruct values as [names|].
    + destruct (list_mem attribute_name names) eqn:Hmem.
      * apply st_bind_ok in H as ([] & s1 & Happ & H).
        apply append_annotation_ok in Happ as [Happ Hid].
        apply IH in H as (dicts & Hrows & Hdicts & Hid' & ->).
        exists (attribute_dict f attribute_group attribute_name :: dicts).
        split; [exact (appended_trans _ _ _ _ _ Happ Hrows)|].
        split; [|split; [congruence | simpl; lia]].
        constructor; [|exact Hdicts].
        exists attribute_group, attribute_name. split; [reflexivity|].
        by exists groups_of_class, names.
      * apply st_bind_ok in H as ([] & s1 & Hwarn & H).
        apply warn_ok in Hwarn as [Hwarn Hid].
        apply IH in H as (dicts & Hrows & Hdicts & Hid' & ->).
        exists dicts. repeat split; auto; [|congruence].
        exact (appended_trans _ _ _ _ _ Hwarn Hrows).
    + apply st_bind_ok in H as ([] & s1 & Hwarn & H).
      apply warn_ok in Hwarn as [Hwarn Hid].
      apply IH in H as (dicts & Hrows & Hdicts & Hid' & ->).
      exists dicts. repeat split; auto; [|congruence].
      exact (appended_trans _ _ _ _ _ Hwarn Hrows).
Qed.

(** One instance of a file: it adds no row and keeps the counter, or it
    adds rows under the counter's value and moves the counter by one. *)
Lemma add_instance_spec image_name image_metadata annotation_path annotation s s' :
  add_instance cols class_name_to_color class_group_name_to_values
    image_name image_metadata annotation_path annotation s = Ok (tt, s') ->
  exists rows,
    appended rows s s'
    /\ Forall (instance_row cols class_name_to_color class_group_name_to_values
                 image_metadata image_name annotation_path annotation
                 (annotation_instance_id s)) rows
    /\ annotation_instance_id s'
       = (annotation_instance_id s + match rows with [] => 0 | _ => 1 end)%nat.
Proof.
  unfold add_instance. intros H.
  lift_in H as annotation_type Htype.
  lift_in H as annotation_class_name Hclass.
  lift_in H as found Hfound.
  assert (Hskip : forall fmt arg,
            warn fmt arg s = Ok (tt, s') ->
            exists rows,
              appended rows s s'
              /\ Forall (instance_row cols class_name_to_color
                           class_group_name_to_values image_metadata image_name
                           annotation_path annotation (annotation_instance_id s))
                        rows
              /\ annotation_instance_id s'
                 = (annotation_instance_id s + match rows with [] => 0 | _ => 1 end)%nat).
  { intros fmt arg Hw. apply warn_ok in Hw as [Hw Hid].
    exists []. split; [exact Hw|]. split; [constructor|]. rewrite Hid. lia. }
  destruct annotation_class_name as [| | |name| |]; try (by eapply Hskip; eauto).
  destruct found as [annotation_class_color|]; [|by eapply Hskip; eauto].
  clear Hskip. simpl in Hfound. apply Ok_inj in Hfound.
  lift_in H as annotation_group_id Hgid.
  lift_in H as annotation_locked Hlocked.
  lift_in H as annotation_visible Hvisible.
  lift_in H as annotation_tracking_id Htid.
  lift_in H as annotation_meta Hmeta.
  lift_in H as annotation_error Herror.
  lift_in H as annotation_probability Hprob.
  lift_in H as annotation_point_labels Hlabels.
  lift_in H as attributes Hattrs.
  lift_in H as user_metadata Huser.
  apply st_bind_ok in H as (current_id & s1 & Hget & H).
  inversion Hget; subst s1 current_id.
  apply st_bind_ok in H as (num_added & s1 & Hadd & H).
  set (f := Build_instance_fields _ _ _ _ _ _ _ _ _ _ _ _ _ _) in Hadd.
  assert (Hrow : forall d,
            d = instance_dict f
            \/ (exists g nm, d = attribute_dict f g nm
                             /\ validated class_group_name_to_values
                                  (f_class_name f) g nm) ->
            instance_row cols class_name_to_color class_group_name_to_values
              image_metadata image_name annotation_path annotation
              (annotation_instance_id s)
              (table_row cols (image_metadata ∪ (user_metadata ∪ d)))).
  { intros d Hd. exists user_metadata, f, d. repeat split; auto. }
  assert (Hrows : exists dicts,
            appended (map (fun d => table_row cols
                                      (image_metadata ∪ (user_metadata ∪ d)))
                          dicts) s s1
            /\ Forall (fun d => d = instance_dict f
                         \/ (exists g nm, d = attribute_dict f g nm
                               /\ validated class_group_name_to_values
                                    (f_class_name f) g nm)) dicts
            /\ annotation_instance_id s1 = annotation_instance_id s
            /\ num_added = length dicts).
  { destruct (truthy attributes).
    - lift_in Hadd as items Hitems.
      apply add_attributes_validated in Hadd as (dicts & Happ & Hdicts & Hid & ->).
      exists dicts. repeat split; auto.
      eapply Forall_impl; [exact Hdicts|]. intros d Hd. by right.
    - apply st_bind_ok in Hadd as ([] & s2 & Happ & Hadd).
      apply append_annotation_ok in Happ as [Happ Hid].
      apply st_ret_ok in Hadd as [Hn ->]. subst num_added.
      exists [instance_dict f]. repeat split; auto. }
  destruct Hrows as (dicts & Happ & Hdicts & Hid & ->).
  exists (map (fun d => table_row cols (image_metadata ∪ (user_metadata ∪ d))) dicts).
  destruct dicts as [|d dicts]; simpl in H.
  - apply st_ret_ok in H as [_ ->]. split; [exact Happ|].
    split; [constructor|]. simpl. rewrite Hid. lia.
  - inversion H; subst s'. split; [exact Happ|]. split.
    + apply Forall_map. eapply Forall_impl; [exact Hdicts|].
      intros d' Hd'. by apply Hrow.
    + simpl. lia.
Qed.

(** The loop over the instances of a file. *)
Lemma add_instances_spec image_name image_metadata annotation_path instances :
  forall s s',
    st_for instances
      (add_instance cols class_name_to_color class_group_name_to_values
         image_name image_metadata annotation_path) s = Ok (tt, s') ->
    exists blocks,
      appended (concat blocks) s s'
      /\ instance_blocks cols class_name_to_color class_group_name_to_values
           image_metadata image_name annotation_path instances
           (annotation_instance_id s) blocks
      /\ annotation_instance_id s'
         = (annotation_instance_id s + length blocks)%nat.
Proof.
  induction instances as [|annotation rest IH]; intros s s' H; simpl in H.
  - apply st_ret_ok in H as [_ ->]. exists []. split; [apply appended_refl|].
    split; [|simpl; lia]. intros i block Hi. discriminate.
  - apply st_bind_ok in H as ([] & s1 & Hone & H).
    apply add_instance_spec in Hone as (rows & Happ & Hrows & Hid).
    apply IH in H as (blocks & Happ' & Hblocks & Hid').
    assert (Hshift : forall first,
              instance_blocks cols class_name_to_color class_group_name_to_values
                image_metadata image_name annotation_path rest first blocks ->
              instance_blocks cols class_name_to_color class_group_name_to_values
                image_metadata image_name annotation_path (annotation :: rest)
                first blocks).
    { intros first Hb i block Hi. destruct (Hb i block Hi) as (Hne & a & Ha & Hall).
      split; [exact Hne|]. exists a. split; [by apply list_elem_of_further | exact Hall]. }
    destruct rows as [|row rows].
    + exists blocks. rewrite Nat.add_0_r in Hid. rewrite Hid in *.
      split; [exact (appended_trans _ _ _ _ _ Happ Happ')|].
      split; [by apply Hshift | exact Hid'].
    + exists ((row :: rows) :: blocks). split.
      * exact (appended_trans _ _ _ _ _ Happ Happ').
      * split; [|simpl; lia].
        intros i block Hi. destruct i as [|i]; simpl in Hi.
        -- inversion Hi; subst block. split; [discriminate|].
           exists annotation. split; [apply list_elem_of_here|].
           by rewrite Nat.add_0_r.
        -- rewrite Hid in Hblocks. apply Hshift in Hblocks.
           destruct (Hblocks i block Hi) as (Hne & a & Ha & Hall).
           split; [exact Hne|]. exists a. split; [exact Ha|].
           replace (annotation_instance_id s + S i)%nat
             with (annotation_instance_id s + 1 + i)%nat by lia. exact Hall.
Qed.

End FileProperties.

Section FileRows.
Variable cols : list string.
Variable class_name_to_color : gmap string string.
Variable class_group_name_to_values : gmap string (gmap string (list string)).

Lemma add_comment_remark image_name annotations image_metadata annotation s s' :
  get_image_metadata image_name annotations = Ok image_metadata ->
  add_comment cols image_metadata annotation s = Ok (tt, s') ->
  exists row, appended [row] s s' /\ remark_row cols image_metadata row
              /\ annotation_instance_id s' = annotation_instance_id s.
Proof.
  intros Him H. unfold add_comment in H.
  lift_in H as comment_resolved Hres.
  lift_in H as x Hx.
  lift_in H as y Hy.
  lift_in H as correspondence Hcorr.
  lift_in H as user_metadata Hum.
  apply append_annotation_ok in H as [H Hid].
  eexists. split; [exact H|]. split; [|exact Hid].
  eexists. split; [reflexivity|].
  rewrite !lookup_union_r
    by (eapply get_user_metadata_keys; [exact Hum | fresh_key]).
  repeat split.
Qed.

Lemma add_tag_remark image_metadata annotation s s' :
  add_tag cols image_metadata annotation s = Ok (tt, s') ->
  exists row, appended [row] s s' /\ remark_row cols image_metadata row
              /\ annotation_instance_id s' = annotation_instance_id s.
Proof.
  intros H. unfold add_tag in H.
  apply append_annotation_ok in H as [H Hid].
  eexists. split; [exact H|]. split; [|exact Hid].
  eexists. split; [reflexivity|]. repeat split.
Qed.

Lemma st_for_remarks {A} (P : gmap string json -> Prop) (xs : list A)
    (body : A -> M agg_state unit) :
  (forall x s s', body x s = Ok (tt, s') ->
     exists row, appended [row] s s' /\ P row
                 /\ annotation_instance_id s' = annotation_instance_id s) ->
  forall s s', st_for xs body s = Ok (tt, s') ->
    exists rows, appended rows s s' /\ Forall P rows
                 /\ annotation_instance_id s' = annotation_instance_id s.
Proof.
  intros Hbody. induction xs as [|x xs IH]; intros s s' H; simpl in H.
  - apply st_ret_ok in H as [_ ->]. exists [].
    split; [apply appended_refl|]. split; [constructor | reflexivity].
  - apply st_bind_ok in H as ([] & s1 & Hx & H).
    apply Hbody in Hx as (row & Happ & Hrow & Hid).
    apply IH in H as (rows & Happ' & Hrows & Hid').
    exists (row :: rows). split; [exact (appended_trans _ _ _ _ _ Happ Happ')|].
    split; [by constructor | congruence].
Qed.

(** The rows of one annotation file of the export's type: first the rows
    of its comments and tags, then the rows of its instances, instance by
    instance, under ids that count from 0. *)
Lemma add_file_spec type_postfix include_comments include_tags annotation_path
    name content image_name rest s s' :
  target annotation_path = File name content ->
  split type_postfix name = [image_name; rest] ->
  add_file cols class_name_to_color class_group_name_to_values type_postfix
    include_comments include_tags annotation_path s = Ok (tt, s') ->
  exists image_metadata instances remarks blocks,
    get_image_metadata image_name content = Ok image_metadata
    /\ result_bind (getitem content "instances") as_list = Ok instances
    /\ appended (remarks ++ concat blocks) s s'
    /\ Forall (remark_row cols image_metadata) remarks
    /\ instance_blocks cols class_name_to_color class_group_name_to_values
         image_metadata image_name annotation_path instances 0 blocks
    /\ annotation_instance_id s' = length blocks.
Proof.
  intros Htarget Hsplit H. unfold add_file in H. rewrite Htarget, Hsplit in H.
  lift_in H as image_metadata Him.
  apply st_bind_ok in H as ([] & s1 & Hset & H).
  assert (Hs1 : appended [] s s1 /\ annotation_instance_id s1 = 0%nat).
  { inversion Hset; subst. split; [by apply appended_nil | reflexivity]. }
  destruct Hs1 as [Hs1 Hid1].
  apply st_bind_ok in H as ([] & s2 & Hcomments & H).
  assert (Hs2 : exists rows, appended rows s1 s2
                  /\ Forall (remark_row cols image_metadata) rows
                  /\ annotation_instance_id s2 = annotation_instance_id s1).
  { destruct include_comments.
    - lift_in Hcomments as comments Hc.
      eapply st_for_remarks; [|exact Hcomments].
      intros x t t'. eapply add_comment_remark; eauto.
    - apply st_ret_ok in Hcomments as [_ ->]. exists [].
      split; [apply appended_refl|]. split; [constructor | reflexivity]. }
  apply st_bind_ok in H as ([] & s3 & Htags & H).
  assert (Hs3 : exists rows, appended rows s2 s3
                  /\ Forall (remark_row cols image_metadata) rows
                  /\ annotation_instance_id s3 = annotation_instance_id s2).
  { destruct include_tags.
    - lift_in Htags as tags Ht.
      eapply st_for_remarks; [|exact Htags].
      intros x t t'. eapply add_tag_remark; eauto.
    - apply st_ret_ok in Htags as [_ ->]. exists [].
      split; [apply appended_refl|]. split; [constructor | reflexivity]. }
  lift_in H as instances Hi.
  apply add_instances_spec in H as (blocks & Happ & Hblocks & Hid).
  destruct Hs2 as (r2 & Ha2 & Hr2 & Hid2), Hs3 as (r3 & Ha3 & Hr3 & Hid3).
  assert (Hzero : annotation_instance_id s3 = 0%nat) by congruence.
  rewrite Hzero in Hblocks, Hid.
  exists image_metadata, instances, (r2 ++ r3), blocks.
  split; [exact Him|]. split; [exact Hi|]. split.
  - pose proof (appended_trans _ _ _ _ _ Hs1
                  (appended_trans _ _ _ _ _ Ha2
                     (appended_trans _ _ _ _ _ Ha3 Happ))) as Hall.
    simpl in Hall. by rewrite <- app_assoc.
  - split; [apply Forall_app; auto|]. split; [exact Hblocks | exact Hid].
Qed.

End FileRows.

Lemma last_elem {A} (l : list A) (x : A) : last l = Some x -> x ∈ l.
Proof.
  induction l as [|y l IH]; [discriminate|].
  destruct l as [|z l]; simpl.
  - intros H. inversion H. apply list_elem_of_here.
  - intros H. apply list_elem_of_further, IH. exact H.
Qed.

Lemma last_filter_elem {A} (P : A -> Prop) `{!forall x, Decision (P x)}
    (l : list A) (x : A) :
  last (filter P l) = Some x -> x ∈ l /\ P x.
Proof.
  intros Hl. apply last_elem, list_elem_of_filter in Hl. tauto.
Qed.

Lemma list_mem_elem (value : json) (names : list string) :
  list_mem value names = true -> exists a, value = JStr a /\ a ∈ names.
Proof.
  destruct value; simpl; try discriminate.
  intros H. apply existsb_exists in H as (a & Ha & Heq).
  apply String.eqb_eq in Heq. subst. exists a.
  split; [reflexivity | by apply list_elem_of_In].
Qed.

Lemma get_image_metadata_lookup image_name annotations image_metadata key :
  get_image_metadata image_name annotations = Ok image_metadata ->
  key ∈ image_metadata_keys ->
  is_Some (image_metadata !! key)
  /\ image_metadata !! "imageName" = Some (JStr image_name).
Proof.
  unfold get_image_metadata.
  repeat (match goal with
          | |- context [result_bind ?m _] =>
              destruct m; cbn [result_bind]; [|discriminate]
          end).
  intros H%Ok_inj Hkey. rewrite <- H. split; [|reflexivity].
  unfold image_metadata_keys in Hkey.
  repeat (apply elem_of_cons in Hkey as [->|Hkey]; [by eexists|]).
  by apply elem_of_nil in Hkey.
Qed.

(** A cell of a row of a file under a key of the image metadata. *)
Lemma image_cell cols image_name annotations image_metadata
    (d : gmap string json) key :
  get_image_metadata image_name annotations = Ok image_metadata ->
  key ∈ image_metadata_keys -> key ∈ cols ->
  cell key (table_row cols (image_metadata ∪ d))
  = default JNull (image_metadata !! key).
Proof.
  intros Him Hkey Hcol. rewrite cell_table_row by exact Hcol.
  destruct (get_image_metadata_lookup _ _ _ _ Him Hkey) as [[v Hv] _].
  by rewrite (lookup_union_Some_l _ _ _ _ Hv), Hv.
Qed.

Lemma image_keys_columns include_comments include_tags key :
  key ∈ image_metadata_keys -> key ∈ columns include_comments include_tags.
Proof.
  intros Hkey. apply in_columns. unfold image_metadata_keys in Hkey.
  unfold base_columns.
  repeat (apply elem_of_cons in Hkey as [->|Hkey]; [listed_key|]).
  by apply elem_of_nil in Hkey.
Qed.

(** The cells of a row of an instance that tell the instance and its
    class. *)
Lemma instance_row_class_cells include_comments include_tags
    class_name_to_color class_group_name_to_values image_name annotations
    image_metadata annotation_path annotation id row :
  get_image_metadata image_name annotations = Ok image_metadata ->
  instance_row (columns include_comments include_tags) class_name_to_color
    class_group_name_to_values image_metadata image_name annotation_path
    annotation id row ->
  exists name color,
    class_name_to_color !! name = Some color
    /\ cell "instanceId" row = JNum (inject_Z (Z.of_nat id))
    /\ cell "className" row = JStr name
    /\ cell "classColor" row = JStr color
    /\ ((cell "attributeGroupName" row = JNull
         /\ cell "attributeName" row = JNull)
        \/ exists g nm,
             validated class_group_name_to_values name g nm
             /\ cell "attributeGroupName" row = g
             /\ cell "attributeName" row = nm).
Proof.
  intros Him (um & f & d & -> & Hum & _ & Hid & _ & Hcolor & _ & Hd).
  exists (f_class_name f), (f_class_color f). split; [exact Hcolor|].
  rewrite !cell_of_dict;
    try (apply in_columns; unfold base_columns; listed_key);
    try (eapply get_image_metadata_keys; [exact Him | fresh_key]);
    try (eapply get_user_metadata_keys; [exact Hum | fresh_key]).
  destruct Hd as [->|(g & nm & -> & Hvalid)].
  - rewrite <- Hid. repeat split. by left.
  - rewrite <- Hid. repeat split. right. exists g, nm. repeat split. exact Hvalid.
Qed.

Lemma remark_row_cells include_comments include_tags image_name annotations
    image_metadata row :
  get_image_metadata image_name annotations = Ok image_metadata ->
  remark_row (columns include_comments include_tags) image_metadata row ->
  cell "instanceId" row = JNull /\ cell "className" row = JNull.
Proof.
  intros Him (d & -> & Hid & Hclass & _).
  rewrite !cell_table_row by (apply in_columns; unfold base_columns; listed_key).
  rewrite !lookup_union_r
    by (eapply get_image_metadata_keys; [exact Him | fresh_key]).
  by rewrite Hid, Hclass.
Qed.

Section FileTheorems.
Variable class_name_to_color : gmap string string.
Variable class_group_name_to_values : gmap string (gmap string (list string)).

(** X19: the instance ids of the rows of a file.  The rows of comments
    and tags come first and have none; then come the rows of the
    instances, in blocks: the [i]-th block is not empty and carries the id
    [i].  An instance that is skipped, or none of whose attributes is
    listed, takes no id, so the ids have no gap and are not the positions
    of the instances in the file. *)
Theorem file_instance_ids include_comments include_tags type_postfix
    annotation_path name content image_name rest s s' :
  target annotation_path = File name content ->
  split type_postfix name = [image_name; rest] ->
  add_file (columns include_comments include_tags) class_name_to_color
    class_group_name_to_values type_postfix include_comments include_tags
    annotation_path s = Ok (tt, s') ->
  exists remarks blocks,
    appended (remarks ++ concat blocks) s s'
    /\ Forall (fun row => cell "instanceId" row = JNull) remarks
    /\ (forall i block,
          blocks !! i = Some block ->
          block <> []
          /\ Forall (fun row => cell "instanceId" row
                                = JNum (inject_Z (Z.of_nat i))) block)
    /\ annotation_instance_id s' = length blocks.
Proof.
  intros Htarget Hsplit H.
  destruct (add_file_spec _ _ _ _ _ _ _ _ _ _ _ _ _ Htarget Hsplit H)
    as (im & instances & remarks & blocks & Him & _ & Happ & Hremarks & Hblocks & Hid).
  exists remarks, blocks. split; [exact Happ|]. split.
  - eapply Forall_impl; [exact Hremarks|]. intros row Hrow.
    by destruct (remark_row_cells _ _ _ _ _ _ Him Hrow).
  - split; [|exact Hid]. intros i block Hi.
    destruct (Hblocks i block Hi) as (Hne & annotation & _ & Hrows).
    split; [exact Hne|]. eapply Forall_impl; [exact Hrows|].
    intros row Hrow.
    destruct (instance_row_class_cells _ _ _ _ _ _ _ _ _ _ _ Him Hrow)
      as (nm & color & _ & Hcell & _).
    exact Hcell.
Qed.

(** X20: every row of a file, be it of a comment, a tag or an instance,
    carries the image name cut from the file name and the metadata of the
    image; no key of a comment or of an instance overrides them. *)
Theorem file_rows_carry_image_metadata include_comments include_tags
    type_postfix annotation_path name content image_name rest s s' :
  target annotation_path = File name content ->
  split type_postfix name = [image_name; rest] ->
  add_file (columns include_comments include_tags) class_name_to_color
    class_group_name_to_values type_postfix include_comments include_tags
    annotation_path s = Ok (tt, s') ->
  exists image_metadata rows,
    get_image_metadata image_name content = Ok image_metadata
    /\ appended rows s s'
    /\ Forall (fun row =>
                 cell "imageName" row = JStr image_name
                 /\ forall key, key ∈ image_metadata_keys ->
                      cell key row = default JNull (image_metadata !! key))
              rows.
Proof.
  intros Htarget Hsplit H.
  destruct (add_file_spec _ _ _ _ _ _ _ _ _ _ _ _ _ Htarget Hsplit H)
    as (im & instances & remarks & blocks & Him & _ & Happ & Hremarks & Hblocks & _).
  exists im, (remarks ++ concat blocks). split; [exact Him|].
  split; [exact Happ|].
  assert (Hcells : forall d,
            let row := table_row (columns include_comments include_tags) (im ∪ d) in
            cell "imageName" row = JStr image_name
            /\ forall key, key ∈ image_metadata_keys ->
                 cell key row = default JNull (im !! key)).
  { intros d row. subst row.
    assert (Hall : forall key, key ∈ image_metadata_keys ->
              cell key (table_row (columns include_comments include_tags) (im ∪ d))
              = default JNull (im !! key)).
    { intros key Hkey. eapply image_cell; eauto.
      by apply image_keys_columns. }
    split; [|exact Hall].
    rewrite Hall by (unfold image_metadata_keys; listed_key).
    destruct (get_image_metadata_lookup _ _ _ "imageName" Him
                ltac:(unfold image_metadata_keys; listed_key)) as [_ ->].
    reflexivity. }
  apply Forall_app. split.
  - eapply Forall_impl; [exact Hremarks|]. intros row (d & -> & _). apply Hcells.
  - apply Forall_forall. intros row Hrow.
    apply list_elem_of_In, in_concat in Hrow as (block & Hblock & Hrow).
    apply list_elem_of_In, list_elem_of_lookup in Hblock as [i Hi].
    destruct (Hblocks i block Hi) as (_ & annotation & _ & Hrows).
    rewrite Forall_forall in Hrows.
    destruct (Hrows row (proj2 (list_elem_of_In _ _) Hrow))
      as (um & f & d & -> & _).
    apply Hcells.
Qed.

End FileTheorems.

(** ** The table against the classes file *)

Lemma class_of_color (classes_json : list annotation_class) name color :
  build_class_name_to_color classes_json !! name = Some color ->
  exists c, last_class name classes_json = Some c
            /\ c ∈ classes_json /\ class_name c = name
            /\ class_color c = color.
Proof.
  unfold build_class_name_to_color, last_class.
  rewrite (fold_insert_lookup class_name class_color).
  destruct (last (filter (fun c => class_name c = name) classes_json)) as [c|] eqn:Hc;
    [|by rewrite lookup_empty].
  intros H. inversion H. exists c. split; [reflexivity|].
  apply last_filter_elem in Hc as [Hin Hname]. auto.
Qed.

Lemma validated_listed (classes_json : list annotation_class) c g nm :
  last_class (class_name c) classes_json = Some c ->
  validated (build_class_group_name_to_values classes_json) (class_name c) g nm ->
  exists grp a,
    grp ∈ class_attribute_groups c /\ a ∈ group_attributes grp
    /\ g = JStr (group_name grp) /\ nm = JStr a.
Proof.
  unfold last_class. intros Hc (groups_of_class & names & Hgroups & Hlookup & Hmem).
  unfold build_class_group_name_to_values in Hgroups.
  rewrite (fold_insert_lookup class_name
             (fun c => fold_left (fun groups_of_class g =>
                                    <[group_name g := group_attributes g]>
                                      groups_of_class)
                                 (class_attribute_groups c) ∅)) in Hgroups.
  rewrite Hc in Hgroups. inversion Hgroups; subst groups_of_class; clear Hgroups.
  destruct g as [| | |gs| |]; simpl in Hlookup; try discriminate.
  apply Ok_inj in Hlookup.
  rewrite (fold_insert_lookup group_name group_attributes) in Hlookup.
  destruct (last (filter (fun g => group_name g = gs) (class_attribute_groups c)))
    as [grp|] eqn:Hgrp; [|by rewrite lookup_empty in Hlookup].
  inversion Hlookup; subst names.
  apply last_filter_elem in Hgrp as [Hin Hname].
  apply list_mem_elem in Hmem as (a & -> & Ha).
  exists grp, a. subst gs. auto.
Qed.

Lemma instance_row_in_classes (classes_json : list annotation_class)
    include_comments include_tags image_name annotations image_metadata
    annotation_path annotation id row :
  get_image_metadata image_name annotations = Ok image_metadata ->
  instance_row (columns include_comments include_tags)
    (build_class_name_to_color classes_json)
    (build_class_group_name_to_values classes_json)
    image_metadata image_name annotation_path annotation id row ->
  row_in_classes classes_json row.
Proof.
  intros Him Hrow.
  destruct (instance_row_class_cells _ _ _ _ _ _ _ _ _ _ _ Him Hrow)
    as (name & color & Hcolor & _ & Hname & Hcell & Hattr).
  apply class_of_color in Hcolor as (c & Hlast & Hin & <- & <-).
  right. exists c. split; [exact Hin|]. split; [exact Hname|].
  split; [exact Hcell|].
  destruct Hattr as [Hnone|(g & nm & Hvalid & Hg & Hnm)]; [by left|].
  right. destruct (validated_listed _ _ _ _ Hlast Hvalid)
    as (grp & a & Hgrp & Ha & -> & ->).
  exists grp, a. auto.
Qed.

Lemma add_file_rows_in_classes (classes_json : list annotation_class)
    include_comments include_tags type_postfix annotation_path s s' :
  add_file (columns include_comments include_tags)
    (build_class_name_to_color classes_json)
    (build_class_group_name_to_values classes_json)
    type_postfix include_comments include_tags annotation_path s = Ok (tt, s') ->
  exists rows, appended rows s s' /\ Forall (row_in_classes classes_json) rows.
Proof.
  intros H.
  destruct (target annotation_path) as [name content|name sub] eqn:Htarget;
    [|unfold add_file in H; rewrite Htarget in H; discriminate].
  destruct (split type_postfix name) as [|image_name [|rest [|x l]]] eqn:Hsplit;
    try (unfold add_file in H; rewrite Htarget, Hsplit in H;
         apply st_ret_ok in H as [_ ->]; exists [];
         split; [apply appended_refl | constructor]).
  destruct (add_file_spec _ _ _ _ _ _ _ _ _ _ _ _ _ Htarget Hsplit H)
    as (im & instances & remarks & blocks & Him & _ & Happ & Hremarks & Hblocks & _).
  exists (remarks ++ concat blocks). split; [exact Happ|].
  apply Forall_app. split.
  - eapply Forall_impl; [exact Hremarks|]. intros row Hrow. left.
    by destruct (remark_row_cells _ _ _ _ _ _ Him Hrow).
  - apply Forall_forall. intros row Hrow.
    apply list_elem_of_In, in_concat in Hrow as (block & Hblock & Hrow).
    apply list_elem_of_In, list_elem_of_lookup in Hblock as [i Hi].
    destruct (Hblocks i block Hi) as (_ & annotation & _ & Hrows).
    rewrite Forall_forall in Hrows.
    eapply instance_row_in_classes; [exact Him|].
    apply Hrows. by apply list_elem_of_In.
Qed.

Lemma add_class_wo_rows_in_classes (classes_json : list annotation_class)
    include_comments include_tags df c s s' :
  c ∈ classes_json ->
  add_class_wo_annotations (columns include_comments include_tags) df c s
  = Ok (tt, s') ->
  exists rows, appended rows s s' /\ Forall (row_in_classes classes_json) rows.
Proof.
  intros Hc H. unfold add_class_wo_annotations in H.
  destruct (negb (existsb _ df)).
  - apply append_annotation_ok in H as [H _].
    eexists. split; [exact H|]. constructor; [|constructor].
    right. exists c. split; [exact Hc|].
    rewrite !cell_table_row by (apply in_columns; unfold base_columns; listed_key).
    repeat split. by left.
  - eapply st_for_appended; [|exact H].
    intros g t t' Hg Hgroup. eapply st_for_appended; [|exact Hgroup].
    intros a u u' Ha Hattr. cbv beta in Hattr.
    destruct (negb (existsb _ _)).
    + apply append_annotation_ok in Hattr as [Hattr _].
      eexists. split; [exact Hattr|]. constructor; [|constructor].
      right. exists c. split; [exact Hc|].
      rewrite !cell_table_row by (apply in_columns; unfold base_columns; listed_key).
      repeat split. right. exists g, a. repeat split; auto.
    + apply st_ret_ok in Hattr as [_ ->]. exists [].
      split; [apply appended_refl | constructor].
Qed.

Section TableAgainstClasses.
Variable DEPRICATED_DOCUMENT_VIDEO_MESSAGE : string.

(** The table that is returned: its rows validate against the classes
    file, and with [include_classes_wo_annotations] every class of the
    file has a row. *)
Lemma aggregate_rows project_root include_classes_wo_annotations
    include_comments include_tags folder_names classes_json rows :
  classes_file project_root = Some classes_json ->
  aggregate_image_annotations_as_df DEPRICATED_DOCUMENT_VIDEO_MESSAGE
    project_root include_classes_wo_annotations include_comments include_tags
    folder_names = Ok rows ->
  Forall (row_in_classes classes_json) rows
  /\ (include_classes_wo_annotations = true ->
      forall c, c ∈ classes_json ->
        exists row, row ∈ rows /\ cell "className" row = JStr (class_name c)).
Proof.
  intros Hclasses H. unfold aggregate_image_annotations_as_df in H.
  apply result_bind_ok in H as (s & Hrun & H). inversion H; subst rows.
  apply aggregate_run_ok in Hrun as (cs & s0 & s1 & Hcs & Hempty & Hwalk & Hpass).
  rewrite Hclasses in Hcs. inversion Hcs; subst cs.
  assert (Hs1 : Forall (row_in_classes classes_json) (annotation_data s1)).
  { destruct (st_for_appended (row_in_classes classes_json) _ _
                (fun p t t' _ Hp =>
                   add_file_rows_in_classes classes_json _ _ _ _ _ _ Hp)
                _ _ Hwalk) as (rows & Happ & Hrows).
    unfold appended in Happ. by rewrite Happ, Hempty. }
  destruct include_classes_wo_annotations; [|subst s; split; [exact Hs1 | discriminate]].
  split.
  - destruct (st_for_appended (row_in_classes classes_json) _ _
                (fun c t t' Hc Hp =>
                   add_class_wo_rows_in_classes classes_json _ _ _ _ _ _ Hc Hp)
                _ _ Hpass) as (rows & Happ & Hrows).
    unfold appended in Happ. rewrite Happ. apply Forall_app. auto.
  - intros _ c Hc.
    destruct (classes_pass (columns include_comments include_tags)
                (annotation_data s1) classes_json
                (in_columns "className" _ _ ltac:(unfold base_columns; listed_key)) s1)
      as (s' & extra & Hpass' & Happ & Hall).
    rewrite Hpass' in Hpass. inversion Hpass; subst s'.
    unfold appended in Happ. rewrite Happ.
    destruct (Hall c Hc) as [(row & Hrow & Hname)|(row & Hrow & Hname)];
      exists row; (split; [|exact Hname]); apply elem_of_app; auto.
Qed.

(** X16: with [include_classes_wo_annotations] every class of the
    classes file has a row in the table that is returned. *)
Theorem every_class_listed project_root include_comments include_tags
    folder_names classes_json rows :
  classes_file project_root = Some classes_json ->
  aggregate_image_annotations_as_df DEPRICATED_DOCUMENT_VIDEO_MESSAGE
    project_root true include_comments include_tags folder_names = Ok rows ->
  forall c, c ∈ classes_json ->
    exists row, row ∈ rows /\ cell "className" row = JStr (class_name c).
Proof.
  intros Hclasses H.
  by apply (aggregate_rows _ _ _ _ _ _ _ Hclasses H).
Qed.

(** X21: every row of the table that is returned validates against the
    classes file: it names no class (a comment or a tag), or it carries
    the name and the color of a class of the file, and, when it names an
    attribute, the group and the attribute are listed for that class. *)
Theorem table_validates_against_classes project_root
    include_classes_wo_annotations include_comments include_tags folder_names
    classes_json rows :
  classes_file project_root = Some classes_json ->
  aggregate_image_annotations_as_df DEPRICATED_DOCUMENT_VIDEO_MESSAGE
    project_root include_classes_wo_annotations include_comments include_tags
    folder_names = Ok rows ->
  Forall (row_in_classes classes_json) rows.
Proof.
  intros Hclasses H.
  by apply (aggregate_rows _ _ _ _ _ _ _ Hclasses H).
Qed.

End TableAgainstClasses.

(** ** The classes file rebuilt from a table *)

Section KeyedLists.
Context {A : Type} (key : A -> string).

Lemma existsb_key k (l : list A) :
  existsb (fun x => String.eqb (key x) k) l = true <-> k ∈ map key l.
Proof.
  rewrite existsb_exists, list_elem_of_In, in_map_iff. split.
  - intros (x & Hx & Hk). apply String.eqb_eq in Hk. eauto.
  - intros (x & Hk & Hx). exists x. split; [exact Hx|]. by apply String.eqb_eq.
Qed.

Lemma find_or_append_elem k new (l : list A) x :
  key new = k ->
  (x ∈ find_or_append (fun y => String.eqb (key y) k) new l)
  <-> (x ∈ l \/ ((k ∉ map key l) /\ x = new)).
Proof.
  intros Hnew. unfold find_or_append.
  destruct (existsb _ l) eqn:E.
  - apply existsb_key in E. split; [auto|]. intros [H|[H _]]; [exact H | contradiction].
  - assert (Hk : k ∉ map key l).
    { intros H. apply existsb_key in H. congruence. }
    rewrite elem_of_app, list_elem_of_singleton. tauto.
Qed.

Lemma find_or_append_keys k new (l : list A) :
  key new = k ->
  k ∈ map key (find_or_append (fun y => String.eqb (key y) k) new l)
  /\ (NoDup (map key l) ->
      NoDup (map key (find_or_append (fun y => String.eqb (key y) k) new l))).
Proof.
  intros Hnew. unfold find_or_append.
  destruct (existsb _ l) eqn:E.
  - apply existsb_key in E. auto.
  - assert (Hk : k ∉ map key l).
    { intros H. apply existsb_key in H. congruence. }
    rewrite map_app. simpl. rewrite Hnew. split.
    + apply elem_of_app. right. apply list_elem_of_here.
    + intros Hnd. apply NoDup_app. split; [exact Hnd|]. split.
      * intros y Hy Hy'. apply list_elem_of_singleton in Hy'. by subst.
      * apply NoDup_singleton.
Qed.

Lemma update_first_map k (f : A -> A) (l : list A) :
  NoDup (map key l) ->
  update_first (fun x => String.eqb (key x) k) f l
  = map (fun x => if String.eqb (key x) k then f x else x) l.
Proof.
  induction l as [|x l IH]; intros Hnd; [reflexivity|].
  simpl in Hnd. apply NoDup_cons in Hnd as [Hx Hnd]. simpl.
  destruct (String.eqb (key x) k) eqn:E; [|by rewrite IH].
  f_equal. apply String.eqb_eq in E. subst k.
  clear -Hx. induction l as [|y l IH]; [reflexivity|].
  simpl in Hx. apply not_elem_of_cons in Hx as [Hne Hx]. simpl.
  assert (Hy : String.eqb (key y) (key x) = false).
  { apply String.eqb_neq. congruence. }
  rewrite Hy. f_equal. by apply IH.
Qed.

Lemma update_keys k (f : A -> A) (l : list A) :
  (forall x, key (f x) = key x) ->
  map key (map (fun x => if String.eqb (key x) k then f x else x) l) = map key l.
Proof.
  intros Hf. rewrite map_map. apply map_ext. intros x.
  by destruct (String.eqb (key x) k).
Qed.

End KeyedLists.

Lemma add_attribute_name_spec a (g : attribute_group) :
  group_name (add_attribute_name a g) = group_name g
  /\ (NoDup (group_attributes g) -> NoDup (group_attributes (add_attribute_name a g)))
  /\ forall a', (a' ∈ group_attributes (add_attribute_name a g))
                <-> (a' ∈ group_attributes g \/ a' = a).
Proof.
  split; [reflexivity|]. unfold add_attribute_name. cbn [group_attributes].
  split.
  - intros Hnd.
    destruct (find_or_append_keys (fun x : string => x) a a (group_attributes g)
                eq_refl) as [_ H].
    rewrite !map_id in H. by apply H.
  - intros a'.
    rewrite (find_or_append_elem (fun x : string => x) a a (group_attributes g) a' eq_refl).
    rewrite map_id. split; [tauto|].
    intros [H| ->]; [by left|].
    destruct (decide (a ∈ group_attributes g)); [by left | by right].
Qed.

Lemma add_group_attribute_spec g a (c : annotation_class) :
  class_wf c ->
  class_wf (add_group_attribute g a c)
  /\ class_name (add_group_attribute g a c) = class_name c
  /\ class_color (add_group_attribute g a c) = class_color c
  /\ forall g' a', attr_in (add_group_attribute g a c) g' a'
                   <-> attr_in c g' a' \/ (g' = g /\ a' = a).
Proof.
  intros [Hnd Hattrs]. unfold add_group_attribute.
  set (new := {| group_name := g; group_attributes := [] |}).
  set (groups := find_or_append (fun grp => String.eqb (group_name grp) g) new
                   (class_attribute_groups c)).
  destruct (find_or_append_keys group_name g new (class_attribute_groups c) eq_refl)
    as [Hin Hnd'].
  fold groups in Hin, Hnd'. specialize (Hnd' Hnd).
  assert (Hgroups : forall grp, grp ∈ groups <->
            grp ∈ class_attribute_groups c
            \/ ((g ∉ map group_name (class_attribute_groups c)) /\ grp = new)).
  { intros grp. apply (find_or_append_elem group_name g new _ grp eq_refl). }
  unfold class_wf, attr_in. cbn [class_name class_color class_attribute_groups].
  rewrite (update_first_map group_name g _ groups Hnd').
  split; [split|split; [reflexivity|split; [reflexivity|]]].
  - rewrite update_keys; [exact Hnd' | intros x; reflexivity].
  - apply Forall_map. apply Forall_forall. intros grp Hgrp.
    assert (Hgrp_nd : NoDup (group_attributes grp)).
    { apply Hgroups in Hgrp as [Hgrp|[_ ->]]; [|constructor].
      rewrite Forall_forall in Hattrs. by apply Hattrs. }
    destruct (String.eqb (group_name grp) g); [|exact Hgrp_nd].
    by apply add_attribute_name_spec.
  - intros g' a'. split.
    + intros (grp' & Hgrp' & Hname & Ha').
      apply list_elem_of_In, in_map_iff in Hgrp' as (grp & <- & Hgrp).
      apply list_elem_of_In, Hgroups in Hgrp.
      destruct (String.eqb (group_name grp) g) eqn:E.
      * apply String.eqb_eq in E. simpl in Hname.
        apply add_attribute_name_spec in Ha' as [Ha'| ->]; [|right; split; congruence].
        destruct Hgrp as [Hgrp|[_ ->]]; [|by apply elem_of_nil in Ha'].
        left. exists grp. auto.
      * destruct Hgrp as [Hgrp|[_ ->]]; [|by apply elem_of_nil in Ha'].
        left. exists grp. auto.
    + intros [(grp & Hgrp & Hname & Ha')|[-> ->]].
      * exists (if String.eqb (group_name grp) g then add_attribute_name a grp else grp).
        split.
        { apply list_elem_of_In, in_map_iff. exists grp. split; [reflexivity|].
          apply list_elem_of_In, Hgroups. by left. }
        destruct (String.eqb (group_name grp) g); [|auto].
        split; [exact Hname|]. apply add_attribute_name_spec. by left.
      * apply list_elem_of_In, in_map_iff in Hin as (grp & Hname & Hgrp).
        exists (if String.eqb (group_name grp) g then add_attribute_name a grp else grp).
        split.
        { apply list_elem_of_In, in_map_iff. exists grp. split; [reflexivity|].
          exact Hgrp. }
        rewrite Hname, String.eqb_refl. split; [exact Hname|].
        apply add_attribute_name_spec. by right.
Qed.

Lemma has_attribute_attr_in (classes_json : list annotation_class) n g a :
  has_attribute classes_json n g a
  <-> exists c, c ∈ classes_json /\ class_name c = n /\ attr_in c g a.
Proof.
  unfold has_attribute, attr_in. split.
  - intros (c & grp & Hc & Hn & Hgrp & Hg & Ha). exists c. eauto 10.
  - intros (c & Hc & Hn & grp & Hgrp & Hg & Ha). exists c, grp. auto.
Qed.

(** One row of the table: the classes stay without duplicate names, and
    gain the class and the attribute that the row names. *)
Lemma rebuild_row_spec (classes_json : list annotation_class)
    (row : option class_part) :
  names_unique classes_json ->
  names_unique (rebuild_row classes_json row)
  /\ (forall n, has_class (rebuild_row classes_json row) n
                <-> has_class classes_json n \/ names_class row n)
  /\ (forall n g a, has_attribute (rebuild_row classes_json row) n g a
                    <-> has_attribute classes_json n g a
                        \/ names_attribute row n g a)
  /\ (forall c', c' ∈ rebuild_row classes_json row ->
        (exists c, c ∈ classes_json /\ class_name c = class_name c'
                   /\ class_color c = class_color c')
        \/ (~ has_class classes_json (class_name c')
            /\ exists r, row = Some r /\ part_className r = class_name c'
                         /\ part_classColor r = class_color c')).
Proof.
  intros [Hnd Hwf].
  destruct row as [r|].
  2:{ simpl. split; [by split|]. split; [|split].
      - intros n. split; [auto|]. intros [H|(r & Hr & _)]; [exact H | discriminate].
      - intros n g a. split; [auto|].
        intros [H|(r & Hr & _)]; [exact H | discriminate].
      - intros c' Hc'. left. exists c'. auto. }
  unfold rebuild_row.
  set (new := {| class_name := part_className r; class_color := part_classColor r;
                 class_attribute_groups := [] |}).
  set (classes := find_or_append
                    (fun c => String.eqb (class_name c) (part_className r)) new
                    classes_json).
  destruct (find_or_append_keys class_name (part_className r) new classes_json eq_refl)
    as [Hin Hnd'].
  fold classes in Hin, Hnd'. specialize (Hnd' Hnd).
  assert (Hclasses : forall c, c ∈ classes <->
            c ∈ classes_json
            \/ ((part_className r ∉ map class_name classes_json) /\ c = new)).
  { intros c. apply (find_or_append_elem class_name _ new _ c eq_refl). }
  assert (Hwf' : Forall class_wf classes).
  { apply Forall_forall. intros c Hc. apply Hclasses in Hc as [Hc|[_ ->]].
    - rewrite Forall_forall in Hwf. by apply Hwf.
    - split; constructor. }
  assert (Hno : part_className r ∉ map class_name classes_json ->
                ~ has_class classes_json (part_className r)).
  { intros Hk (c & Hc & Hname). apply Hk.
    apply list_elem_of_In, in_map_iff. exists c.
    split; [exact Hname | by apply list_elem_of_In]. }
  assert (Hbase :
    names_unique classes
    /\ (forall n, has_class classes n
                  <-> has_class classes_json n \/ n = part_className r)
    /\ (forall n g a, has_attribute classes n g a <-> has_attribute classes_json n g a)
    /\ (forall c', c' ∈ classes ->
          (exists c, c ∈ classes_json /\ class_name c = class_name c'
                     /\ class_color c = class_color c')
          \/ (~ has_class classes_json (class_name c')
              /\ part_className r = class_name c'
              /\ part_classColor r = class_color c'))).
  { split; [by split|]. split; [|split].
    - intros n. unfold has_class. split.
      + intros (c & Hc & Hn). apply Hclasses in Hc as [Hc|[_ ->]]; [left; eauto|].
        right. by rewrite <- Hn.
      + intros [(c & Hc & Hn)| ->].
        * exists c. split; [apply Hclasses; by left | exact Hn].
        * apply list_elem_of_In, in_map_iff in Hin as (c & Hn & Hc).
          exists c. split; [by apply list_elem_of_In | exact Hn].
    - intros n g a. rewrite !has_attribute_attr_in. split.
      + intros (c & Hc & Hn & Ha). apply Hclasses in Hc as [Hc|[_ ->]]; [eauto|].
        destruct Ha as (grp & Hgrp & _). by apply elem_of_nil in Hgrp.
      + intros (c & Hc & Hn & Ha). exists c.
        split; [apply Hclasses; by left | auto].
    - intros c' Hc'. apply Hclasses in Hc' as [Hc'|[Hk ->]].
      + left. exists c'. auto.
      + right. split; [by apply Hno | auto]. }
  destruct Hbase as (Huniq & Hclass & Hattr & Hcolor).
  assert (Hplain :
    names_unique classes
    /\ (forall n, has_class classes n
                  <-> has_class classes_json n \/ names_class (Some r) n)
    /\ (forall c', c' ∈ classes ->
          (exists c, c ∈ classes_json /\ class_name c = class_name c'
                     /\ class_color c = class_color c')
          \/ (~ has_class classes_json (class_name c')
              /\ exists r0, Some r = Some r0 /\ part_className r0 = class_name c'
                            /\ part_classColor r0 = class_color c'))).
  { split; [exact Huniq|]. split.
    - intros n. rewrite Hclass. unfold names_class. split.
      + intros [H| ->]; [by left | right; eauto].
      + intros [H|(r0 & Hr0 & Hn)]; [by left|]. inversion Hr0; subst. by right.
    - intros c' Hc'. destruct (Hcolor c' Hc') as [H|(H1 & H2 & H3)]; [by left|].
      right. split; [exact H1|]. eauto. }
  destruct Hplain as (_ & Hclass' & Hcolor').
  assert (Hnone : forall n g a,
            part_attributeGroupName r = None \/ part_attributeName r = None ->
            (has_attribute classes n g a
             <-> has_attribute classes_json n g a \/ names_attribute (Some r) n g a)).
  { intros n g a Hmissing. rewrite Hattr. split; [auto|].
    intros [H|(r0 & Hr0 & _ & Hg & Ha)]; [exact H|].
    inversion Hr0; subst r0. destruct Hmissing; congruence. }
  destruct (part_attributeGroupName r) as [g|] eqn:Hg;
    [|split; [exact Huniq|]; split; [exact Hclass'|]; split; [|exact Hcolor'];
      intros; apply Hnone; by left].
  destruct (part_attributeName r) as [a|] eqn:Ha;
    [|split; [exact Huniq|]; split; [exact Hclass'|]; split; [|exact Hcolor'];
      intros; apply Hnone; by right].
  clear Hnone. rewrite (update_first_map class_name _ _ classes Hnd').
  set (upd := fun c => if String.eqb (class_name c) (part_className r)
                       then add_group_attribute g a c else c).
  assert (Hupd : forall c, c ∈ classes ->
            class_wf (upd c) /\ class_name (upd c) = class_name c
            /\ class_color (upd c) = class_color c
            /\ forall g' a', attr_in (upd c) g' a'
                 <-> attr_in c g' a'
                     \/ (class_name c = part_className r /\ g' = g /\ a' = a)).
  { intros c Hc. rewrite Forall_forall in Hwf'. specialize (Hwf' c Hc).
    unfold upd. destruct (String.eqb (class_name c) (part_className r)) eqn:E.
    - apply String.eqb_eq in E.
      destruct (add_group_attribute_spec g a c Hwf') as (H1 & H2 & H3 & H4).
      split; [exact H1|]. split; [exact H2|]. split; [exact H3|].
      intros g' a'. rewrite H4. tauto.
    - apply String.eqb_neq in E. split; [exact Hwf'|]. split; [reflexivity|].
      split; [reflexivity|]. intros g' a'. tauto. }
  assert (Hmap : forall c', c' ∈ map upd classes <->
            exists c, c ∈ classes /\ c' = upd c).
  { intros c'. rewrite list_elem_of_In, in_map_iff. split.
    - intros (c & <- & Hc). exists c. split; [by apply list_elem_of_In | reflexivity].
    - intros (c & Hc & ->). exists c. split; [reflexivity | by apply list_elem_of_In]. }
  split; [split|split; [|split]].
  - replace (map class_name (map upd classes)) with (map class_name classes);
      [exact Hnd'|].
    rewrite map_map. apply map_ext_in. intros c Hc. apply list_elem_of_In in Hc.
    symmetry. by apply Hupd.
  - apply Forall_forall. intros c' Hc'. apply Hmap in Hc' as (c & Hc & ->).
    by apply Hupd.
  - intros n. rewrite <- Hclass'. unfold has_class. split.
    + intros (c' & Hc' & Hn). apply Hmap in Hc' as (c & Hc & ->).
      exists c. split; [exact Hc|]. destruct (Hupd c Hc) as (_ & <- & _). exact Hn.
    + intros (c & Hc & Hn). exists (upd c). split; [apply Hmap; eauto|].
      destruct (Hupd c Hc) as (_ & -> & _). exact Hn.
  - intros n g' a'. rewrite <- Hattr, !has_attribute_attr_in. split.
    + intros (c' & Hc' & Hn & Hattr'). apply Hmap in Hc' as (c & Hc & ->).
      destruct (Hupd c Hc) as (_ & Hname & _ & Hiff). rewrite Hname in Hn.
      apply Hiff in Hattr' as [Hold|(Hr & -> & ->)].
      * left. exists c. auto.
      * right. exists r. split; [reflexivity|]. split; [congruence|]. auto.
    + intros [(c & Hc & Hn & Hold)|(r0 & Hr0 & Hn & Hg0 & Ha0)].
      * exists (upd c). split; [apply Hmap; eauto|].
        destruct (Hupd c Hc) as (_ & -> & _ & Hiff). split; [exact Hn|].
        apply Hiff. by left.
      * inversion Hr0; subst r0. rewrite Hg in Hg0. rewrite Ha in Ha0.
        inversion Hg0; inversion Ha0; subst g' a'.
        apply list_elem_of_In, in_map_iff in Hin as (c & Hname & Hc).
        apply list_elem_of_In in Hc.
        exists (upd c). split; [apply Hmap; eauto|].
        destruct (Hupd c Hc) as (_ & -> & _ & Hiff). split; [congruence|].
        apply Hiff. right. auto.
  - intros c' Hc'. apply Hmap in Hc' as (c & Hc & ->).
    destruct (Hupd c Hc) as (_ & -> & -> & _). by apply Hcolor'.
Qed.

Lemma names_unique_nil : names_unique [].
Proof. split; constructor. Qed.

(** The loop over the rows, from any classes without duplicate names. *)
Lemma rebuild_fold_spec (rows : list (option class_part)) :
  forall classes_json,
    names_unique classes_json ->
    names_unique (fold_left rebuild_row rows classes_json)
    /\ (forall n, has_class (fold_left rebuild_row rows classes_json) n
                  <-> has_class classes_json n
                      \/ exists row, row ∈ rows /\ names_class row n)
    /\ (forall n g a,
          has_attribute (fold_left rebuild_row rows classes_json) n g a
          <-> has_attribute classes_json n g a
              \/ exists row, row ∈ rows /\ names_attribute row n g a)
    /\ (forall c', c' ∈ fold_left rebuild_row rows classes_json ->
          (exists c, c ∈ classes_json /\ class_name c = class_name c'
                     /\ class_color c = class_color c')
          \/ (~ has_class classes_json (class_name c')
              /\ exists pre r post,
                   rows = pre ++ Some r :: post
                   /\ part_className r = class_name c'
                   /\ part_classColor r = class_color c'
                   /\ forall row, row ∈ pre ->
                        ~ names_class row (class_name c'))).
Proof.
  induction rows as [|row rows IH]; intros cs Huniq.
  - simpl. split; [exact Huniq|]. split; [|split].
    + intros n. split; [auto|].
      intros [H|(row & Hrow & _)]; [exact H | by apply elem_of_nil in Hrow].
    + intros n g a. split; [auto|].
      intros [H|(row & Hrow & _)]; [exact H | by apply elem_of_nil in Hrow].
    + intros c' Hc'. left. exists c'. auto.
  - cbn [fold_left].
    destruct (rebuild_row_spec cs row Huniq) as (Huniq1 & Hclass1 & Hattr1 & Hcolor1).
    destruct (IH _ Huniq1) as (Huniq' & Hclass' & Hattr' & Hcolor').
    split; [exact Huniq'|]. split; [|split].
    + intros n. rewrite Hclass', Hclass1. split.
      * intros [[H|H]|(r & Hr & H)]; [by left | |].
        -- right. exists row. split; [apply list_elem_of_here | exact H].
        -- right. exists r. split; [by apply list_elem_of_further | exact H].
      * intros [H|(r & Hr & H)]; [by left; left|].
        apply elem_of_cons in Hr as [->|Hr]; [by left; right|].
        right. eauto.
    + intros n g a. rewrite Hattr', Hattr1. split.
      * intros [[H|H]|(r & Hr & H)]; [by left | |].
        -- right. exists row. split; [apply list_elem_of_here | exact H].
        -- right. exists r. split; [by apply list_elem_of_further | exact H].
      * intros [H|(r & Hr & H)]; [by left; left|].
        apply elem_of_cons in Hr as [->|Hr]; [by left; right|].
        right. eauto.
    + intros c' Hc'.
      destruct (Hcolor' c' Hc') as [(c1 & Hc1 & Hname & Hcol)|(Hno & pre & r & post & -> & Hn & Hcol & Hpre)].
      * destruct (Hcolor1 c1 Hc1) as [(c & Hc & Hname' & Hcol')|(Hno & r & -> & Hn & Hcol')].
        -- left. exists c. split; [exact Hc|]. split; congruence.
        -- right. rewrite <- Hname. split; [exact Hno|].
           exists [], r, rows. split; [reflexivity|].
           split; [exact Hn|]. split; [congruence|].
           intros row Hrow. by apply elem_of_nil in Hrow.
      * right. split.
        { intros H. apply Hno, Hclass1. by left. }
        exists (row :: pre), r, post. split; [reflexivity|].
        split; [exact Hn|]. split; [exact Hcol|].
        intros row' Hrow'. apply elem_of_cons in Hrow' as [->|Hrow']; [|by apply Hpre].
        intros H. apply Hno, Hclass1. by right.
Qed.

Lemma has_class_nil n : ~ has_class [] n.
Proof. intros (c & Hc & _). by apply elem_of_nil in Hc. Qed.

Lemma has_attribute_nil n g a : ~ has_attribute [] n g a.
Proof. intros (c & grp & Hc & _). by apply elem_of_nil in Hc. Qed.

(** X22: the classes file that [df_to_annotations] rebuilds lists what
    the table names, and nothing else: a class for every class name of a
    row, and under it an attribute for every row that names the class, a
    group and an attribute. *)
Theorem rebuilt_classes_list_the_table (rows : list (option class_part)) n g a :
  (has_class (rebuild_classes rows) n
   <-> exists row, row ∈ rows /\ names_class row n)
  /\ (has_attribute (rebuild_classes rows) n g a
      <-> exists row, row ∈ rows /\ names_attribute row n g a).
Proof.
  destruct (rebuild_fold_spec rows [] names_unique_nil) as (_ & Hclass & Hattr & _).
  unfold rebuild_classes. rewrite Hclass, Hattr. split.
  - split; [|auto]. intros [H|H]; [by apply has_class_nil in H | exact H].
  - split; [|auto]. intros [H|H]; [by apply has_attribute_nil in H | exact H].
Qed.

(** X23: in the classes file rebuilt from a table no name occurs twice,
    among the classes, the groups of a class or the attributes of a
    group; and a class has the color of the first row that names it. *)
Theorem rebuilt_classes_unique_first_color (rows : list (option class_part)) :
  names_unique (rebuild_classes rows)
  /\ forall c, c ∈ rebuild_classes rows ->
       exists pre r post,
         rows = pre ++ Some r :: post
         /\ part_className r = class_name c
         /\ part_classColor r = class_color c
         /\ forall row, row ∈ pre -> ~ names_class row (class_name c).
Proof.
  destruct (rebuild_fold_spec rows [] names_unique_nil) as (Huniq & _ & _ & Hcolor).
  split; [exact Huniq|]. intros c Hc.
  destruct (Hcolor c Hc) as [(c0 & Hc0 & _)|(_ & H)];
    [by apply elem_of_nil in Hc0 | exact H].
Qed.

Lemma filter_key_absent {A} (key : A -> string) (l : list A) k :
  k ∉ map key l -> filter (fun y => key y = k) l = [].
Proof.
  induction l as [|y l IH]; intros Hk; [reflexivity|].
  simpl in Hk. apply not_elem_of_cons in Hk as [Hne Hk].
  rewrite filter_cons, decide_False by congruence. by apply IH.
Qed.

Lemma last_filter_unique {A} (key : A -> string) (l : list A) x :
  NoDup (map key l) -> x ∈ l ->
  last (filter (fun y => key y = key x) l) = Some x.
Proof.
  induction l as [|y l IH]; intros Hnd Hx; [by apply elem_of_nil in Hx|].
  simpl in Hnd. apply NoDup_cons in Hnd as [Hy Hnd]. rewrite filter_cons.
  destruct (decide (key y = key x)) as [Heq|Hne].
  - rewrite (filter_key_absent key l (key x)) by (by rewrite <- Heq).
    apply elem_of_cons in Hx as [->|Hx]; [reflexivity|].
    exfalso. apply Hy. rewrite Heq. apply list_elem_of_In, in_map.
    by apply list_elem_of_In.
  - apply elem_of_cons in Hx as [->|Hx]; [congruence|]. by apply IH.
Qed.

(** What a classes file without duplicate names lists is what the tables
    built from it hold. *)
Lemma validated_of_has_attribute (classes_json : list annotation_class) n g a :
  names_unique classes_json -> has_attribute classes_json n g a ->
  validated (build_class_group_name_to_values classes_json) n (JStr g) (JStr a)
  /\ exists c, c ∈ classes_json /\ class_name c = n
               /\ build_class_name_to_color classes_json !! n
                  = Some (class_color c).
Proof.
  intros [Hnd Hwf] (c & grp & Hc & Hn & Hgrp & Hg & Ha).
  pose proof (last_filter_unique class_name classes_json c Hnd Hc) as Hlast.
  rewrite Hn in Hlast.
  rewrite Forall_forall in Hwf. destruct (Hwf c Hc) as [Hgnd _].
  pose proof (last_filter_unique group_name (class_attribute_groups c) grp Hgnd Hgrp)
    as Hglast.
  rewrite Hg in Hglast.
  split.
  - eexists _, (group_attributes grp). split; [|split].
    + unfold build_class_group_name_to_values.
      rewrite (fold_insert_lookup class_name
                 (fun c => fold_left (fun groups_of_class g =>
                                        <[group_name g := group_attributes g]>
                                          groups_of_class)
                                     (class_attribute_groups c) ∅)).
      rewrite Hlast. reflexivity.
    + simpl. rewrite (fold_insert_lookup group_name group_attributes), Hglast.
      reflexivity.
    + simpl. apply existsb_exists. exists a.
      split; [by apply list_elem_of_In | apply String.eqb_refl].
  - exists c. split; [exact Hc|]. split; [exact Hn|].
    unfold build_class_name_to_color.
    by rewrite (fold_insert_lookup class_name class_color), Hlast.
Qed.

Lemma color_of_has_class (classes_json : list annotation_class) n :
  names_unique classes_json -> has_class classes_json n ->
  exists c, c ∈ classes_json /\ class_name c = n
            /\ build_class_name_to_color classes_json !! n = Some (class_color c).
Proof.
  intros [Hnd _] (c & Hc & Hn).
  pose proof (last_filter_unique class_name classes_json c Hnd Hc) as Hlast.
  rewrite Hn in Hlast.
  exists c. split; [exact Hc|]. split; [exact Hn|].
  unfold build_class_name_to_color.
  by rewrite (fold_insert_lookup class_name class_color), Hlast.
Qed.

(** X24: the classes file rebuilt from a table, read back as the
    aggregation reads a classes file, knows the class of every row of the
    table that names one, with or without an attribute, and lists every
    attribute that a row of the table names: aggregating against it would
    skip none of them. *)
Theorem rebuilt_classes_validate_the_table (rows : list (option class_part)) :
  (forall r,
     Some r ∈ rows ->
     is_Some (build_class_name_to_color (rebuild_classes rows)
              !! part_className r))
  /\ (forall r g a,
        Some r ∈ rows ->
        part_attributeGroupName r = Some g -> part_attributeName r = Some a ->
        validated (build_class_group_name_to_values (rebuild_classes rows))
          (part_className r) (JStr g) (JStr a)).
Proof.
  destruct (rebuild_fold_spec rows [] names_unique_nil) as (Huniq & Hclass & Hattr & _).
  split.
  - intros r Hr.
    assert (Hhas : has_class (rebuild_classes rows) (part_className r)).
    { apply Hclass. right. exists (Some r). split; [exact Hr|]. by exists r. }
    destruct (color_of_has_class _ _ Huniq Hhas) as (c & _ & _ & Hcolor).
    by eexists.
  - intros r g a Hr Hg Ha.
    assert (Hhas : has_attribute (rebuild_classes rows) (part_className r) g a).
    { apply Hattr. right. exists (Some r). split; [exact Hr|]. exists r. auto. }
    by destruct (validated_of_has_attribute _ _ _ _ Huniq Hhas) as (Hvalid & _).
Qed.

Lemma class_part_of_names (row : gmap string json) n :
  names_class (class_part_of row) n
  <-> cell "className" row = JStr n
      /\ exists color, cell "classColor" row = JStr color.
Proof.
  unfold names_class, class_part_of. split.
  - intros (r & Hr & Hn).
    destruct (cell "className" row); try discriminate.
    destruct (cell "classColor" row); try discriminate.
    inversion Hr; subst r. simpl in Hn. subst. eauto.
  - intros (-> & color & ->). eexists. split; reflexivity.
Qed.

Lemma class_part_of_attribute (row : gmap string json) n g a :
  names_attribute (class_part_of row) n g a ->
  cell "className" row = JStr n
  /\ cell "attributeGroupName" row = JStr g
  /\ cell "attributeName" row = JStr a.
Proof.
  unfold names_attribute, class_part_of. intros (r & Hr & Hn & Hg & Ha).
  destruct (cell "className" row); try discriminate.
  destruct (cell "classColor" row); try discriminate.
  inversion Hr; subst r. simpl in Hn, Hg, Ha. subst.
  destruct (cell "attributeGroupName" row); try discriminate.
  destruct (cell "attributeName" row); try discriminate.
  inversion Hg; inversion Ha; subst. auto.
Qed.

Section RoundTrip.
Variable DEPRICATED_DOCUMENT_VIDEO_MESSAGE : string.

(** X25: from an export to a table and back to a classes file.  The file
    rebuilt from the table of [aggregate_image_annotations_as_df] lists no
    class and no attribute that the export's classes file does not list;
    and when the table was built with [include_classes_wo_annotations],
    it lists every class of the export's classes file. *)
Theorem classes_round_trip project_root include_classes_wo_annotations
    include_comments include_tags folder_names classes_json rows :
  classes_file project_root = Some classes_json ->
  aggregate_image_annotations_as_df DEPRICATED_DOCUMENT_VIDEO_MESSAGE
    project_root include_classes_wo_annotations include_comments include_tags
    folder_names = Ok rows ->
  let rebuilt := rebuild_classes (map class_part_of rows) in
  (forall n, has_class rebuilt n -> has_class classes_json n)
  /\ (forall n g a, has_attribute rebuilt n g a -> has_attribute classes_json n g a)
  /\ (include_classes_wo_annotations = true ->
      forall n, has_class classes_json n -> has_class rebuilt n).
Proof.
  intros Hclasses H rebuilt.
  destruct (aggregate_rows _ _ _ _ _ _ _ _ Hclasses H) as [Hrows Hall].
  rewrite Forall_forall in Hrows.
  destruct (rebuild_fold_spec (map class_part_of rows) [] names_unique_nil)
    as (_ & Hclass & Hattr & _).
  fold (rebuild_classes (map class_part_of rows)) in Hclass, Hattr.
  fold rebuilt in Hclass, Hattr.
  split; [|split].
  - intros n Hn. apply Hclass in Hn as [Hn|(p & Hp & Hn)];
      [by apply has_class_nil in Hn|].
    apply list_elem_of_In, in_map_iff in Hp as (row & <- & Hrow).
    apply list_elem_of_In in Hrow.
    apply class_part_of_names in Hn as (Hname & _).
    destruct (Hrows row Hrow) as [Hnull|(c & Hc & Hname' & _)]; [congruence|].
    exists c. split; [exact Hc | congruence].
  - intros n g a Hn. apply Hattr in Hn as [Hn|(p & Hp & Hn)];
      [by apply has_attribute_nil in Hn|].
    apply list_elem_of_In, in_map_iff in Hp as (row & <- & Hrow).
    apply list_elem_of_In in Hrow.
    apply class_part_of_attribute in Hn as (Hname & Hg & Ha).
    destruct (Hrows row Hrow) as [Hnull|(c & Hc & Hname' & _ & Hlisted)];
      [congruence|].
    destruct Hlisted as [[Hnog _]|(grp & a' & Hgrp & Ha' & Hg' & Ha'')];
      [congruence|].
    exists c, grp. split; [exact Hc|]. split; [congruence|].
    split; [exact Hgrp|]. split; [congruence|]. congruence.
  - intros Hwo n (c & Hc & Hn).
    destruct (Hall Hwo c Hc) as (row & Hrow & Hname).
    apply Hclass. right. exists (class_part_of row). split.
    + apply list_elem_of_In, in_map. by apply list_elem_of_In.
    + apply class_part_of_names. split; [congruence|].
      destruct (Hrows row Hrow) as [Hnull|(c' & _ & _ & Hcolor & _)];
        [congruence | eauto].
Qed.

End RoundTrip.

(** ** The further properties at work *)

Lemma search_takes_best_witness :
  exists best s',
    search seed_box (Some "B") (enumerate candidate_boxes) (Fin 0) None
      (initial_state two_folder_objs) = Ok (best, s')
    /\ match best with
       | Some c =>
           candidate_boxes !! fst c = Some (snd c)
           /\ eligible (initial_state two_folder_objs) seed_box (Some "B") c
           /\ exists sc,
                instance_consensus (inst seed_box) (inst (snd c)) = Ok sc
                /\ exceeds sc (Fin 0) = true
                /\ forall c', candidate_boxes !! fst c' = Some (snd c') ->
                     eligible (initial_state two_folder_objs) seed_box (Some "B") c' ->
                     exists sc',
                       instance_consensus (inst seed_box) (inst (snd c')) = Ok sc'
                       /\ (sc' <= sc)%Q
                       /\ ((fst c' < fst c)%nat -> (sc' < sc)%Q)
       | None =>
           forall c', candidate_boxes !! fst c' = Some (snd c') ->
             eligible (initial_state two_folder_objs) seed_box (Some "B") c' ->
             exists sc',
               instance_consensus (inst seed_box) (inst (snd c')) = Ok sc'
               /\ exceeds sc' (Fin 0) = false
       end.
Proof.
  destruct (ok_exists (search seed_box (Some "B") (enumerate candidate_boxes)
                         (Fin 0) None (initial_state two_folder_objs)))
    as [[best s'] H]; [vm_compute; reflexivity|].
  exists best, s'. split; [exact H|].
  exact (search_takes_best _ _ _ _ _ _ _ H).
Defined.

Lemma image_consensus_raises_only_witness :
  image_consensus three_folders "img" "point" = Raise (KeyError (JStr "x"))
  /\ ((exists row, row ∈ three_folders /\ df_imageName row = "img"
                   /\ make_inst "point" (df_meta row) = Raise (KeyError (JStr "x")))
      \/ (exists a b,
            a ∈ valid_members "point" (rows_of "img" three_folders)
            /\ b ∈ valid_members "point" (rows_of "img" three_folders)
            /\ fst a <> fst b
            /\ instance_consensus (inst (snd a)) (inst (snd b))
               = Raise (KeyError (JStr "x")))).
Proof.
  split; [vm_compute; reflexivity|].
  apply (image_consensus_raises_only three_folders "img" "point").
  vm_compute. reflexivity.
Defined.

Lemma image_consensus_one_row_per_valid_instance_witness :
  exists rows,
    image_consensus three_folders "img" "bbox" = Ok rows
    /\ exists ms,
         ms ≡ₚ valid_members "bbox" (rows_of "img" three_folders)
         /\ Forall2 (fun m r => stands_for r m /\ imageName r = "img") ms rows.
Proof.
  destruct (ok_exists (image_consensus three_folders "img" "bbox")) as [rows H];
    [vm_compute; reflexivity|].
  exists rows. split; [exact H|].
  exact (image_consensus_one_row_per_valid_instance _ _ _ _ H).
Defined.

Lemma image_consensus_blocks_witness :
  exists rows,
    image_consensus three_folders "img" "bbox" = Ok rows
    /\ exists blocks,
         rows = concat blocks
         /\ forall i block,
              blocks !! i = Some block ->
              block <> []
              /\ (forall r, r ∈ block -> instanceId r = i)
              /\ NoDup (map folderName block).
Proof.
  destruct (ok_exists (image_consensus three_folders "img" "bbox")) as [rows H];
    [vm_compute; reflexivity|].
  exists rows. split; [exact H|].
  exact (image_consensus_blocks _ _ _ _ H).
Defined.

Lemma groups_overlap_their_seed_witness :
  exists s,
    image_consensus_run three_folders "img" "bbox" = Ok s
    /\ forall g, g ∈ groups s ->
         exists seed,
           seed ∈ g
           /\ forall m, m ∈ g ->
                m = seed
                \/ (fst m <> fst seed
                    /\ exists sc,
                         instance_consensus (inst (snd seed)) (inst (snd m)) = Ok sc
                         /\ (0 < sc)%Q).
Proof.
  destruct (ok_exists (image_consensus_run three_folders "img" "bbox")) as [s H];
    [vm_compute; reflexivity|].
  exists s. split; [exact H|].
  exact (groups_overlap_their_seed _ _ _ _ (or_introl eq_refl) H).
Defined.

Lemma point_scores_count_folders_witness :
  exists s,
    image_consensus_run three_points "img" "point" = Ok s
    /\ exists rowss,
         image_data s = concat rowss
         /\ Forall2 (fun ig rows =>
              Forall2 (fun m r =>
                         folderName r = fst m
                         /\ instanceId r = fst ig
                         /\ (score r
                             == inject_Z (Z.of_nat (length (snd ig)) - 1)
                                / inject_Z (Z.of_nat (n_folders three_points) - 1))%Q)
                      (snd ig) rows)
            (enumerate (groups s)) rowss.
Proof.
  destruct (ok_exists (image_consensus_run three_points "img" "point")) as [s H];
    [vm_compute; reflexivity|].
  exists s. split; [exact H|].
  exact (@point_scores_count_folders planar_shapely _ _ _
           planar_distance_nonneg (fun x y => eq_refl) H).
Defined.

Lemma single_folder_scores_zero_witness :
  n_folders one_folder = 1%nat
  /\ exists rows,
       image_consensus one_folder "img" "bbox" = Ok rows
       /\ forall i r, rows !! i = Some r -> score r = 0%Q /\ instanceId r = i.
Proof.
  split; [vm_compute; reflexivity|].
  destruct (ok_exists (image_consensus one_folder "img" "bbox")) as [rows H];
    [vm_compute; reflexivity|].
  exists rows. split; [exact H|].
  apply (single_folder_scores_zero one_folder "img" "bbox" rows);
    [vm_compute; reflexivity | exact H].
Defined.

Lemma image_without_rows_witness :
  image_consensus three_folders "another" "bbox" = Ok [].
Proof.
  apply image_without_rows. intros row Hrow.
  repeat (apply elem_of_cons in Hrow as [->|Hrow]; [discriminate|]).
  by apply elem_of_nil in Hrow.
Defined.

Lemma unsupported_annot_type_witness :
  image_consensus three_folders "img" "ellipse" = Raise UnboundLocalError.
Proof.
  apply (unsupported_annot_type three_folders "img" "ellipse"
           (sample_row "A" "car" "img" (bbox_meta 0 0 2 2)));
    [discriminate | discriminate | discriminate | apply list_elem_of_here
     | reflexivity].
Defined.

(** ** The further aggregation properties at work *)

Lemma named_folders_found_witness :
  nested_path ∈ find_annotations_paths nested_export (Some ["A/sub"])
  /\ root_path_of_stale ∈ find_annotations_paths stale_classes_export (Some ["."]).
Proof.
  split.
  - apply (proj1 (named_folders_found nested_export ["A/sub"]) nested_path).
    exists "A/sub", ["A"; "sub"],
      [annotation_file "img___objects.json" [car_box]].
    split; [apply list_elem_of_here|]. split; [reflexivity|].
    split; [apply below_child, list_elem_of_here | reflexivity].
  - apply (proj2 (named_folders_found stale_classes_export ["."])
             (annotation_file "img___objects.json" [car_box; pedestrian_box])).
    + left. apply list_elem_of_here.
    + apply list_elem_of_here.
    + reflexivity.
Defined.

Lemma file_of_other_type_skipped_witness :
  contains "___objects.json" "img___pixel.json" = false
  /\ add_file (columns false false) (build_class_name_to_color car_classes)
       (build_class_group_name_to_values car_classes) "___objects.json"
       false false pixel_path empty_state
     = Ok (tt, empty_state).
Proof.
  split; [reflexivity|].
  apply (file_of_other_type_skipped (columns false false)
           (build_class_name_to_color car_classes)
           (build_class_group_name_to_values car_classes)
           "___objects.json" false false [] "img___pixel.json" bare_annotations
           empty_state).
  reflexivity.
Defined.

Lemma vector_file_decides_type_witness :
  below [] (entries nested_export) nested_path
  /\ find_type_postfix nested_export = "___objects.json"
  /\ forall cols class_name_to_color class_group_name_to_values
            include_comments include_tags here name content s,
       contains "___objects.json" name = false ->
       add_file cols class_name_to_color class_group_name_to_values
         (find_type_postfix nested_export) include_comments include_tags
         {| parent := here; target := File name content |} s
       = Ok (tt, s).
Proof.
  assert (H : below [] (entries nested_export) nested_path).
  { eapply below_deeper; [apply list_elem_of_here|].
    eapply below_deeper; [apply list_elem_of_here|].
    apply (below_child ["A"; "sub"]). apply list_elem_of_here. }
  split; [exact H|].
  exact (vector_file_decides_type nested_export nested_path H eq_refl).
Defined.

Lemma every_class_listed_witness :
  exists rows,
    aggregate_image_annotations_as_df "deprecated" stale_classes_export
      true false false None = Ok rows
    /\ forall c, c ∈ car_classes ->
         exists row, row ∈ rows /\ cell "className" row = JStr (class_name c).
Proof.
  destruct (ok_exists (aggregate_image_annotations_as_df "deprecated"
                         stale_classes_export true false false None))
    as [rows H]; [vm_compute; reflexivity|].
  exists rows. split; [exact H|].
  exact (every_class_listed "deprecated" stale_classes_export false false None
           car_classes rows eq_refl H).
Defined.

Lemma export_without_annotations_witness :
  result_map (fun s => (annotation_data s, warnings s))
    (aggregate_run "deprecated" empty_export true false false None)
  = Ok (map (class_only_row (columns false false)) car_classes,
        [no_annotations_warning empty_export]).
Proof.
  exact (export_without_annotations "deprecated" empty_export true false false
           None car_classes eq_refl eq_refl eq_refl).
Defined.

Lemma directory_named_json_aborts_witness :
  json_directory_path ∈ find_annotations_paths json_directory_export None
  /\ is_ok (aggregate_image_annotations_as_df "deprecated" json_directory_export
              false false false None) = false.
Proof.
  assert (H : json_directory_path
              ∈ find_annotations_paths json_directory_export None).
  { vm_compute. apply list_elem_of_here. }
  split; [exact H|].
  exact (directory_named_json_aborts "deprecated" json_directory_export
           false false false None json_directory_path _ _ H eq_refl).
Defined.

Lemma file_instance_ids_witness :
  exists s',
    add_file (columns false false) (build_class_name_to_color car_classes)
      (build_class_group_name_to_values car_classes) "___objects.json"
      false false skipping_path empty_state = Ok (tt, s')
    /\ exists remarks blocks,
         appended (remarks ++ concat blocks) empty_state s'
         /\ Forall (fun row => cell "instanceId" row = JNull) remarks
         /\ (forall i block,
               blocks !! i = Some block ->
               block <> []
               /\ Forall (fun row => cell "instanceId" row
                                     = JNum (inject_Z (Z.of_nat i))) block)
         /\ annotation_instance_id s' = length blocks.
Proof.
  destruct (ok_exists
              (add_file (columns false false) (build_class_name_to_color car_classes)
                 (build_class_group_name_to_values car_classes) "___objects.json"
                 false false skipping_path empty_state)) as [[[] s'] Hs'];
    [vm_compute; reflexivity|].
  exists s'. split; [exact Hs'|].
  exact (file_instance_ids _ _ false false "___objects.json" skipping_path
           _ _ "img" "" empty_state s' eq_refl eq_refl Hs').
Defined.

Lemma file_rows_carry_image_metadata_witness :
  exists s',
    add_file (columns false false) (build_class_name_to_color car_classes)
      (build_class_group_name_to_values car_classes) "___objects.json"
      false false skipping_path empty_state = Ok (tt, s')
    /\ exists image_metadata rows,
         get_image_metadata "img"
           (JObj [ ("metadata", JObj [("height", JNum 10); ("width", JNum 20)]);
                   ("instances",
                    JArr [pedestrian_box; car_box; car_with_attributes]) ])
         = Ok image_metadata
         /\ appended rows empty_state s'
         /\ Forall (fun row =>
                      cell "imageName" row = JStr "img"
                      /\ forall key, key ∈ image_metadata_keys ->
                           cell key row = default JNull (image_metadata !! key))
                   rows.
Proof.
  destruct (ok_exists
              (add_file (columns false false) (build_class_name_to_color car_classes)
                 (build_class_group_name_to_values car_classes) "___objects.json"
                 false false skipping_path empty_state)) as [[[] s'] Hs'];
    [vm_compute; reflexivity|].
  exists s'. split; [exact Hs'|].
  exact (file_rows_carry_image_metadata _ _ false false "___objects.json"
           skipping_path _ _ "img" "" empty_state s' eq_refl eq_refl Hs').
Defined.

Lemma table_validates_against_classes_witness :
  exists rows,
    aggregate_image_annotations_as_df "deprecated" stale_classes_export
      true false false None = Ok rows
    /\ Forall (row_in_classes car_classes) rows.
Proof.
  destruct (ok_exists (aggregate_image_annotations_as_df "deprecated"
                         stale_classes_export true false false None))
    as [rows H]; [vm_compute; reflexivity|].
  exists rows. split; [exact H|].
  exact (table_validates_against_classes "deprecated" stale_classes_export
           true false false None car_classes rows eq_refl H).
Defined.

Lemma rebuilt_classes_validate_the_table_witness :
  let dog := {| part_className := "dog"; part_classColor := "#0000ff";
                part_attributeGroupName := None;
                part_attributeName := None |} in
  let car := {| part_className := "car"; part_classColor := "#00ff00";
                part_attributeGroupName := Some "color";
                part_attributeName := Some "blue" |} in
  Some dog ∈ sample_parts /\ Some car ∈ sample_parts
  /\ is_Some (build_class_name_to_color (rebuild_classes sample_parts) !! "dog")
  /\ validated (build_class_group_name_to_values (rebuild_classes sample_parts))
       "car" (JStr "color") (JStr "blue").
Proof.
  intros dog car.
  assert (Hdog : Some dog ∈ sample_parts).
  { do 3 apply list_elem_of_further. apply list_elem_of_here. }
  assert (Hcar : Some car ∈ sample_parts).
  { apply list_elem_of_further, list_elem_of_further, list_elem_of_here. }
  destruct (rebuilt_classes_validate_the_table sample_parts) as [Hclass Hattr].
  split; [exact Hdog|]. split; [exact Hcar|]. split.
  - exact (Hclass dog Hdog).
  - exact (Hattr car "color" "blue" Hcar eq_refl eq_refl).
Defined.

Lemma classes_round_trip_witness :
  exists rows,
    aggregate_image_annotations_as_df "deprecated" stale_classes_export
      true false false None = Ok rows
    /\ let rebuilt := rebuild_classes (map class_part_of rows) in
       (forall n, has_class rebuilt n -> has_class car_classes n)
       /\ (forall n g a, has_attribute rebuilt n g a ->
             has_attribute car_classes n g a)
       /\ (true = true ->
           forall n, has_class car_classes n -> has_class rebuilt n).
Proof.
  destruct (ok_exists (aggregate_image_annotations_as_df "deprecated"
                         stale_classes_export true false false None))
    as [rows H]; [vm_compute; reflexivity|].
  exists rows. split; [exact H|].
  exact (classes_round_trip "deprecated" stale_classes_export true false false
           None car_classes rows eq_refl H).
Defined.

Lemma point_consensus_returns_witness :
  exists rows, image_consensus three_points "img" "point" = Ok rows.
Proof.
  apply (@point_consensus_returns planar_shapely three_points "img").
  - intros x y. reflexivity.
  - intros row Hrow _.
    repeat (apply elem_of_cons in Hrow as [->|Hrow];
            [eexists _, _; split; reflexivity|]).
    by apply elem_of_nil in Hrow.
Defined.
